(** * Neo-AI service: a shallow embedding of the Python sources

    The development follows the layout of [neo-ai-service/src]: one module
    per source file.  Python floats are modelled by exact rationals ([Q]),
    Python ints by [Z], [str] by [string] (code points 0..255), [bytes] by
    [list byte], dicts keyed by strings by [gmap string _] and ordered
    dicts by association lists.  [time.time()] is modelled by a sampled
    clock: every call of [time.time()] reads the next sample. *)

From Stdlib Require Import ZArith QArith Qminmax Qround Lqa Lia List String Ascii Bool.
From Stdlib Require Import Sorted Permutation.
From Stdlib.Strings Require Import Byte.
From Stdlib Require Import DecimalString.
From stdpp Require Import gmap strings.
Import ListNotations.

Open Scope Z_scope.
Open Scope Q_scope.
Open Scope string_scope.

(** ** Exceptions and results *)

(** The exception classes the modelled code raises or tests for, all of
    them subclasses of [Exception].  The five classes of
    [errors/exceptions.py] are listed by name; [Foreign] stands for any
    other subclass of [Exception] defined outside the repository.  What
    is raised outside [Exception] ([asyncio.CancelledError],
    [KeyboardInterrupt], [SystemExit]) is not modelled: no [except
    Exception] clause of the sources catches it. *)
Inductive exn_class :=
| ZeroDivisionError
| TypeError
| ValueError
| IndexError
| StructError
| UnicodeDecodeError
| JSONDecodeError
| AIServiceError
| ModelNotFoundError
| RateLimitError
| AdapterError
| ValidationError
| Foreign (name : string).

(** An exception object: its class, [str(e)] and the [error_code]
    attribute of an [AIServiceError] (absent on other classes). *)
Record exn := mk_exn {
  exn_class_of : exn_class;
  exn_str : string;
  exn_error_code : option string
}.

Definition builtin_exn (c : exn_class) (msg : string) : exn :=
  mk_exn c msg None.

Inductive Res (A : Type) :=
| Ret (a : A)
| Raise (e : exn).
Arguments Ret {A} a.
Arguments Raise {A} e.

Definition res_map {A B} (f : A -> B) (r : Res A) : Res B :=
  match r with
  | Ret a => Ret (f a)
  | Raise e => Raise e
  end.

(** ** The wall clock *)

(** [readings c n] is what the [n]-th call of [time.time()] returns;
    [reads c] counts the calls made so far. *)
Record Clock := mk_clock {
  readings : nat -> Q;
  reads : nat
}.

Definition time_time (c : Clock) : Q * Clock :=
  (readings c (reads c), mk_clock (readings c) (S (reads c))).

(** The [k]-th reading of the clock after the ones already made. *)
Definition sample (c : Clock) (k : nat) : Q := readings c (k + reads c).

(** The clock after [n] more readings. *)
Definition ticks (n : nat) (c : Clock) : Clock :=
  mk_clock (readings c) (n + reads c).

Definition tick (c : Clock) : Clock := ticks 1 c.

(** A clock that reads the given samples in order and then stays at [d]. *)
Definition clock_of_list (l : list Q) (d : Q) : Clock :=
  mk_clock (fun n => nth n l d) 0.

(** Python's [int(x)] on a float: truncation towards zero. *)
Definition py_int (x : Q) : Z := Z.quot (Qnum x) (Zpos (Qden x)).

(** Python's [x / y] on floats. *)
Definition py_div (x y : Q) : Res Q :=
  if Qeq_bool y 0 then Raise (builtin_exn ZeroDivisionError "float division by zero")
  else Ret (x / y).

(** ** Stateful, fallible computations that read the clock *)

(** A method of an object with state [S]: it may read the clock, update
    the state and raise.  What was written before an exception stays
    written. *)
Definition M (S A : Type) : Type := S -> Clock -> Res A * S * Clock.

Definition ret {S A} (a : A) : M S A := fun s c => (Ret a, s, c).

Definition raise {S A} (e : exn) : M S A := fun s c => (Raise e, s, c).

Definition bind {S A B} (m : M S A) (k : A -> M S B) : M S B :=
  fun s c =>
    match m s c with
    | (Ret a, s', c') => k a s' c'
    | (Raise e, s', c') => (Raise e, s', c')
    end.

Definition get_state {S} : M S S := fun s c => (Ret s, s, c).

Definition modify {S} (f : S -> S) : M S unit := fun s c => (Ret tt, f s, c).

Definition now {S} : M S Q :=
  fun s c => let (t, c') := time_time c in (Ret t, s, c').

Definition lift_res {S A} (r : Res A) : M S A := fun s c => (r, s, c).

(** The result, the state and the clock a computation ends with. *)
Definition res_of {S A} (o : Res A * S * Clock) : Res A := fst (fst o).
Definition st_of {S A} (o : Res A * S * Clock) : S := snd (fst o).
Definition clk_of {S A} (o : Res A * S * Clock) : Clock := snd o.

Declare Scope py_scope.
Delimit Scope py_scope with py.
Notation "x <- c1 ;; c2" := (bind c1 (fun x => c2))
  (at level 100, c1 at next level, right associativity) : py_scope.
Notation "c1 ;; c2" := (bind c1 (fun _ => c2))
  (at level 100, right associativity) : py_scope.

(** A computation that returns hands its result, state and clock to the
    rest of the sequence. *)
Lemma bind_run {S A B} (m : M S A) (k : A -> M S B) s c a s' c' :
  m s c = (Ret a, s', c') -> bind m k s c = k a s' c'.
Proof. intros E. unfold bind. rewrite E. reflexivity. Qed.

Lemma sample_tick c k : sample (tick c) k = sample c (S k).
Proof. unfold sample, tick, ticks. cbn. f_equal. lia. Qed.

(** * rate_limiter/token_bucket.py *)

Module token_bucket.

Record TokenBucket := mk_bucket {
  capacity : Z;
  refill_rate : Q;
  tokens : Q;
  last_refill : Q
}.

(** [TokenBucket.__init__]; [now] is the reading of [time.time()]. *)
Definition init (capacity : Z) (refill_rate : Q) (now : Q) : TokenBucket :=
  mk_bucket capacity refill_rate (inject_Z capacity) now.

(** [TokenBucket._refill]. *)
Definition _refill (now : Q) (b : TokenBucket) : TokenBucket :=
  let elapsed := now - last_refill b in
  let tokens_to_add := elapsed * refill_rate b in
  mk_bucket (capacity b) (refill_rate b)
            (Qmin (inject_Z (capacity b)) (tokens b + tokens_to_add))
            now.

(** [TokenBucket.consume]; [n] is the parameter [tokens] of the source. *)
Definition consume (n : Q) (now : Q) (b : TokenBucket) : bool * TokenBucket :=
  let b := _refill now b in
  if Qle_bool n (tokens b)
  then (true, mk_bucket (capacity b) (refill_rate b) (tokens b - n) (last_refill b))
  else (false, b).

(** [TokenBucket.get_tokens]. *)
Definition get_tokens (now : Q) (b : TokenBucket) : Q * TokenBucket :=
  let b := _refill now b in
  (tokens b, b).

(** [TokenBucket.get_wait_time]; [None] is Python's [None]. *)
Definition get_wait_time (n : Q) (now : Q) (b : TokenBucket)
  : Res (option Q) * TokenBucket :=
  let b := _refill now b in
  if Qle_bool n (tokens b) then (Ret None, b)
  else
    let needed := n - tokens b in
    (res_map Some (py_div needed (refill_rate b)), b).

(** The scenario of the specification: a bucket of capacity 5 and refill
    rate 5 created at [t0], [consume(5)] at [t1], [consume(1)] at [t2] and
    [consume(1)] at [t3]. *)
Definition scenario (t0 t1 t2 t3 : Q) : bool * bool * bool :=
  let b0 := init 5 5 t0 in
  let '(r1, b1) := consume 5 t1 b0 in
  let '(r2, b2) := consume 1 t2 b1 in
  let '(r3, _) := consume 1 t3 b2 in
  (r1, r2, r3).

Lemma refill_tokens now b :
  tokens (_refill now b)
  = Qmin (inject_Z (capacity b)) (tokens b + (now - last_refill b) * refill_rate b).
Proof. reflexivity. Qed.

Lemma consume_admits n now b :
  n <= tokens (_refill now b) ->
  consume n now b
  = (true, mk_bucket (capacity b) (refill_rate b) (tokens (_refill now b) - n) now).
Proof.
  intros H. unfold consume.
  apply Qle_bool_iff in H. rewrite H. reflexivity.
Qed.

Lemma consume_rejects n now b :
  ~ n <= tokens (_refill now b) ->
  consume n now b = (false, _refill now b).
Proof.
  intros H. unfold consume.
  destruct (Qle_bool n (tokens (_refill now b))) eqn:E; [|reflexivity].
  apply Qle_bool_iff in E. contradiction.
Qed.

Lemma consume_result n now b :
  fst (consume n now b) = Qle_bool n (tokens (_refill now b)).
Proof. unfold consume. destruct (Qle_bool _ _); reflexivity. Qed.

Lemma scenario_holds t0 t1 t2 t3 :
  t0 <= t1 -> t1 <= t2 -> t2 < t1 + (1 # 5) -> t2 + 1 <= t3 ->
  scenario t0 t1 t2 t3 = (true, false, true).
Proof.
  intros H01 H12 H12' H23. unfold scenario.
  rewrite consume_admits.
  2:{ rewrite refill_tokens. cbn [init capacity tokens last_refill refill_rate].
      destruct (Q.min_spec (inject_Z 5) (inject_Z 5 + (t1 - t0) * 5)) as [[_ ->]|[_ ->]];
        change (inject_Z 5) with 5; lra. }
  rewrite consume_rejects.
  2:{ rewrite !refill_tokens. cbn [init capacity tokens last_refill refill_rate].
      set (x := Qmin _ _ - 5).
      assert (Hx : x == 0).
      { subst x.
        destruct (Q.min_spec (inject_Z 5) (inject_Z 5 + (t1 - t0) * 5)) as [[? ->]|[? ->]];
          change (inject_Z 5) with 5 in *; lra. }
      destruct (Q.min_spec (inject_Z 5) (x + (t2 - t1) * 5)) as [[? ->]|[? ->]];
        change (inject_Z 5) with 5 in *; lra. }
  rewrite consume_admits; [reflexivity|].
  rewrite !refill_tokens. cbn [_refill init capacity tokens last_refill refill_rate].
  set (x := Qmin _ _ - 5).
  assert (Hx : x == 0).
  { subst x.
    destruct (Q.min_spec (inject_Z 5) (inject_Z 5 + (t1 - t0) * 5)) as [[? ->]|[? ->]];
      change (inject_Z 5) with 5 in *; lra. }
  set (y := Qmin (inject_Z 5) (x + _)).
  assert (Hy : 0 <= y).
  { subst y.
    destruct (Q.min_spec (inject_Z 5) (x + (t2 - t1) * 5)) as [[? ->]|[? ->]];
      change (inject_Z 5) with 5 in *; lra. }
  destruct (Q.min_spec (inject_Z 5) (y + (t3 - t2) * 5)) as [[? ->]|[? ->]];
    change (inject_Z 5) with 5 in *; lra.
Qed.

(** C3. Every operation first refills the bucket to
    [min(capacity, tokens + elapsed * refill_rate)]; [consume(n)] then
    succeeds exactly when the refilled count is at least [n], subtracting
    [n], and otherwise fails and leaves the refilled count as it is.  A
    bucket of capacity 5 and rate 5/s created at [t0] admits [consume(5)]
    at [t1 >= t0], refuses a [consume(1)] that follows less than a fifth of
    a second later, and admits [consume(1)] one full second after that. *)
Theorem consume_refills_then_subtracts
  (b : TokenBucket) (n now t0 t1 t2 t3 : Q)
  (H01 : t0 <= t1) (H12 : t1 <= t2) (Himm : t2 < t1 + (1 # 5))
  (H23 : t2 + 1 <= t3) :
  tokens (_refill now b)
  = Qmin (inject_Z (capacity b))
         (tokens b + (now - last_refill b) * refill_rate b)
  /\ snd (get_tokens now b) = _refill now b
  /\ snd (get_wait_time n now b) = _refill now b
  /\ (fst (consume n now b) = true <-> n <= tokens (_refill now b))
  /\ (fst (consume n now b) = true ->
      tokens (snd (consume n now b)) = tokens (_refill now b) - n)
  /\ (fst (consume n now b) = false ->
      snd (consume n now b) = _refill now b)
  /\ scenario t0 t1 t2 t3 = (true, false, true).
Proof.
  split; [apply refill_tokens|].
  split; [reflexivity|].
  split.
  { unfold get_wait_time. destruct (Qle_bool _ _); reflexivity. }
  split.
  { rewrite consume_result. apply Qle_bool_iff. }
  split.
  { rewrite consume_result. intros E. apply Qle_bool_iff in E.
    rewrite consume_admits by exact E. reflexivity. }
  split.
  { rewrite consume_result. intros E.
    rewrite consume_rejects; [reflexivity|].
    intros E'. apply Qle_bool_iff in E'. congruence. }
  apply scenario_holds; assumption.
Qed.

Lemma consume_refills_then_subtracts_witness :
  (0 <= 0 /\ 0 <= 0 /\ 0 < 0 + (1 # 5) /\ 0 + 1 <= 1)
  /\ fst (consume 5 0 (init 5 5 0)) = true
  /\ scenario 0 0 0 1 = (true, false, true).
Proof.
  assert (H1 : 0 <= 0) by (unfold Qle; simpl; lia).
  assert (H2 : 0 < 0 + (1 # 5)) by (unfold Qlt; simpl; lia).
  assert (H3 : 0 + 1 <= 1) by (unfold Qle; simpl; lia).
  split; [repeat split; assumption|].
  pose proof (consume_refills_then_subtracts (init 5 5 0) 5 0 0 0 0 1 H1 H1 H2 H3)
    as (_ & _ & _ & _ & _ & _ & Hs).
  split; [reflexivity | exact Hs].
Defined.

(** ** Further properties of the bucket *)

(** What holds of a bucket between two calls: a count that is not negative
    and not above the capacity, and a rate that is not negative. *)
Definition within_bounds (b : TokenBucket) : Prop :=
  0 <= tokens b /\ tokens b <= inject_Z (capacity b) /\ 0 <= refill_rate b.

Lemma refill_le_capacity now b : tokens (_refill now b) <= inject_Z (capacity b).
Proof. rewrite refill_tokens. apply Q.le_min_l. Qed.

Lemma refill_within_bounds now b :
  within_bounds b -> last_refill b <= now -> within_bounds (_refill now b).
Proof.
  intros (H0 & Hc & Hr) Ht. split; [|split].
  - rewrite refill_tokens. apply Q.min_glb; [lra|].
    assert (0 <= (now - last_refill b) * refill_rate b)
      by (apply Qmult_le_0_compat; lra).
    lra.
  - exact (refill_le_capacity now b).
  - exact Hr.
Qed.

(** X1.  On a clock that does not run backwards the count stays between 0 and
    the capacity through every operation, whatever non-negative amount is
    asked for; the capacity and the rate never change. *)
Theorem tokens_stay_within_bounds (b : TokenBucket) (n now : Q)
  (Hb : within_bounds b) (Hclock : last_refill b <= now) (Hn : 0 <= n) :
  within_bounds (snd (consume n now b)) /\
  within_bounds (snd (get_tokens now b)) /\
  within_bounds (snd (get_wait_time n now b)) /\
  (0 <= fst (get_tokens now b) /\ fst (get_tokens now b) <= inject_Z (capacity b)) /\
  (capacity (snd (consume n now b)) = capacity b /\
   refill_rate (snd (consume n now b)) = refill_rate b /\
   last_refill (snd (consume n now b)) = now).
Proof.
  pose proof (refill_within_bounds now b Hb Hclock) as (R0 & Rc & Rr).
  split; [|split; [|split; [|split]]].
  - unfold consume. destruct (Qle_bool n (tokens (_refill now b))) eqn:E.
    + apply Qle_bool_iff in E. cbn [snd]. unfold within_bounds.
      cbn [tokens capacity refill_rate] in *. repeat split; lra.
    + cbn [snd]. repeat split; assumption.
  - cbn [get_tokens snd]. repeat split; assumption.
  - unfold get_wait_time. destruct (Qle_bool _ _); cbn [snd]; repeat split; assumption.
  - cbn [get_tokens fst]. split; assumption.
  - unfold consume. destruct (Qle_bool _ _); cbn; auto.
Qed.

Lemma tokens_stay_within_bounds_witness :
  within_bounds (init 5 5 0) /\
  within_bounds (snd (consume 3 1 (init 5 5 0))).
Proof.
  assert (Hb : within_bounds (init 5 5 0))
    by (unfold within_bounds; cbn; repeat split; unfold Qle; simpl; lia).
  split; [exact Hb|].
  apply (tokens_stay_within_bounds (init 5 5 0) 3 1 Hb);
    unfold Qle; simpl; lia.
Defined.

(** X2.  A request for more than the capacity is refused at every time and in
    every state of the bucket: no wait makes it pass. *)
Theorem request_above_capacity_is_never_admitted (b : TokenBucket) (n now : Q)
  (Hbig : inject_Z (capacity b) < n) :
  fst (consume n now b) = false /\
  capacity (snd (consume n now b)) = capacity b.
Proof.
  rewrite consume_rejects.
  - split; reflexivity.
  - pose proof (refill_le_capacity now b). lra.
Qed.

Lemma request_above_capacity_is_never_admitted_witness :
  inject_Z (capacity (init 5 5 0)) < 6 /\
  fst (consume 6 1000 (init 5 5 0)) = false.
Proof.
  assert (H : inject_Z (capacity (init 5 5 0)) < 6) by (unfold Qlt; simpl; lia).
  split; [exact H|].
  apply (request_above_capacity_is_never_admitted (init 5 5 0) 6 1000 H).
Defined.

Lemma get_wait_time_result n now b :
  0 < refill_rate b ->
  get_wait_time n now b
  = (if Qle_bool n (tokens (_refill now b)) then Ret None
     else Ret (Some ((n - tokens (_refill now b)) / refill_rate b)),
     _refill now b).
Proof.
  intros Hrate. unfold get_wait_time. cbv zeta.
  destruct (Qle_bool n (tokens (_refill now b))); [reflexivity|].
  unfold py_div. change (refill_rate (_refill now b)) with (refill_rate b).
  replace (Qeq_bool (refill_rate b) 0) with false; [reflexivity|].
  symmetry. apply not_true_is_false. intros E. apply Qeq_bool_iff in E. lra.
Qed.

Lemma refill_grows now later b :
  within_bounds b -> last_refill b <= now -> now <= later ->
  tokens (_refill now b) <= tokens (_refill later (_refill now b)).
Proof.
  intros Hb Hclock Hlater.
  pose proof (refill_within_bounds now b Hb Hclock) as (R0 & Rc & Rr).
  rewrite (refill_tokens later).
  change (last_refill (_refill now b)) with now.
  change (capacity (_refill now b)) with (capacity b) in *.
  change (refill_rate (_refill now b)) with (refill_rate b) in *.
  apply Q.min_glb; [exact Rc|].
  assert (0 <= (later - now) * refill_rate b)
    by (apply Qmult_le_0_compat; lra).
  lra.
Qed.

(** X3.  On a bucket that refills, [get_wait_time(n)] takes no tokens and
    agrees with [consume(n)]: it returns None exactly when [consume(n)],
    called at that moment instead, would admit the amount.  Otherwise it
    returns a wait that is not negative and at most [n / refill_rate],
    and asked again later, with nothing consumed in between, it never
    asks for a longer wait: a request that could go through still can,
    and a wait that was announced does not grow. *)
Theorem wait_time_agrees_with_consume (b : TokenBucket) (n now later : Q)
  (Hb : within_bounds b) (Hrate : 0 < refill_rate b)
  (Hclock : last_refill b <= now) (Hlater : now <= later) :
  let first := get_wait_time n now b in
  let second := get_wait_time n later (snd first) in
  snd first = snd (get_tokens now b) /\
  (fst first = Ret None <-> fst (consume n now b) = true) /\
  (forall w, fst first = Ret (Some w) -> 0 <= w /\ w <= n / refill_rate b) /\
  (fst first = Ret None -> fst second = Ret None) /\
  (forall w, fst first = Ret (Some w) ->
     fst second = Ret None \/ exists w', fst second = Ret (Some w') /\ w' <= w).
Proof.
  cbn zeta. rewrite (get_wait_time_result n now b Hrate). cbn [fst snd].
  rewrite (get_wait_time_result n later (_refill now b)) by exact Hrate.
  cbn [fst snd]. change (refill_rate (_refill now b)) with (refill_rate b).
  rewrite consume_result.
  pose proof (refill_within_bounds now b Hb Hclock) as (R0 & Rc & Rr).
  pose proof (refill_grows now later b Hb Hclock Hlater) as Hgrow.
  set (t1 := tokens (_refill now b)) in *.
  set (t2 := tokens (_refill later (_refill now b))) in *.
  clearbody t1 t2.
  split; [reflexivity|]. split; [|split; [|split]].
  - destruct (Qle_bool n t1); split; congruence.
  - intros w. destruct (Qle_bool n t1) eqn:E; [discriminate|].
    intros [= <-].
    assert (Hlt : t1 < n).
    { destruct (Qlt_le_dec t1 n) as [H|H]; [exact H|].
      apply Qle_bool_iff in H. congruence. }
    split.
    + apply Qlt_le_weak, Qlt_shift_div_l; lra.
    + apply Qle_shift_div_l; [exact Hrate|].
      assert (Hq : (n - t1) / refill_rate b * refill_rate b == n - t1)
        by (rewrite Qmult_comm; apply Qmult_div_r; lra).
      lra.
  - destruct (Qle_bool n t1) eqn:E; [|discriminate]. intros _.
    apply Qle_bool_iff in E.
    replace (Qle_bool n t2) with true; [reflexivity|].
    symmetry. apply Qle_bool_iff. lra.
  - intros w. destruct (Qle_bool n t1) eqn:E; [discriminate|].
    intros [= <-].
    destruct (Qle_bool n t2) eqn:E2; [left; reflexivity|].
    right. eexists. split; [reflexivity|].
    apply Qle_shift_div_l; [exact Hrate|].
    assert (Hq : (n - t2) / refill_rate b * refill_rate b == n - t2)
      by (rewrite Qmult_comm; apply Qmult_div_r; lra).
    lra.
Qed.

Lemma wait_time_agrees_with_consume_witness :
  let b := snd (consume 5 0 (init 5 2 0)) in
  fst (get_wait_time 1 0 b) = Ret (Some (1 # 2)) /\
  fst (consume 1 0 b) = false /\
  exists w',
    fst (get_wait_time 1 (1 # 4) (snd (get_wait_time 1 0 b))) = Ret (Some w') /\
    w' <= 1 # 2.
Proof.
  cbn zeta.
  assert (Hb : within_bounds (snd (consume 5 0 (init 5 2 0))))
    by (vm_compute; repeat split; discriminate).
  assert (Hrate : 0 < refill_rate (snd (consume 5 0 (init 5 2 0))))
    by (vm_compute; reflexivity).
  assert (Hclock : last_refill (snd (consume 5 0 (init 5 2 0))) <= 0)
    by (vm_compute; discriminate).
  assert (Hlater : 0 <= 1 # 4) by (vm_compute; discriminate).
  destruct (wait_time_agrees_with_consume (snd (consume 5 0 (init 5 2 0))) 1 0 (1 # 4)
              Hb Hrate Hclock Hlater)
    as (_ & Hiff & _ & _ & Hshrink).
  split; [reflexivity|].
  split.
  - apply not_true_is_false. intros E. apply Hiff in E. discriminate E.
  - destruct (Hshrink (1 # 2) eq_refl) as [H | (w' & H & Hle)].
    + vm_compute in H. discriminate H.
    + exists w'. split; assumption.
Defined.

End token_bucket.

(** * rate_limiter/rate_limiter.py *)

Module rate_limiter.
Import token_bucket.

Record RateLimitConfig := mk_config {
  enabled : bool;
  global_requests_per_second : Q;
  global_requests_per_minute : Q;
  global_burst_size : Z;
  client_requests_per_second : Q;
  client_requests_per_minute : Q;
  client_burst_size : Z;
  model_limits : option (gmap string (gmap string Q));
  enable_priority : bool;
  high_priority_multiplier : Q
}.

(** The defaults of the dataclass. *)
Definition default_config : RateLimitConfig :=
  mk_config true 10 100 20 2 20 5 None true 2.

(** One entry of [client_stats]. *)
Record ClientStats := mk_stats {
  allowed : Z;
  rejected : Z
}.

Record RateLimiter := mk_limiter {
  config : RateLimitConfig;
  global_second_bucket : TokenBucket;
  global_minute_bucket : TokenBucket;
  client_second_buckets : gmap string TokenBucket;
  client_minute_buckets : gmap string TokenBucket;
  total_requests : Z;
  rejected_requests : Z;
  client_stats : gmap string ClientStats
}.

Definition set_global_second_bucket (b : TokenBucket) (rl : RateLimiter) :=
  mk_limiter (config rl) b (global_minute_bucket rl)
    (client_second_buckets rl) (client_minute_buckets rl)
    (total_requests rl) (rejected_requests rl) (client_stats rl).

Definition set_global_minute_bucket (b : TokenBucket) (rl : RateLimiter) :=
  mk_limiter (config rl) (global_second_bucket rl) b
    (client_second_buckets rl) (client_minute_buckets rl)
    (total_requests rl) (rejected_requests rl) (client_stats rl).

Definition set_client_second_bucket (client_id : string) (b : TokenBucket)
  (rl : RateLimiter) :=
  mk_limiter (config rl) (global_second_bucket rl) (global_minute_bucket rl)
    (<[client_id := b]> (client_second_buckets rl)) (client_minute_buckets rl)
    (total_requests rl) (rejected_requests rl) (client_stats rl).

Definition set_client_minute_bucket (client_id : string) (b : TokenBucket)
  (rl : RateLimiter) :=
  mk_limiter (config rl) (global_second_bucket rl) (global_minute_bucket rl)
    (client_second_buckets rl) (<[client_id := b]> (client_minute_buckets rl))
    (total_requests rl) (rejected_requests rl) (client_stats rl).

Definition set_counters (total rej : Z) (stats : gmap string ClientStats)
  (rl : RateLimiter) :=
  mk_limiter (config rl) (global_second_bucket rl) (global_minute_bucket rl)
    (client_second_buckets rl) (client_minute_buckets rl)
    total rej stats.

(** [RateLimiter.__init__]: the two global buckets are created one after
    the other, each reading the clock. *)
Definition init_limiter (cfg : RateLimitConfig) (c : Clock) : RateLimiter * Clock :=
  let (t1, c) := time_time c in
  let gs := init (global_burst_size cfg) (global_requests_per_second cfg) t1 in
  let (t2, c) := time_time c in
  let gm := init (py_int (global_requests_per_minute cfg))
                 (global_requests_per_minute cfg / 60) t2 in
  (mk_limiter cfg gs gm ∅ ∅ 0 0 ∅, c).

(** [client_stats[client_id]] on the [defaultdict]. *)
Definition stats_of (client_id : string) (rl : RateLimiter) : ClientStats :=
  default (mk_stats 0 0) (client_stats rl !! client_id).

(** [RateLimiter._record_rejection]; the warning it logs is not modelled. *)
Definition _record_rejection (client_id reason : string) : M RateLimiter unit :=
  modify (fun rl =>
    let st := stats_of client_id rl in
    set_counters (total_requests rl) (rejected_requests rl + 1)
      (<[client_id := mk_stats (allowed st) (rejected st + 1)]> (client_stats rl))
      rl).

(** [RateLimiter._get_client_bucket]: the bucket is created on first use,
    reading the clock. *)
Definition _get_client_bucket (client_id bucket_type : string)
  : M RateLimiter TokenBucket :=
  (rl <- get_state ;;
   if String.eqb bucket_type "second" then
     match client_second_buckets rl !! client_id with
     | Some b => ret b
     | None =>
         t <- now ;;
         let b := init (client_burst_size (config rl))
                       (client_requests_per_second (config rl)) t in
         modify (set_client_second_bucket client_id b) ;;
         ret b
     end
   else
     match client_minute_buckets rl !! client_id with
     | Some b => ret b
     | None =>
         t <- now ;;
         let b := init (py_int (client_requests_per_minute (config rl)))
                       (client_requests_per_minute (config rl) / 60) t in
         modify (set_client_minute_bucket client_id b) ;;
         ret b
     end)%py.

(** A method call on a bucket object held by the limiter: the method
    reads the clock once and mutates the object, so the updated bucket is
    stored back where the object lives; it is also returned, for the
    caller's local variable that names the same object. *)
Definition call {A} (store : TokenBucket -> RateLimiter -> RateLimiter)
  (method : Q -> TokenBucket -> A * TokenBucket) (b : TokenBucket)
  : M RateLimiter (A * TokenBucket) :=
  (t <- now ;;
   let r := method t b in
   modify (store (snd r)) ;;
   ret r)%py.

(** The token cost after the priority adjustment (the local variable
    [effective_tokens] of [check_rate_limit]). *)
Definition effective_tokens (cfg : RateLimitConfig) (priority : string)
  (tokens : Z) : Res Q :=
  if enable_priority cfg && String.eqb priority "high"
  then py_div (inject_Z tokens) (high_priority_multiplier cfg)
  else Ret (inject_Z tokens).

(** [RateLimiter.check_rate_limit].  The branch on [model_limits] has no
    effect in the source (its body is a TODO) and is left out. *)
Definition check_rate_limit (client_id : string) (model : option string)
  (priority : string) (tokens : Z) : M RateLimiter (bool * option Q) :=
  (rl <- get_state ;;
   if negb (enabled (config rl)) then ret (true, None) else
   modify (fun rl => set_counters (total_requests rl + 1)
                       (rejected_requests rl) (client_stats rl) rl) ;;
   effective_tokens <- lift_res (effective_tokens (config rl) priority tokens) ;;
   rl <- get_state ;;
   r <- call set_global_second_bucket (consume effective_tokens)
             (global_second_bucket rl) ;;
   if negb (fst r) then
     rl <- get_state ;;
     w <- call set_global_second_bucket (get_wait_time effective_tokens)
               (global_second_bucket rl) ;;
     wait_time <- lift_res (fst w) ;;
     _record_rejection client_id "global_second_limit" ;;
     ret (false, wait_time)
   else
   rl <- get_state ;;
   r <- call set_global_minute_bucket (consume effective_tokens)
             (global_minute_bucket rl) ;;
   if negb (fst r) then
     rl <- get_state ;;
     w <- call set_global_minute_bucket (get_wait_time effective_tokens)
               (global_minute_bucket rl) ;;
     wait_time <- lift_res (fst w) ;;
     _record_rejection client_id "global_minute_limit" ;;
     ret (false, wait_time)
   else
   client_second <- _get_client_bucket client_id "second" ;;
   r <- call (set_client_second_bucket client_id) (consume effective_tokens)
             client_second ;;
   let client_second := snd r in
   if negb (fst r) then
     w <- call (set_client_second_bucket client_id)
               (get_wait_time effective_tokens) client_second ;;
     wait_time <- lift_res (fst w) ;;
     _record_rejection client_id "client_second_limit" ;;
     ret (false, wait_time)
   else
   client_minute <- _get_client_bucket client_id "minute" ;;
   r <- call (set_client_minute_bucket client_id) (consume effective_tokens)
             client_minute ;;
   let client_minute := snd r in
   if negb (fst r) then
     w <- call (set_client_minute_bucket client_id)
               (get_wait_time effective_tokens) client_minute ;;
     wait_time <- lift_res (fst w) ;;
     _record_rejection client_id "client_minute_limit" ;;
     ret (false, wait_time)
   else
   modify (fun rl =>
     let st := stats_of client_id rl in
     set_counters (total_requests rl) (rejected_requests rl)
       (<[client_id := mk_stats (allowed st + 1) (rejected st)]> (client_stats rl))
       rl) ;;
   ret (true, None))%py.

(** *** Vocabulary of the statements *)

(** How many readings creating the client's bucket takes: one when the
    client is new, none otherwise. *)
Definition fresh (m : gmap string TokenBucket) (client_id : string) : nat :=
  match m !! client_id with Some _ => 0 | None => 1 end.

(** The client's per-second (per-minute) bucket as [_get_client_bucket]
    returns it, created at time [t] when the client is new. *)
Definition second_bucket_at (rl : RateLimiter) (client_id : string) (t : Q) :=
  match client_second_buckets rl !! client_id with
  | Some b => b
  | None => init (client_burst_size (config rl))
                 (client_requests_per_second (config rl)) t
  end.

Definition minute_bucket_at (rl : RateLimiter) (client_id : string) (t : Q) :=
  match client_minute_buckets rl !! client_id with
  | Some b => b
  | None => init (py_int (client_requests_per_minute (config rl)))
                 (client_requests_per_minute (config rl) / 60) t
  end.

(** A limiter with full global buckets and no client yet, on a clock that
    always reads 0. *)
Definition clock0 : Clock := clock_of_list [] 0.

Definition fresh_limiter (cfg : RateLimitConfig) : RateLimiter :=
  fst (init_limiter cfg clock0).

(** The default configuration with priorities switched off and a global
    burst size of 1. *)
Definition config_no_priority : RateLimitConfig :=
  mk_config true 10 100 1 2 20 5 None false 2.

(** A limiter whose client ["c"] has used up its per-second bucket. *)
Definition limiter_client_exhausted : RateLimiter :=
  set_client_second_bucket "c" (mk_bucket 5 2 0 0) (fresh_limiter default_config).

Ltac run_py :=
  cbv [check_rate_limit bind get_state modify ret lift_res call now time_time
       _record_rejection _get_client_bucket].

Ltac py_simpl :=
  cbn [config global_second_bucket global_minute_bucket client_second_buckets
       client_minute_buckets total_requests rejected_requests client_stats
       set_counters set_global_second_bucket set_global_minute_bucket
       set_client_second_bucket set_client_minute_bucket
       readings reads fst snd negb String.eqb Ascii.eqb Bool.eqb] in *.

Ltac norm_reads :=
  cbn [Nat.add] in *; rewrite ?Nat.add_succ_r, ?Nat.add_0_r in *.

(** Case on the outcome of a bucket method whose result a hypothesis [H]
    fixes. *)
Ltac case_consume H :=
  match type of H with
  | fst ?c = _ =>
      let ok := fresh "ok" in
      let b := fresh "b" in
      destruct c as [ok b] eqn:?; py_simpl; subst ok; py_simpl
  end.

Ltac case_wait :=
  match goal with
  | |- context [get_wait_time ?n ?t ?b] =>
      destruct (get_wait_time n t b) as [[?|?] ?]; py_simpl
  end.

Section paths.
Context (rl : RateLimiter) (clk : Clock) (client_id : string)
  (model : option string) (priority : string) (tokens : Z) (eff : Q).
Hypothesis Hen : enabled (config rl) = true.
Hypothesis Hcost : effective_tokens (config rl) priority tokens = Ret eff.

Let t := sample clk.
Let n2 := fresh (client_second_buckets rl) client_id.
Let n3 := fresh (client_minute_buckets rl) client_id.
Let gs := consume eff (t 0%nat) (global_second_bucket rl).
Let gm := consume eff (t 1%nat) (global_minute_bucket rl).
Let cs := consume eff (t (2 + n2)%nat) (second_bucket_at rl client_id (t 2%nat)).
Let cm := consume eff (t (3 + n2 + n3)%nat)
                  (minute_bucket_at rl client_id (t (3 + n2)%nat)).
Let out := check_rate_limit client_id model priority tokens rl clk.

Lemma path_global_second :
  fst gs = false ->
  let w := get_wait_time eff (t 1%nat) (snd gs) in
  fst (fst out) = res_map (pair false) (fst w) /\
  global_second_bucket (snd (fst out)) = snd w /\
  global_minute_bucket (snd (fst out)) = global_minute_bucket rl /\
  client_second_buckets (snd (fst out)) = client_second_buckets rl /\
  client_minute_buckets (snd (fst out)) = client_minute_buckets rl.
Proof.
  intros Hgs w. subst w out gs t. unfold sample in *. norm_reads.
  run_py. rewrite Hen, Hcost. py_simpl.
  case_consume Hgs. case_wait; auto.
Qed.

Lemma path_global_minute :
  fst gs = true -> fst gm = false ->
  let w := get_wait_time eff (t 2%nat) (snd gm) in
  fst (fst out) = res_map (pair false) (fst w) /\
  global_second_bucket (snd (fst out)) = snd gs /\
  global_minute_bucket (snd (fst out)) = snd w /\
  client_second_buckets (snd (fst out)) = client_second_buckets rl /\
  client_minute_buckets (snd (fst out)) = client_minute_buckets rl.
Proof.
  intros Hgs Hgm w. subst w out gs gm t. unfold sample in *. norm_reads.
  run_py. rewrite Hen, Hcost. py_simpl.
  case_consume Hgs. case_consume Hgm. case_wait; auto.
Qed.

Lemma path_client_second :
  fst gs = true -> fst gm = true -> fst cs = false ->
  let w := get_wait_time eff (t (3 + n2)%nat) (snd cs) in
  fst (fst out) = res_map (pair false) (fst w) /\
  global_second_bucket (snd (fst out)) = snd gs /\
  global_minute_bucket (snd (fst out)) = snd gm /\
  client_second_buckets (snd (fst out))
  = <[client_id := snd w]> (client_second_buckets rl) /\
  client_minute_buckets (snd (fst out)) = client_minute_buckets rl.
Proof.
  intros Hgs Hgm Hcs w. subst w out gs gm cs n2 t.
  unfold sample, second_bucket_at, fresh in *. norm_reads.
  run_py. rewrite Hen, Hcost. py_simpl.
  case_consume Hgs. case_consume Hgm.
  destruct (client_second_buckets rl !! client_id) as [b1|] eqn:L;
    norm_reads; py_simpl; case_consume Hcs; case_wait;
    rewrite ?insert_insert_eq; auto.
Qed.

Lemma path_client_minute :
  fst gs = true -> fst gm = true -> fst cs = true -> fst cm = false ->
  let w := get_wait_time eff (t (4 + n2 + n3)%nat) (snd cm) in
  fst (fst out) = res_map (pair false) (fst w) /\
  global_second_bucket (snd (fst out)) = snd gs /\
  global_minute_bucket (snd (fst out)) = snd gm /\
  client_second_buckets (snd (fst out))
  = <[client_id := snd cs]> (client_second_buckets rl) /\
  client_minute_buckets (snd (fst out))
  = <[client_id := snd w]> (client_minute_buckets rl).
Proof.
  intros Hgs Hgm Hcs Hcm w. subst w out gs gm cs cm n2 n3 t.
  unfold sample, second_bucket_at, minute_bucket_at, fresh in *. norm_reads.
  run_py. rewrite Hen, Hcost. py_simpl.
  case_consume Hgs. case_consume Hgm.
  destruct (client_second_buckets rl !! client_id) as [b1|] eqn:L2;
    destruct (client_minute_buckets rl !! client_id) as [b2|] eqn:L3;
    norm_reads; py_simpl; case_consume Hcs; rewrite ?L3; py_simpl;
    case_consume Hcm; case_wait; rewrite ?insert_insert_eq; auto.
Qed.

Lemma path_all_admit :
  fst gs = true -> fst gm = true -> fst cs = true -> fst cm = true ->
  fst (fst out) = Ret (true, None) /\
  global_second_bucket (snd (fst out)) = snd gs /\
  global_minute_bucket (snd (fst out)) = snd gm /\
  client_second_buckets (snd (fst out))
  = <[client_id := snd cs]> (client_second_buckets rl) /\
  client_minute_buckets (snd (fst out))
  = <[client_id := snd cm]> (client_minute_buckets rl).
Proof.
  intros Hgs Hgm Hcs Hcm. subst out gs gm cs cm n2 n3 t.
  unfold sample, second_bucket_at, minute_bucket_at, fresh in *. norm_reads.
  run_py. rewrite Hen, Hcost. py_simpl.
  case_consume Hgs. case_consume Hgm.
  destruct (client_second_buckets rl !! client_id) as [b1|] eqn:L2;
    destruct (client_minute_buckets rl !! client_id) as [b2|] eqn:L3;
    norm_reads; py_simpl; case_consume Hcs; rewrite ?L3; py_simpl;
    case_consume Hcm; rewrite ?insert_insert_eq; auto.
Qed.

Lemma rejection_is_not_admission (w : Res (option Q)) :
  res_map (pair false) w <> Ret (true, None).
Proof. destruct w; cbn; congruence. Qed.

(** C4 (amended).  On an enabled limiter the cost [eff] charged to the
    buckets is [tokens / high_priority_multiplier] when priorities are
    enabled and the request is ["high"], and [tokens] otherwise.  The
    buckets are tried in the order global-second, global-minute,
    client-second, client-minute; the first one that rejects decides the
    answer [(false, wait_time)], with [wait_time] what that bucket's
    [get_wait_time] returns, and the buckets after it are left as they
    were; the answer is [(true, None)] exactly when all four admit. *)
Theorem check_rate_limit_fixed_order :
  (enable_priority (config rl) = true -> priority = "high" ->
   eff = inject_Z tokens / high_priority_multiplier (config rl)) /\
  (enable_priority (config rl) = false \/ priority <> "high" ->
   eff = inject_Z tokens) /\
  (fst gs = false ->
   fst (fst out)
   = res_map (pair false) (fst (get_wait_time eff (t 1%nat) (snd gs))) /\
   global_minute_bucket (snd (fst out)) = global_minute_bucket rl /\
   client_second_buckets (snd (fst out)) = client_second_buckets rl /\
   client_minute_buckets (snd (fst out)) = client_minute_buckets rl) /\
  (fst gs = true -> fst gm = false ->
   fst (fst out)
   = res_map (pair false) (fst (get_wait_time eff (t 2%nat) (snd gm))) /\
   client_second_buckets (snd (fst out)) = client_second_buckets rl /\
   client_minute_buckets (snd (fst out)) = client_minute_buckets rl) /\
  (fst gs = true -> fst gm = true -> fst cs = false ->
   fst (fst out)
   = res_map (pair false)
       (fst (get_wait_time eff (t (3 + n2)%nat) (snd cs))) /\
   client_minute_buckets (snd (fst out)) = client_minute_buckets rl) /\
  (fst gs = true -> fst gm = true -> fst cs = true -> fst cm = false ->
   fst (fst out)
   = res_map (pair false)
       (fst (get_wait_time eff (t (4 + n2 + n3)%nat) (snd cm)))) /\
  (fst (fst out) = Ret (true, None) <->
   fst gs = true /\ fst gm = true /\ fst cs = true /\ fst cm = true).
Proof.
  split.
  { intros Hp ->. revert Hcost. unfold effective_tokens, py_div.
    rewrite Hp. cbn. destruct (Qeq_bool _ 0); congruence. }
  split.
  { intros Hp. revert Hcost. unfold effective_tokens.
    destruct Hp as [-> | Hp]; cbn; [congruence|].
    destruct (String.eqb_spec priority "high"); [contradiction|].
    rewrite andb_false_r. congruence. }
  split.
  { intros Hgs. destruct (path_global_second Hgs) as (? & ? & ? & ? & ?). auto. }
  split.
  { intros Hgs Hgm.
    destruct (path_global_minute Hgs Hgm) as (? & ? & ? & ? & ?). auto. }
  split.
  { intros Hgs Hgm Hcs.
    destruct (path_client_second Hgs Hgm Hcs) as (? & ? & ? & ? & ?). auto. }
  split.
  { intros Hgs Hgm Hcs Hcm.
    destruct (path_client_minute Hgs Hgm Hcs Hcm) as (? & ? & ? & ? & ?). auto. }
  split.
  - intros Hout.
    destruct (fst gs) eqn:Hgs.
    2:{ destruct (path_global_second Hgs) as (E & _).
        rewrite E in Hout. now apply rejection_is_not_admission in Hout. }
    destruct (fst gm) eqn:Hgm.
    2:{ destruct (path_global_minute Hgs Hgm) as (E & _).
        rewrite E in Hout. now apply rejection_is_not_admission in Hout. }
    destruct (fst cs) eqn:Hcs.
    2:{ destruct (path_client_second Hgs Hgm Hcs) as (E & _).
        rewrite E in Hout. now apply rejection_is_not_admission in Hout. }
    destruct (fst cm) eqn:Hcm; [auto|].
    destruct (path_client_minute Hgs Hgm Hcs Hcm) as (E & _).
    rewrite E in Hout. now apply rejection_is_not_admission in Hout.
  - intros (Hgs & Hgm & Hcs & Hcm).
    apply (path_all_admit Hgs Hgm Hcs Hcm).
Qed.

(** C10.  When a bucket later in the order rejects the request, every
    bucket checked before it keeps the charge: in the limiter's state
    after the call its token count is the refilled count minus the cost,
    and nothing is given back. *)
Theorem rejected_request_is_not_refunded :
  (fst gs = true -> fst gm = false ->
   fst (fst out)
   = res_map (pair false) (fst (get_wait_time eff (t 2%nat) (snd gm))) /\
   token_bucket.tokens (global_second_bucket (snd (fst out)))
   = token_bucket.tokens (_refill (t 0%nat) (global_second_bucket rl)) - eff) /\
  (fst gs = true -> fst gm = true -> fst cs = false ->
   fst (fst out)
   = res_map (pair false)
       (fst (get_wait_time eff (t (3 + n2)%nat) (snd cs))) /\
   token_bucket.tokens (global_second_bucket (snd (fst out)))
   = token_bucket.tokens (_refill (t 0%nat) (global_second_bucket rl)) - eff /\
   token_bucket.tokens (global_minute_bucket (snd (fst out)))
   = token_bucket.tokens (_refill (t 1%nat) (global_minute_bucket rl)) - eff) /\
  (fst gs = true -> fst gm = true -> fst cs = true -> fst cm = false ->
   fst (fst out)
   = res_map (pair false)
       (fst (get_wait_time eff (t (4 + n2 + n3)%nat) (snd cm))) /\
   token_bucket.tokens (global_second_bucket (snd (fst out)))
   = token_bucket.tokens (_refill (t 0%nat) (global_second_bucket rl)) - eff /\
   token_bucket.tokens (global_minute_bucket (snd (fst out)))
   = token_bucket.tokens (_refill (t 1%nat) (global_minute_bucket rl)) - eff /\
   token_bucket.tokens <$> (client_second_buckets (snd (fst out)) !! client_id)
   = Some (token_bucket.tokens (_refill (t (2 + n2)%nat)
                           (second_bucket_at rl client_id (t 2%nat))) - eff)).
Proof.
  assert (charge : forall now b, fst (consume eff now b) = true ->
            token_bucket.tokens (snd (consume eff now b)) = token_bucket.tokens (_refill now b) - eff).
  { intros now b. rewrite consume_result. intros E.
    apply Qle_bool_iff in E. rewrite consume_admits by exact E. reflexivity. }
  split.
  { intros Hgs Hgm.
    destruct (path_global_minute Hgs Hgm) as (E & Egs & _).
    rewrite E, Egs. split; [reflexivity|]. apply charge, Hgs. }
  split.
  { intros Hgs Hgm Hcs.
    destruct (path_client_second Hgs Hgm Hcs) as (E & Egs & Egm & _).
    rewrite E, Egs, Egm.
    split; [reflexivity|]. split; apply charge; assumption. }
  intros Hgs Hgm Hcs Hcm.
  destruct (path_client_minute Hgs Hgm Hcs Hcm) as (E & Egs & Egm & Ecs & _).
  rewrite E, Egs, Egm, Ecs, lookup_insert_eq. cbn.
  split; [reflexivity|]. split; [apply charge, Hgs|].
  split; [apply charge, Hgm|]. f_equal. apply charge, Hcs.
Qed.

End paths.

Lemma check_rate_limit_fixed_order_witness :
  enabled (config (fresh_limiter default_config)) = true /\
  effective_tokens default_config "high" 1 = Ret (1 # 2) /\
  fst (fst (check_rate_limit "c" None "high" 1
              (fresh_limiter default_config) clock0))
  = Ret (true, None).
Proof.
  split; [reflexivity|]. split; [reflexivity|].
  apply (check_rate_limit_fixed_order
           (fresh_limiter default_config) clock0 "c" None "high" 1 (1 # 2)
           eq_refl eq_refl).
  repeat split; vm_compute; reflexivity.
Defined.

(** With priorities switched off a ["high"] request for 2 tokens is
    charged 2 tokens and the global per-second bucket of capacity 1 rejects
    it, although every bucket would admit the divided cost [2 / 2]. *)
Lemma high_priority_cost_is_gated :
  enabled config_no_priority = true /\
  effective_tokens config_no_priority "high" 2 = Ret 2 /\
  fst (fst (check_rate_limit "c" None "high" 2
              (fresh_limiter config_no_priority) clock0))
  = Ret (false, Some (1 # 10)) /\
  (let rl := fresh_limiter config_no_priority in
   let cost := 2 / high_priority_multiplier config_no_priority in
   fst (consume cost 0 (global_second_bucket rl)) = true /\
   fst (consume cost 0 (global_minute_bucket rl)) = true /\
   fst (consume cost 0 (second_bucket_at rl "c" 0)) = true /\
   fst (consume cost 0 (minute_bucket_at rl "c" 0)) = true).
Proof. vm_compute. repeat split; reflexivity. Qed.

Lemma rejected_request_is_not_refunded_witness :
  enabled (config limiter_client_exhausted) = true /\
  effective_tokens (config limiter_client_exhausted) "normal" 1 = Ret 1 /\
  fst (fst (check_rate_limit "c" None "normal" 1 limiter_client_exhausted clock0))
  = Ret (false, Some (1 # 2)) /\
  tokens (global_second_bucket
            (snd (fst (check_rate_limit "c" None "normal" 1
                         limiter_client_exhausted clock0))))
  = 20 - 1.
Proof.
  split; [reflexivity|]. split; [reflexivity|].
  destruct (rejected_request_is_not_refunded
              limiter_client_exhausted clock0 "c" None "normal" 1 1
              eq_refl eq_refl) as (_ & H & _).
  destruct H as (E & Egs & _); [reflexivity .. |].
  split; [exact E | exact Egs].
Defined.

(** ** Further properties of the limiter *)

(** [RateLimiter.reset_client]. *)
Definition reset_client (client_id : string) : M RateLimiter unit :=
  modify (fun rl =>
    mk_limiter (config rl) (global_second_bucket rl) (global_minute_bucket rl)
      (delete client_id (client_second_buckets rl))
      (delete client_id (client_minute_buckets rl))
      (total_requests rl) (rejected_requests rl)
      (delete client_id (client_stats rl))).

(** The dict [RateLimiter.get_stats] returns. *)
Record Stats := mk_stats_report {
  stats_enabled : bool;
  stats_total_requests : Z;
  allowed_requests : Z;
  stats_rejected_requests : Z;
  rejection_rate : Q;
  active_clients : nat;
  global_tokens_second : Q;
  global_tokens_minute : Q;
  limits : Q * Q * Q * Q
}.

(** [RateLimiter.get_stats]: reading the two global buckets refills them. *)
Definition get_stats : M RateLimiter Stats :=
  (rl <- get_state ;;
   let total_allowed :=
     map_fold (fun _ st acc => (allowed st + acc)%Z) 0%Z (client_stats rl) in
   let rate :=
     if (0 <? total_requests rl)%Z
     then inject_Z (rejected_requests rl) / inject_Z (total_requests rl)
     else 0 in
   second <- call set_global_second_bucket get_tokens (global_second_bucket rl) ;;
   rl' <- get_state ;;
   minute <- call set_global_minute_bucket get_tokens (global_minute_bucket rl') ;;
   ret (mk_stats_report (enabled (config rl)) (total_requests rl) total_allowed
          (rejected_requests rl) rate (size (client_stats rl))
          (fst second) (fst minute)
          (global_requests_per_second (config rl),
           global_requests_per_minute (config rl),
           client_requests_per_second (config rl),
           client_requests_per_minute (config rl))))%py.

(** The limiters a run of the service can hold. *)
Inductive reachable : RateLimiter -> Prop :=
| reach_init cfg clk : reachable (fst (init_limiter cfg clk))
| reach_check rl clk client_id model priority tokens :
    reachable rl ->
    reachable (st_of (check_rate_limit client_id model priority tokens rl clk))
| reach_reset rl clk client_id :
    reachable rl -> reachable (st_of (reset_client client_id rl clk))
| reach_stats rl clk :
    reachable rl -> reachable (st_of (get_stats rl clk)).

(** Every branch of [check_rate_limit], one goal per outcome of the bucket
    methods it calls. *)
Ltac all_paths :=
  run_py; py_simpl;
  repeat match goal with
  | |- context [effective_tokens ?c ?p ?t] =>
      destruct (effective_tokens c p t) as [?|?]; py_simpl
  | |- context [client_second_buckets ?rl !! ?c] =>
      destruct (client_second_buckets rl !! c) as [?|] eqn:?; py_simpl
  | |- context [client_minute_buckets ?rl !! ?c] =>
      destruct (client_minute_buckets rl !! c) as [?|] eqn:?; py_simpl
  | |- context [consume ?n ?t ?b] =>
      destruct (consume n t b) as [[|] ?]; py_simpl
  | |- context [get_wait_time ?n ?t ?b] =>
      destruct (get_wait_time n t b) as [[?|?] ?]; py_simpl
  end.

Lemma check_rate_limit_counters rl clk client_id model priority tokens :
  enabled (config rl) = true ->
  let o := check_rate_limit client_id model priority tokens rl clk in
  total_requests (st_of o) = (total_requests rl + 1)%Z /\
  match res_of o with
  | Ret (true, wait) =>
      wait = None /\
      rejected_requests (st_of o) = rejected_requests rl /\
      client_stats (st_of o)
      = <[client_id := mk_stats (allowed (stats_of client_id rl) + 1)
                                (rejected (stats_of client_id rl))]> (client_stats rl)
  | Ret (false, wait) =>
      rejected_requests (st_of o) = (rejected_requests rl + 1)%Z /\
      client_stats (st_of o)
      = <[client_id := mk_stats (allowed (stats_of client_id rl))
                                (rejected (stats_of client_id rl) + 1)]> (client_stats rl)
  | Raise _ =>
      rejected_requests (st_of o) = rejected_requests rl /\
      client_stats (st_of o) = client_stats rl
  end.
Proof.
  intros Hen o. subst o. unfold st_of, res_of.
  run_py. rewrite Hen. all_paths; unfold stats_of; py_simpl; auto.
Qed.


Lemma check_rate_limit_disabled rl clk client_id model priority tokens :
  enabled (config rl) = false ->
  check_rate_limit client_id model priority tokens rl clk = (Ret (true, None), rl, clk).
Proof. intros Hen. run_py. rewrite Hen. reflexivity. Qed.

(** X4.  Every request an enabled limiter answers is counted exactly once: the
    total goes up by one, and either the client's allowed count or, with
    the limiter's rejection count, the client's rejected count.  A request
    that ends in an exception is counted in the total only. *)
Theorem every_request_is_counted_once
  (rl : RateLimiter) (clk : Clock) (client_id : string) (model : option string)
  (priority : string) (tokens : Z)
  (Hen : enabled (config rl) = true) :
  let o := check_rate_limit client_id model priority tokens rl clk in
  total_requests (st_of o) = (total_requests rl + 1)%Z /\
  match res_of o with
  | Ret (true, wait) =>
      wait = None /\
      rejected_requests (st_of o) = rejected_requests rl /\
      stats_of client_id (st_of o)
      = mk_stats (allowed (stats_of client_id rl) + 1) (rejected (stats_of client_id rl))
  | Ret (false, wait) =>
      rejected_requests (st_of o) = (rejected_requests rl + 1)%Z /\
      stats_of client_id (st_of o)
      = mk_stats (allowed (stats_of client_id rl)) (rejected (stats_of client_id rl) + 1)
  | Raise _ =>
      rejected_requests (st_of o) = rejected_requests rl /\
      stats_of client_id (st_of o) = stats_of client_id rl
  end.
Proof.
  intros o.
  destruct (check_rate_limit_counters rl clk client_id model priority tokens Hen)
    as [Ht Hr].
  fold o in Ht, Hr. split; [exact Ht|].
  destruct (res_of o) as [[[|] wait]|e].
  - destruct Hr as (Hw & Hrej & Hst). repeat split; try assumption.
    unfold stats_of at 1. rewrite Hst, lookup_insert_eq. reflexivity.
  - destruct Hr as (Hrej & Hst). split; [assumption|].
    unfold stats_of at 1. rewrite Hst, lookup_insert_eq. reflexivity.
  - destruct Hr as (Hrej & Hst). split; [assumption|].
    unfold stats_of. rewrite Hst. reflexivity.
Qed.

Lemma every_request_is_counted_once_witness :
  enabled (config (fresh_limiter default_config)) = true /\
  total_requests
    (st_of (check_rate_limit "c" None "normal" 1 (fresh_limiter default_config) clock0))
  = 1%Z.
Proof.
  split; [reflexivity|].
  apply (every_request_is_counted_once (fresh_limiter default_config) clock0
           "c" None "normal" 1 eq_refl).
Defined.

(** What a call can change in the per-client maps: the entries of the
    calling client. *)
Lemma check_rate_limit_maps rl clk client_id model priority tokens :
  let rl' := st_of (check_rate_limit client_id model priority tokens rl clk) in
  (client_second_buckets rl' = client_second_buckets rl \/
   exists b, client_second_buckets rl' = <[client_id := b]> (client_second_buckets rl)) /\
  (client_minute_buckets rl' = client_minute_buckets rl \/
   exists b, client_minute_buckets rl' = <[client_id := b]> (client_minute_buckets rl)) /\
  (client_stats rl' = client_stats rl \/
   exists st, client_stats rl' = <[client_id := st]> (client_stats rl)).
Proof.
  intros rl'. subst rl'. unfold st_of.
  destruct (enabled (config rl)) eqn:Hen.
  2:{ rewrite check_rate_limit_disabled by exact Hen. auto. }
  run_py. rewrite Hen.
  all_paths; rewrite ?insert_insert_eq;
    repeat split; first [left; reflexivity | right; eexists; reflexivity].
Qed.

(** X5.  A request of one client never touches what the limiter keeps for
    another: the other client's two buckets and its counters are the same
    after the call, whatever its outcome. *)
Theorem other_clients_are_untouched
  (rl : RateLimiter) (clk : Clock) (client_id other : string)
  (model : option string) (priority : string) (tokens : Z)
  (Hother : other <> client_id) :
  let rl' := st_of (check_rate_limit client_id model priority tokens rl clk) in
  client_second_buckets rl' !! other = client_second_buckets rl !! other /\
  client_minute_buckets rl' !! other = client_minute_buckets rl !! other /\
  client_stats rl' !! other = client_stats rl !! other.
Proof.
  intros rl'.
  destruct (check_rate_limit_maps rl clk client_id model priority tokens)
    as (H2 & H3 & Hs).
  fold rl' in H2, H3, Hs.
  repeat split;
    [destruct H2 as [-> | [b ->]] | destruct H3 as [-> | [b ->]]
    | destruct Hs as [-> | [b ->]]];
    rewrite ?lookup_insert_ne by congruence; reflexivity.
Qed.

Lemma other_clients_are_untouched_witness :
  "d" <> "c" /\
  client_second_buckets
    (st_of (check_rate_limit "c" None "normal" 1 limiter_client_exhausted clock0))
    !! "d" = None.
Proof.
  assert (H : "d" <> "c") by discriminate.
  split; [exact H|].
  destruct (other_clients_are_untouched limiter_client_exhausted clock0 "c" "d"
              None "normal" 1 H) as (E & _).
  rewrite E. reflexivity.
Defined.

Lemma get_stats_run rl clk :
  exists s rl',
    get_stats rl clk = (Ret s, rl', ticks 2 clk) /\
    total_requests rl' = total_requests rl /\
    rejected_requests rl' = rejected_requests rl /\
    stats_total_requests s = total_requests rl /\
    stats_rejected_requests s = rejected_requests rl /\
    rejection_rate s
    = (if (0 <? total_requests rl)%Z
       then inject_Z (rejected_requests rl) / inject_Z (total_requests rl)
       else 0).
Proof.
  unfold get_stats. cbv [bind get_state call now time_time modify ret].
  py_simpl. eexists. eexists. split; [reflexivity|]. cbn. auto.
Qed.

Lemma reachable_counters rl :
  reachable rl -> (0 <= rejected_requests rl <= total_requests rl)%Z.
Proof.
  induction 1 as [cfg clk | rl clk c m p t _ IH | rl clk c _ IH | rl clk _ IH].
  - unfold init_limiter, time_time. cbn. lia.
  - destruct (enabled (config rl)) eqn:Hen.
    + destruct (check_rate_limit_counters rl clk c m p t Hen) as [Ht Hr].
      destruct (res_of _) as [[[|] w]|e]; lia.
    + rewrite check_rate_limit_disabled by exact Hen. exact IH.
  - exact IH.
  - destruct (get_stats_run rl clk) as (s & rl' & E & Ht & Hr & _).
    rewrite E. unfold st_of. cbn [fst snd]. lia.
Qed.

(** X6.  Through any sequence of requests, resets and reports the limiter has
    rejected at most as many requests as it has counted, so the rejection
    rate [get_stats] reports is a fraction between 0 and 1; [get_stats]
    never raises, a limiter that has counted no request reporting 0. *)
Theorem rejection_rate_is_a_fraction (rl : RateLimiter) (clk : Clock)
  (H : reachable rl) :
  exists s,
    res_of (get_stats rl clk) = Ret s /\
    0 <= rejection_rate s /\ rejection_rate s <= 1 /\
    (total_requests rl = 0%Z -> rejection_rate s = 0).
Proof.
  destruct (get_stats_run rl clk) as (s & rl' & E & _ & _ & _ & _ & Er).
  pose proof (reachable_counters rl H) as [H0 H1].
  exists s. rewrite E. split; [reflexivity|]. rewrite Er.
  destruct (Z.ltb_spec 0 (total_requests rl)) as [Hpos|Hz].
  - assert (Hq : 0 < inject_Z (total_requests rl))
      by (change 0 with (inject_Z 0); rewrite <- Zlt_Qlt; exact Hpos).
    assert (Hr0 : 0 <= inject_Z (rejected_requests rl))
      by (change 0 with (inject_Z 0); rewrite <- Zle_Qle; exact H0).
    assert (Hr1 : inject_Z (rejected_requests rl) <= inject_Z (total_requests rl))
      by (rewrite <- Zle_Qle; exact H1).
    split; [|split].
    + apply Qle_shift_div_l; [exact Hq | lra].
    + apply Qle_shift_div_r; [exact Hq | lra].
    + lia.
  - split; [|split]; [unfold Qle; simpl; lia .. | reflexivity].
Qed.

(** The limiter after one request of a new client. *)
Definition limiter_after_one_request : RateLimiter :=
  st_of (check_rate_limit "c" None "normal" 1 (fresh_limiter default_config) clock0).

Lemma rejection_rate_is_a_fraction_witness :
  reachable limiter_after_one_request /\
  exists s,
    res_of (get_stats limiter_after_one_request clock0) = Ret s /\
    rejection_rate s <= 1.
Proof.
  assert (R : reachable limiter_after_one_request)
    by (apply reach_check, reach_init).
  split; [exact R|].
  destruct (rejection_rate_is_a_fraction _ clock0 R) as (s & E & _ & H1 & _).
  exists s. split; [exact E | exact H1].
Defined.

Section rejected_by_global_second.
Context (rl : RateLimiter) (clk : Clock) (client_id : string)
  (model : option string) (priority : string) (tokens : Z) (eff : Q).
Hypothesis Hen : enabled (config rl) = true.
Hypothesis Hcost : effective_tokens (config rl) priority tokens = Ret eff.
Hypothesis Hrate : refill_rate (global_second_bucket rl) == 0.
Hypothesis Hrej :
  fst (consume eff (sample clk 0) (global_second_bucket rl)) = false.

(** X7.  A global limit of 0 requests per second: once the burst is used up
    the limiter does not reject, it raises [ZeroDivisionError] out of
    [get_wait_time]; the request is counted in the total, but neither as
    rejected nor as allowed. *)
Theorem zero_refill_rate_raises_instead_of_rejecting :
  let o := check_rate_limit client_id model priority tokens rl clk in
  res_of o = Raise (builtin_exn ZeroDivisionError "float division by zero") /\
  total_requests (st_of o) = (total_requests rl + 1)%Z /\
  rejected_requests (st_of o) = rejected_requests rl /\
  client_stats (st_of o) = client_stats rl.
Proof.
  intros o.
  assert (Eres : res_of o = Raise (builtin_exn ZeroDivisionError "float division by zero")).
  { destruct (path_global_second rl clk client_id model priority tokens eff
                Hen Hcost Hrej) as (E & _).
    cbv zeta in E. unfold res_of. fold o in E. rewrite E. clear E.
    set (b := global_second_bucket rl) in *.
    assert (Hlt : ~ eff <= token_bucket.tokens (_refill (sample clk 0) b)).
    { intros H. apply Qle_bool_iff in H. rewrite consume_result in Hrej. congruence. }
    rewrite (consume_rejects _ _ _ Hlt). cbn [snd].
    unfold get_wait_time.
    set (b1 := _refill (sample clk 0) b) in *.
    destruct (Qle_bool eff (token_bucket.tokens (_refill (sample clk 1) b1))) eqn:E.
    - exfalso. apply Qle_bool_iff in E. apply Hlt.
      rewrite refill_tokens in E.
      pose proof (Q.le_min_r (inject_Z (capacity b1))
                    (token_bucket.tokens b1
                     + (sample clk 1 - last_refill b1) * refill_rate b1)) as Hm.
      change (refill_rate b1) with (refill_rate b) in *.
      assert (Hz : (sample clk 1 - last_refill b1) * refill_rate b == 0)
        by (rewrite Hrate; ring).
      lra.
    - cbn [fst]. unfold py_div.
      change (refill_rate (_refill (sample clk 1) b1)) with (refill_rate b).
      assert (Ez : Qeq_bool (refill_rate b) 0 = true) by (apply Qeq_bool_iff, Hrate).
      rewrite Ez. reflexivity. }
  destruct (check_rate_limit_counters rl clk client_id model priority tokens Hen)
    as [Ht Hr].
  fold o in Ht, Hr. rewrite Eres in Hr. destruct Hr as [Hr Hs].
  repeat split; assumption.
Qed.

End rejected_by_global_second.

(** A limiter whose global per-second bucket is empty and never refills. *)
Definition limiter_without_refill : RateLimiter :=
  set_global_second_bucket (mk_bucket 20 0 0 0) (fresh_limiter default_config).

Lemma zero_refill_rate_raises_instead_of_rejecting_witness :
  (enabled (config limiter_without_refill) = true /\
   effective_tokens (config limiter_without_refill) "normal" 1 = Ret 1 /\
   refill_rate (global_second_bucket limiter_without_refill) == 0 /\
   fst (consume 1 (sample clock0 0) (global_second_bucket limiter_without_refill))
   = false) /\
  res_of (check_rate_limit "c" None "normal" 1 limiter_without_refill clock0)
  = Raise (builtin_exn ZeroDivisionError "float division by zero").
Proof.
  assert (Hr : refill_rate (global_second_bucket limiter_without_refill) == 0)
    by reflexivity.
  split; [repeat split; try reflexivity; exact Hr|].
  apply (zero_refill_rate_raises_instead_of_rejecting limiter_without_refill clock0
           "c" None "normal" 1 1 eq_refl eq_refl Hr eq_refl).
Defined.

Section after_reset.
Context (rl : RateLimiter) (clk : Clock) (client_id : string)
  (model : option string) (priority : string) (tokens : Z) (eff : Q).
Hypothesis Hen : enabled (config rl) = true.
Hypothesis Hcost : effective_tokens (config rl) priority tokens = Ret eff.
Hypothesis Hgs : fst (consume eff (sample clk 0) (global_second_bucket rl)) = true.
Hypothesis Hgm : fst (consume eff (sample clk 1) (global_minute_bucket rl)) = true.
Hypothesis Hburst : eff <= inject_Z (client_burst_size (config rl)).
Hypothesis Hminute :
  eff <= inject_Z (py_int (client_requests_per_minute (config rl))).
Hypothesis Hrps : 0 <= client_requests_per_second (config rl).
Hypothesis Hrpm : 0 <= client_requests_per_minute (config rl).
Hypothesis H23 : sample clk 2 <= sample clk 3.
Hypothesis H45 : sample clk 4 <= sample clk 5.

Lemma new_bucket_admits cap rate t t' :
  eff <= inject_Z cap -> 0 <= rate -> t <= t' ->
  fst (consume eff t' (init cap rate t)) = true.
Proof.
  intros Hc Hr Ht. rewrite consume_result. apply Qle_bool_iff.
  rewrite refill_tokens. cbn [init capacity token_bucket.tokens last_refill refill_rate].
  apply Q.min_glb; [exact Hc|].
  assert (0 <= (t' - t) * rate) by (apply Qmult_le_0_compat; lra).
  lra.
Qed.

(** X8.  After [reset_client] the client starts over: whatever its buckets
    held, its next request is judged on new, full client buckets, and is
    admitted when the global buckets admit it and its cost is within the
    client's burst size and per-minute limit. *)
Theorem reset_client_readmits :
  let rl1 := st_of (reset_client client_id rl clk) in
  client_second_buckets rl1 !! client_id = None /\
  client_minute_buckets rl1 !! client_id = None /\
  client_stats rl1 !! client_id = None /\
  res_of (check_rate_limit client_id model priority tokens rl1 clk) = Ret (true, None).
Proof.
  intros rl1.
  assert (E2 : client_second_buckets rl1 !! client_id = None) by apply lookup_delete_eq.
  assert (E3 : client_minute_buckets rl1 !! client_id = None) by apply lookup_delete_eq.
  assert (Es : client_stats rl1 !! client_id = None) by apply lookup_delete_eq.
  repeat split; try assumption.
  destruct (path_all_admit rl1 clk client_id model priority tokens eff Hen Hcost)
    as (E & _); [exact Hgs | exact Hgm | | | exact E].
  - unfold second_bucket_at, fresh. rewrite E2.
    apply new_bucket_admits; assumption.
  - unfold minute_bucket_at, fresh. rewrite E2, E3.
    apply new_bucket_admits; try assumption.
    apply Qle_shift_div_l; [unfold Qlt; simpl; lia|].
    rewrite Qmult_0_l. exact Hrpm.
Qed.

End after_reset.

Lemma reset_client_readmits_witness :
  res_of (check_rate_limit "c" None "normal" 1 limiter_client_exhausted clock0)
  = Ret (false, Some (1 # 2)) /\
  res_of (check_rate_limit "c" None "normal" 1
            (st_of (reset_client "c" limiter_client_exhausted clock0)) clock0)
  = Ret (true, None).
Proof.
  split; [vm_compute; reflexivity|].
  apply (reset_client_readmits limiter_client_exhausted clock0 "c" None "normal" 1 1);
    try reflexivity; apply Qle_bool_iff; vm_compute; reflexivity.
Defined.

End rate_limiter.

(** * errors/error_handler.py *)

Module error_handler.

Record ErrorConfig := mk_config {
  enable_retry : bool;
  max_retries : Z;
  retry_delay : Q;
  retry_backoff : Q;
  enable_fallback : bool;
  log_errors : bool;
  enable_circuit_breaker : bool;
  failure_threshold : Z;
  recovery_timeout : Z;
  include_details : bool;
  include_traceback : bool
}.

(** The defaults of the dataclass. *)
Definition default_config : ErrorConfig :=
  mk_config true 3 1 2 true true true 5 60 false false.

(** The three values the attribute [state] takes: ["closed"], ["open"]
    and ["half-open"]. *)
Inductive BreakerState := closed | open | half_open.

Record CircuitBreaker := mk_breaker {
  cb_failure_threshold : Z;
  cb_recovery_timeout : Z;
  failure_count : Z;
  last_failure_time : option Q;
  state : BreakerState
}.

(** [CircuitBreaker.__init__]. *)
Definition new_breaker (failure_threshold recovery_timeout : Z) : CircuitBreaker :=
  mk_breaker failure_threshold recovery_timeout 0 None closed.

(** [CircuitBreaker.record_success]. *)
Definition record_success : M CircuitBreaker unit :=
  modify (fun cb =>
    mk_breaker (cb_failure_threshold cb) (cb_recovery_timeout cb)
               0 (last_failure_time cb) closed).

(** [CircuitBreaker.record_failure]. *)
Definition record_failure : M CircuitBreaker unit :=
  (t <- now ;;
   modify (fun cb =>
     let count := (failure_count cb + 1)%Z in
     mk_breaker (cb_failure_threshold cb) (cb_recovery_timeout cb)
                count (Some t)
                (if (cb_failure_threshold cb <=? count)%Z then open else state cb)))%py.

(** [CircuitBreaker.can_attempt].  The clock is read in the open state
    only; subtracting the initial [None] from a float raises. *)
Definition can_attempt : M CircuitBreaker bool :=
  (cb <- get_state ;;
   match state cb with
   | closed => ret true
   | open =>
       t <- now ;;
       match last_failure_time cb with
       | None =>
           raise (builtin_exn TypeError
                    "unsupported operand type(s) for -: 'float' and 'NoneType'")
       | Some last =>
           if Qle_bool (inject_Z (cb_recovery_timeout cb)) (t - last)
           then
             modify (fun cb =>
               mk_breaker (cb_failure_threshold cb) (cb_recovery_timeout cb)
                          (failure_count cb) (last_failure_time cb) half_open) ;;
             ret true
           else ret false
       end
   | half_open => ret true
   end)%py.

(** [k] calls of [record_failure] in a row. *)
Fixpoint failures (k : nat) : M CircuitBreaker unit :=
  match k with
  | O => ret tt
  | S k' => (record_failure ;; failures k')%py
  end.

(** The breakers a run of the service can hold: a new one, and what the
    three methods make of one. *)
Inductive reachable : CircuitBreaker -> Prop :=
| reach_new threshold timeout : reachable (new_breaker threshold timeout)
| reach_success cb clk :
    reachable cb -> reachable (st_of (record_success cb clk))
| reach_failure cb clk :
    reachable cb -> reachable (st_of (record_failure cb clk))
| reach_attempt cb clk :
    reachable cb -> reachable (st_of (can_attempt cb clk)).

(** What holds of every reachable breaker: away from the closed state the
    threshold has been reached and a failure time is on record. *)
Definition tripped (cb : CircuitBreaker) : Prop :=
  state cb <> closed ->
  (cb_failure_threshold cb <= failure_count cb)%Z /\
  exists last, last_failure_time cb = Some last.

Definition set_state (s : BreakerState) (cb : CircuitBreaker) : CircuitBreaker :=
  mk_breaker (cb_failure_threshold cb) (cb_recovery_timeout cb)
             (failure_count cb) (last_failure_time cb) s.

(** A default breaker after five failures, the last one at time 0. *)
Definition tripped_breaker : CircuitBreaker :=
  st_of (failures 5 (new_breaker 5 60) (clock_of_list [] 0)).

(** [type(e).__name__]. *)
Definition class_name (c : exn_class) : string :=
  match c with
  | ZeroDivisionError => "ZeroDivisionError"
  | TypeError => "TypeError"
  | ValueError => "ValueError"
  | IndexError => "IndexError"
  | StructError => "error"
  | UnicodeDecodeError => "UnicodeDecodeError"
  | JSONDecodeError => "JSONDecodeError"
  | AIServiceError => "AIServiceError"
  | ModelNotFoundError => "ModelNotFoundError"
  | RateLimitError => "RateLimitError"
  | AdapterError => "AdapterError"
  | ValidationError => "ValidationError"
  | Foreign name => name
  end.

(** [isinstance(e, (ValidationError, RateLimitError))]: neither class has
    a subclass in the repository. *)
Definition not_retried (e : exn) : bool :=
  match exn_class_of e with
  | ValidationError | RateLimitError => true
  | _ => false
  end.

Record ErrorStats := mk_stats {
  total_errors : Z;
  retries : Z;
  fallbacks : Z;
  circuit_breaker_trips : Z;
  error_types : gmap string Z
}.

Record ErrorHandler := mk_handler {
  config : ErrorConfig;
  circuit_breakers : gmap string CircuitBreaker;
  error_stats : ErrorStats
}.

(** [ErrorHandler.__init__]. *)
Definition new_handler (cfg : ErrorConfig) : ErrorHandler :=
  mk_handler cfg ∅ (mk_stats 0 0 0 0 ∅).

(** What a wrapped call runs in: the handler, the number of calls of the
    wrapped function [f] made so far, and the delays passed to
    [asyncio.sleep], oldest first. *)
Record World := mk_world {
  handler : ErrorHandler;
  calls : nat;
  slept : list Q
}.

Definition set_handler (h : ErrorHandler) (w : World) : World :=
  mk_world h (calls w) (slept w).

Definition set_breaker (name : string) (cb : CircuitBreaker) (w : World) : World :=
  set_handler
    (mk_handler (config (handler w))
                (<[name := cb]> (circuit_breakers (handler w)))
                (error_stats (handler w)))
    w.

Definition set_stats (st : ErrorStats) (w : World) : World :=
  set_handler
    (mk_handler (config (handler w)) (circuit_breakers (handler w)) st) w.

(** [asyncio.sleep(delay)]. *)
Definition sleep (delay : Q) : M World unit :=
  modify (fun w => mk_world (handler w) (calls w) (slept w ++ [delay])%list).

(** [ErrorHandler._record_error]. *)
Definition _record_error (e : exn) : M World unit :=
  modify (fun w =>
    let st := error_stats (handler w) in
    let error_type := class_name (exn_class_of e) in
    set_stats
      (mk_stats (total_errors st + 1) (retries st) (fallbacks st)
         (circuit_breaker_trips st)
         (<[error_type := (default 0%Z (error_types st !! error_type) + 1)%Z]>
            (error_types st)))
      w).

(** [ErrorHandler._get_circuit_breaker]: the breaker of a service is
    created on first use.  The object returned is the one stored under
    the service's name, so the name stands for the reference. *)
Definition _get_circuit_breaker (service_name : string) : M World string :=
  (w <- get_state ;;
   match circuit_breakers (handler w) !! service_name with
   | Some _ => ret service_name
   | None =>
       modify (set_breaker service_name
                 (new_breaker (failure_threshold (config (handler w)))
                              (recovery_timeout (config (handler w))))) ;;
       ret service_name
   end)%py.

(** A method call on the breaker a reference names: the method runs on
    the stored object and what it leaves is stored back.  A reference
    obtained from [_get_circuit_breaker] always finds its object; the
    default is never used. *)
Definition on_breaker {A} (breaker : string) (method : M CircuitBreaker A)
  : M World A :=
  fun w c =>
    let cb := default (new_breaker (failure_threshold (config (handler w)))
                                   (recovery_timeout (config (handler w))))
                      (circuit_breakers (handler w) !! breaker) in
    let o := method cb c in
    (res_of o, set_breaker breaker (st_of o) w, clk_of o).

(** [try: ... except Exception as e: ...]: the clause catches every
    exception of the model, all of which are instances of [Exception]. *)
Definition catch {S A} (body : M S A) (except : exn -> M S A) : M S A :=
  fun s c =>
    match body s c with
    | (Ret a, s', c') => (Ret a, s', c')
    | (Raise e, s', c') => except e s' c'
    end.

(** How one pass through the body of the [for] loop ends when it does not
    raise: with [return result], or by falling through to the next
    attempt with [last_error] set. *)
Inductive Step (V : Type) :=
| Return (result : V)
| Continue (last_error : exn).
Arguments Return {V} result.
Arguments Continue {V} last_error.

Section with_retry.
Context {V : Type}.

(** [f k] is what the [k]-th call of the wrapped function does; the
    optional [service_name] is the decorator's argument. *)
Variable f : nat -> Res V.
Variable service_name : option string.

Definition call_f : M World V :=
  fun w c => (f (calls w), mk_world (handler w) (S (calls w)) (slept w), c).

(** [service_name and self.config.enable_circuit_breaker]: the name of the
    service when the condition holds. *)
Definition guarded_service (cfg : ErrorConfig) : option string :=
  match service_name with
  | Some name =>
      if negb (String.eqb name "") && enable_circuit_breaker cfg
      then Some name else None
  | None => None
  end.

Definition circuit_open_error (name : string) : exn :=
  mk_exn AIServiceError ("Circuit breaker open for " ++ name)
         (Some "CIRCUIT_BREAKER_OPEN").

(** The [try] block of one attempt. *)
Definition try_block : M World V :=
  (w <- get_state ;;
   let cfg := config (handler w) in
   match guarded_service cfg with
   | Some name =>
       breaker <- _get_circuit_breaker name ;;
       ok <- on_breaker breaker can_attempt ;;
       if negb ok then raise (circuit_open_error name)
       else
         result <- call_f ;;
         on_breaker breaker record_success ;;
         ret result
   | None => call_f
   end)%py.

(** The [except] block of attempt number [attempt]. *)
Definition except_block (attempt : Z) (e : exn) : M World (Step V) :=
  (_record_error e ;;
   w <- get_state ;;
   let cfg := config (handler w) in
   match guarded_service cfg with
   | Some name =>
       breaker <- _get_circuit_breaker name ;;
       on_breaker breaker record_failure
   | None => ret tt
   end ;;
   if not_retried e then raise e
   else if (attempt <? max_retries cfg)%Z && enable_retry cfg then
     let delay := retry_delay cfg * Qpower (retry_backoff cfg) attempt in
     modify (fun w =>
       let st := error_stats (handler w) in
       set_stats (mk_stats (total_errors st) (retries st + 1) (fallbacks st)
                    (circuit_breaker_trips st) (error_types st)) w) ;;
     sleep delay ;;
     ret (Continue e)
   else raise e)%py.

(** The [for attempt in range(max_retries + 1)] loop with [n] attempts
    left, followed by [raise last_error]. *)
Fixpoint retry_loop (n : nat) (attempt : Z) (last_error : option exn)
  : M World V :=
  match n with
  | O =>
      match last_error with
      | Some e => raise e
      | None =>
          raise (builtin_exn TypeError "exceptions must derive from BaseException")
      end
  | S n' =>
      (s <- catch (result <- try_block ;; ret (Return result))
                  (except_block attempt) ;;
       match s with
       | Return result => ret result
       | Continue e => retry_loop n' (attempt + 1)%Z (Some e)
       end)%py
  end.

(** The wrapper [ErrorHandler.with_retry] returns. *)
Definition with_retry : M World V :=
  (w <- get_state ;;
   retry_loop (Z.to_nat (max_retries (config (handler w)) + 1)) 0 None)%py.

End with_retry.

(** A default handler whose breaker for ["svc"] is open since time 0, and
    a clock for a call that starts at time 10 and sleeps 1, 2 and 4
    seconds between its attempts. *)
Definition world_open : World :=
  mk_world
    (mk_handler default_config {["svc" := tripped_breaker]} (mk_stats 0 0 0 0 ∅))
    0 [].

Definition clock_open : Clock :=
  clock_of_list [10; 10; 11; 11; 13; 13; 17; 17] 17.

Lemma reachable_tripped cb : reachable cb -> tripped cb.
Proof.
  induction 1 as [thr tmo | cb clk _ _ | cb clk _ IH | cb clk _ IH];
    unfold tripped in *.
  - cbn. congruence.
  - cbn. congruence.
  - cbn. intros Hs. split; [|eauto].
    destruct (Z.leb_spec (cb_failure_threshold cb) (failure_count cb + 1));
      [assumption|].
    destruct (IH Hs) as [Hle _]. lia.
  - assert (IH' : state cb <> closed ->
                  (cb_failure_threshold cb <= failure_count cb)%Z /\
                  exists last, last_failure_time cb = Some last) by exact IH.
    clear IH.
    unfold can_attempt, st_of, bind, get_state, now, ret, modify, raise. cbn.
    destruct (state cb) eqn:Es; cbn; rewrite ?Es; try assumption.
    destruct (last_failure_time cb) as [last|] eqn:El; cbn; rewrite ?Es.
    + destruct (Qle_bool _ _); cbn; rewrite ?Es, ?El; try assumption.
      intros _. apply IH'. congruence.
    + intros _. destruct IH' as [_ [last Hl]]; [congruence | discriminate].
Qed.

Lemma reachable_failures k : forall cb clk,
  reachable cb -> reachable (st_of (failures k cb clk)).
Proof.
  induction k as [|k IH]; intros cb clk H; [exact H|].
  change (st_of (failures (S k) cb clk))
    with (st_of (failures k (st_of (record_failure cb clk))
                           (clk_of (record_failure cb clk)))).
  apply IH, reach_failure, H.
Qed.

Lemma failures_state k : forall cb clk,
  failure_count (st_of (failures k cb clk)) = (failure_count cb + Z.of_nat k)%Z /\
  cb_failure_threshold (st_of (failures k cb clk)) = cb_failure_threshold cb /\
  state (st_of (failures k cb clk))
  = if ((1 <=? Z.of_nat k) && (cb_failure_threshold cb <=? failure_count cb + Z.of_nat k))%Z
    then open else state cb.
Proof.
  induction k as [|k IH]; intros cb clk.
  - cbn. rewrite Z.add_0_r. auto.
  - change (st_of (failures (S k) cb clk))
      with (st_of (failures k (st_of (record_failure cb clk))
                             (clk_of (record_failure cb clk)))).
    destruct (IH (st_of (record_failure cb clk)) (clk_of (record_failure cb clk)))
      as (Hc & Ht & Hs).
    rewrite Hc, Ht, Hs. cbn [st_of record_failure bind now modify time_time fst snd
                             failure_count cb_failure_threshold state].
    split; [lia|]. split; [reflexivity|].
    replace (failure_count cb + 1 + Z.of_nat k)%Z
      with (failure_count cb + Z.of_nat (S k))%Z by lia.
    destruct (Z.leb_spec 1 (Z.of_nat k));
      destruct (Z.leb_spec (cb_failure_threshold cb) (failure_count cb + Z.of_nat (S k)));
      destruct (Z.leb_spec 1 (Z.of_nat (S k)));
      destruct (Z.leb_spec (cb_failure_threshold cb) (failure_count cb + 1));
      cbn; try reflexivity; try lia.
Qed.

(** C5 (amended).  A breaker starts closed; a recorded failure opens it
    as soon as the count reaches the threshold, so [k] failures of a new
    breaker leave it open exactly when [k] has reached the threshold;
    while open, [can_attempt] answers false as long as less than
    [recovery_timeout] seconds have passed since the last failure, and
    answers true and moves to half-open once they have; in the half-open
    state every [can_attempt] answers true and changes nothing, until an
    outcome is recorded; a recorded success closes the breaker and resets
    the count; a recorded failure in the half-open state reopens it. *)
Theorem breaker_state_machine
  (cb : CircuitBreaker) (clk : Clock) (threshold timeout : Z) (k : nat)
  (H : reachable cb) :
  (state (new_breaker threshold timeout) = closed /\
   failure_count (new_breaker threshold timeout) = 0%Z) /\
  state (st_of (record_failure cb clk))
  = (if (cb_failure_threshold cb <=? failure_count cb + 1)%Z
     then open else state cb) /\
  state (st_of (failures k (new_breaker threshold timeout) clk))
  = (if ((1 <=? Z.of_nat k) && (threshold <=? Z.of_nat k))%Z
     then open else closed) /\
  (state cb = open ->
   exists last, last_failure_time cb = Some last /\
     (readings clk (reads clk) - last < inject_Z (cb_recovery_timeout cb) ->
      can_attempt cb clk = (Ret false, cb, tick clk)) /\
     (inject_Z (cb_recovery_timeout cb) <= readings clk (reads clk) - last ->
      can_attempt cb clk = (Ret true, set_state half_open cb, tick clk))) /\
  (state cb = half_open -> can_attempt cb clk = (Ret true, cb, clk)) /\
  (state (st_of (record_success cb clk)) = closed /\
   failure_count (st_of (record_success cb clk)) = 0%Z) /\
  (state cb = half_open -> state (st_of (record_failure cb clk)) = open).
Proof.
  split; [split; reflexivity|].
  split; [reflexivity|].
  split.
  { destruct (failures_state k (new_breaker threshold timeout) clk) as (_ & _ & E).
    exact E. }
  split.
  { intros Es. destruct (reachable_tripped _ H) as [_ [last El]]; [congruence|].
    exists last. split; [exact El|].
    unfold can_attempt, bind, get_state, now, ret, modify, tick. cbn.
    rewrite Es, El. cbn. split; intros Ht.
    - destruct (Qle_bool _ _) eqn:E; [|reflexivity].
      apply Qle_bool_iff in E. lra.
    - apply Qle_bool_iff in Ht. rewrite Ht. reflexivity. }
  split.
  { intros Es. unfold can_attempt, bind, get_state, ret. cbn. rewrite Es. reflexivity. }
  split; [split; reflexivity|].
  intros Es. cbn.
  destruct (reachable_tripped _ H) as [Hle _]; [congruence|].
  destruct (Z.leb_spec (cb_failure_threshold cb) (failure_count cb + 1));
    [reflexivity | lia].
Qed.

Lemma breaker_state_machine_witness :
  reachable tripped_breaker /\
  can_attempt tripped_breaker (clock_of_list [30] 30)
  = (Ret false, tripped_breaker, tick (clock_of_list [30] 30)).
Proof.
  assert (R : reachable tripped_breaker)
    by apply reachable_failures, reach_new.
  split; [exact R|].
  destruct (breaker_state_machine _ (clock_of_list [30] 30) 5 60 5 R)
    as (_ & _ & _ & Hopen & _).
  destruct (Hopen eq_refl) as (last & El & Hfalse & _).
  apply Hfalse. injection El as <-. vm_compute. reflexivity.
Defined.

(** Once the timeout has passed, two calls of [can_attempt] in a row are
    both answered true: the half-open state does not stop at one. *)
Lemma half_open_admits_second_attempt :
  let clk := clock_of_list [60] 60 in
  let first := can_attempt tripped_breaker clk in
  let second := can_attempt (st_of first) (clk_of first) in
  state tripped_breaker = open /\
  res_of first = Ret true /\
  state (st_of first) = half_open /\
  res_of second = Ret true /\
  state (st_of second) = half_open.
Proof. vm_compute. repeat split; reflexivity. Qed.

Ltac run_retry :=
  cbv [try_block except_block catch bind get_state modify ret raise lift_res
       _record_error _get_circuit_breaker on_breaker call_f sleep
       res_of st_of clk_of];
  cbn [handler calls slept config circuit_breakers error_stats
       set_handler set_breaker set_stats retries total_errors fst snd].

Section retry_facts.
Context {V : Type} (f : nat -> Res V) (service_name : option string).

Lemma try_block_frame w clk :
  let o := try_block f service_name w clk in
  slept (st_of o) = slept w /\
  error_stats (handler (st_of o)) = error_stats (handler w) /\
  config (handler (st_of o)) = config (handler w) /\
  (calls (st_of o) <= S (calls w))%nat.
Proof.
  unfold try_block. cbv [bind get_state].
  destruct (guarded_service service_name (config (handler w))) as [name|].
  2:{ cbn. auto. }
  run_retry.
  destruct (circuit_breakers (handler w) !! name) as [cb|] eqn:L;
    cbn [handler circuit_breakers set_breaker set_handler config];
    rewrite ?L, ?lookup_insert_eq; cbn [default from_option id];
    destruct (can_attempt _ clk) as [[[[|]|e] cb'] clk']; cbn; auto;
    destruct (f (calls w)); cbn; auto.
Qed.

Lemma except_block_not_retried attempt e w clk :
  not_retried e = true ->
  let o := except_block (V:=V) service_name attempt e w clk in
  res_of o = Raise e /\
  slept (st_of o) = slept w /\
  retries (error_stats (handler (st_of o))) = retries (error_stats (handler w)) /\
  calls (st_of o) = calls w.
Proof.
  intros He. unfold except_block. cbv [bind _record_error modify get_state]. 
  cbn [config handler set_stats set_handler].
  destruct (guarded_service service_name (config (handler w))) as [name|].
  - run_retry. 
    destruct (circuit_breakers (handler w) !! name) as [cb|] eqn:L; cbn.
    + rewrite L. cbn. rewrite He. cbn. auto.
    + rewrite lookup_insert_eq. cbn. rewrite He. cbn; auto.
  - run_retry. rewrite He. cbn. auto.
Qed.

(** A [ValidationError] or [RateLimitError] raised in the first attempt
    leaves the wrapper at once: no sleep, no retry counted, the wrapped
    function called at most once. *)
Lemma not_retried_errors_propagate w clk e :
  (0 <= max_retries (config (handler w)))%Z ->
  res_of (try_block f service_name w clk) = Raise e ->
  not_retried e = true ->
  let o := with_retry f service_name w clk in
  res_of o = Raise e /\
  slept (st_of o) = slept w /\
  retries (error_stats (handler (st_of o))) = retries (error_stats (handler w)) /\
  (calls (st_of o) <= S (calls w))%nat.
Proof.
  intros Hm Htry He.
  pose proof (try_block_frame w clk) as (Hs & Hst & _ & Hc).
  unfold with_retry. cbv [bind get_state].
  replace (Z.to_nat (max_retries (config (handler w)) + 1))
    with (S (Z.to_nat (max_retries (config (handler w))))) by lia.
  cbn [retry_loop]. cbv [bind catch].
  destruct (try_block f service_name w clk) as [[r s'] c'].
  cbv [res_of st_of] in Htry, Hs, Hst, Hc. cbn [fst snd] in Htry, Hs, Hst, Hc.
  subst r.
  pose proof (except_block_not_retried 0 e s' c' He) as (Er & Es & Ert & Ec).
  destruct (except_block service_name 0 e s' c') as [[r s''] c''].
  cbv [res_of st_of] in *. cbn [fst snd] in *. subst r.
  cbn [fst snd]. rewrite Es, Ert, Ec, Hs, Hst. auto.
Qed.
End retry_facts.

(** C1 (the code on an open breaker).  The default handler, asked to call
    a service whose breaker is open and stays open, does not fail at
    once: the "circuit breaker open" error raised in the [try] block is
    caught by the wrapper's own [except] clause, so the wrapper sleeps 1,
    2 and 4 seconds, counts three retries, and only then raises the
    error; the wrapped function is never called. *)
Theorem open_breaker_is_retried_with_backoff :
  let o := with_retry (fun _ => Ret tt) (Some "svc") world_open clock_open in
  (state <$> circuit_breakers (handler world_open) !! "svc") = Some open /\
  res_of o = Raise (circuit_open_error "svc") /\
  slept (st_of o) = [1; 2; 4] /\
  retries (error_stats (handler (st_of o))) = 3%Z /\
  total_errors (error_stats (handler (st_of o))) = 4%Z /\
  calls (st_of o) = 0%nat /\
  (failure_count <$> circuit_breakers (handler (st_of o)) !! "svc") = Some 9%Z.
Proof.
  cbv zeta. split; [reflexivity|].
  split; [vm_compute; reflexivity|].
  split; [vm_compute; reflexivity|].
  repeat split; vm_compute; reflexivity.
Qed.

(** ** Further properties of the retry wrapper *)

(** The delays of [k] retries in a row, the first one after attempt
    number [a]. *)
Definition delays (cfg : ErrorConfig) (a : Z) (k : nat) : list Q :=
  map (fun i => retry_delay cfg * Qpower (retry_backoff cfg) (a + Z.of_nat i))
      (seq 0 k).

Lemma delays_succ cfg a k :
  delays cfg a (S k)
  = (retry_delay cfg * Qpower (retry_backoff cfg) a) :: delays cfg (a + 1) k.
Proof.
  unfold delays. cbn [seq map]. rewrite Z.add_0_r. f_equal.
  rewrite <- seq_shift, map_map. apply map_ext. intros i.
  do 2 f_equal. lia.
Qed.

(** What the [error_types] counts add up to. *)
Definition counted_errors (st : ErrorStats) : Z :=
  map_fold (fun _ n acc => (n + acc)%Z) 0%Z (error_types st).

Lemma sum_insert (m : gmap string Z) k v :
  map_fold (fun _ n acc => (n + acc)%Z) 0%Z (<[k := v]> m)
  = (map_fold (fun _ n acc => (n + acc)%Z) 0%Z m - default 0%Z (m !! k) + v)%Z.
Proof.
  destruct (m !! k) as [old|] eqn:L; cbn [default from_option id].
  - rewrite <- insert_delete_eq.
    rewrite map_fold_insert_L; [| intros; lia | apply lookup_delete_eq].
    rewrite (map_fold_delete_L _ _ k old m); [lia | intros; lia | exact L].
  - rewrite map_fold_insert_L; [lia | intros; lia | exact L].
Qed.

Section stats.
Context {V : Type} (f : nat -> Res V) (service_name : option string).

(** One pass through the body of the loop. *)
Lemma retry_loop_step n attempt last w clk :
  retry_loop f service_name (S n) attempt last w clk
  = match try_block f service_name w clk with
    | (Ret v, w1, c1) => (Ret v, w1, c1)
    | (Raise e, w1, c1) =>
        match except_block service_name attempt e w1 c1 with
        | (Ret (Return r), w2, c2) => (Ret r, w2, c2)
        | (Ret (Continue e'), w2, c2) =>
            retry_loop f service_name n (attempt + 1)%Z (Some e') w2 c2
        | (Raise e', w2, c2) => (Raise e', w2, c2)
        end
    end.
Proof.
  cbn [retry_loop]. unfold bind at 1, catch, bind at 1.
  destruct (try_block f service_name w clk) as [[[v|e] w1] c1]; [reflexivity|].
  destruct (except_block service_name attempt e w1 c1) as [[[[r|e']|e'] w2] c2];
    reflexivity.
Qed.

(** What the [except] block does to the statistics. *)
Lemma except_block_stats attempt e w clk :
  let st := error_stats (handler w) in
  let st' := error_stats (handler (st_of (except_block (V:=V) service_name attempt e w clk))) in
  total_errors st' = (total_errors st + 1)%Z /\
  counted_errors st' = (counted_errors st + 1)%Z /\
  fallbacks st' = fallbacks st /\
  circuit_breaker_trips st' = circuit_breaker_trips st /\
  (retries st <= retries st')%Z.
Proof.
  unfold except_block. cbv [bind _record_error modify get_state].
  cbn [config handler set_stats set_handler].
  assert (Hsum : forall types,
            map_fold (fun _ n acc => (n + acc)%Z) 0%Z
              (<[class_name (exn_class_of e)
                 := (default 0 (types !! class_name (exn_class_of e)) + 1)%Z]> types)
            = (map_fold (fun _ n acc => (n + acc)%Z) 0%Z types + 1)%Z)
    by (intros; rewrite sum_insert; lia).
  destruct (guarded_service service_name (config (handler w))) as [name|].
  - run_retry.
    destruct (circuit_breakers (handler w) !! name) as [cb|] eqn:L; cbn;
      rewrite ?L, ?lookup_insert_eq; cbn;
      destruct (not_retried e); cbn;
      try destruct (_ && _); cbn; unfold counted_errors; cbn;
      rewrite Hsum; repeat split; lia.
  - run_retry. destruct (not_retried e); cbn;
      try destruct (_ && _); cbn; unfold counted_errors; cbn;
      rewrite Hsum; repeat split; lia.
Qed.

Lemma retry_loop_stats n : forall attempt last w clk,
  let st := error_stats (handler w) in
  let st' := error_stats (handler (st_of (retry_loop f service_name n attempt last w clk))) in
  (total_errors st' - counted_errors st' = total_errors st - counted_errors st)%Z /\
  fallbacks st' = fallbacks st /\
  circuit_breaker_trips st' = circuit_breaker_trips st /\
  (total_errors st <= total_errors st')%Z /\
  (retries st <= retries st')%Z.
Proof.
  induction n as [|n IH]; intros attempt last w clk.
  - cbn [retry_loop]. destruct last; cbn; repeat split; lia.
  - cbv zeta. rewrite retry_loop_step.
    pose proof (try_block_frame f service_name w clk) as (_ & Hst & _ & _).
    destruct (try_block f service_name w clk) as [[[v|e] w1] c1];
      cbv [st_of] in Hst; cbn [fst snd] in Hst.
    + unfold st_of. cbn [fst snd]. rewrite Hst. repeat split; lia.
    + pose proof (except_block_stats attempt e w1 c1) as (Ht & Hc & Hf & Hcb & Hr).
      cbv zeta in Ht, Hc, Hf, Hcb, Hr. rewrite Hst in Ht, Hc, Hf, Hcb, Hr.
      destruct (except_block service_name attempt e w1 c1) as [[[[r|e']|e'] w2] c2];
        cbv [st_of] in Ht, Hc, Hf, Hcb, Hr; cbn [fst snd] in Ht, Hc, Hf, Hcb, Hr.
      * unfold st_of. cbn [fst snd]. repeat split; lia.
      * specialize (IH (attempt + 1)%Z (Some e') w2 c2). cbv zeta in IH.
        destruct IH as (I1 & I2 & I3 & I4 & I5). repeat split; lia.
      * unfold st_of. cbn [fst snd]. repeat split; lia.
Qed.

(** X9.  Through a wrapped call, whatever the wrapped function and the breaker
    do, every error counted in [total_errors] is counted under exactly one
    class in [error_types], so the two stay in step; the counters
    [fallbacks] and [circuit_breaker_trips] are never touched, not even
    when the call opens a breaker. *)
Theorem error_counts_stay_in_step (w : World) (clk : Clock) :
  let st := error_stats (handler w) in
  let st' := error_stats (handler (st_of (with_retry f service_name w clk))) in
  (total_errors st = counted_errors st -> total_errors st' = counted_errors st') /\
  fallbacks st' = fallbacks st /\
  circuit_breaker_trips st' = circuit_breaker_trips st /\
  (total_errors st <= total_errors st')%Z.
Proof.
  unfold with_retry. cbv [bind get_state].
  pose proof (retry_loop_stats
                (Z.to_nat (max_retries (config (handler w)) + 1)) 0 None w clk)
    as (H1 & H2 & H3 & H4 & _).
  cbv zeta in *. repeat split; try assumption. lia.
Qed.

End stats.


Section schedule.
Context {V : Type} (f : nat -> Res V) (service_name : option string).

(** Without a breaker in the way the [try] block is the call itself. *)
Lemma try_block_unguarded w clk :
  guarded_service service_name (config (handler w)) = None ->
  try_block f service_name w clk
  = (f (calls w), mk_world (handler w) (S (calls w)) (slept w), clk).
Proof.
  intros Hg. unfold try_block. cbv [bind get_state]. rewrite Hg. reflexivity.
Qed.

(** The world after the [except] block has recorded [e], and after it has
    counted and slept a retry. *)
Definition recorded (e : exn) (w : World) : World :=
  st_of (_record_error e w (clock_of_list [] 0)).

Definition retried (delay : Q) (w : World) : World :=
  let st := error_stats (handler w) in
  mk_world
    (mk_handler (config (handler w)) (circuit_breakers (handler w))
       (mk_stats (total_errors st) (retries st + 1) (fallbacks st)
          (circuit_breaker_trips st) (error_types st)))
    (calls w) (slept w ++ [delay])%list.

Lemma except_block_unguarded attempt e w clk :
  guarded_service service_name (config (handler w)) = None ->
  except_block (V:=V) service_name attempt e w clk
  = if not_retried e then (Raise e, recorded e w, clk)
    else if (attempt <? max_retries (config (handler w)))%Z
            && enable_retry (config (handler w))
    then (Ret (Continue e),
          retried (retry_delay (config (handler w))
                   * Qpower (retry_backoff (config (handler w))) attempt)
                  (recorded e w),
          clk)
    else (Raise e, recorded e w, clk).
Proof.
  intros Hg. unfold except_block. cbv [bind _record_error modify get_state].
  cbn [config handler set_stats set_handler]. rewrite Hg.
  unfold recorded, retried. run_retry.
  destruct (not_retried e); [reflexivity|].
  destruct (_ && _); reflexivity.
Qed.

Section run.
Context (cfg : ErrorConfig) (clk : Clock).
Hypothesis Hguard : guarded_service service_name cfg = None.

(** [k] failed attempts in a row, each with an error that is retried. *)
Lemma failed_attempts k : forall w attempt last n,
  config (handler w) = cfg ->
  ((0 < k)%nat -> enable_retry cfg = true) ->
  (attempt + Z.of_nat k <= max_retries cfg)%Z ->
  (forall i, (i < k)%nat ->
     exists e, f (calls w + i) = Raise e /\ not_retried e = false) ->
  exists w' last',
    retry_loop f service_name (k + n) attempt last w clk
    = retry_loop f service_name n (attempt + Z.of_nat k)%Z last' w' clk /\
    config (handler w') = cfg /\
    circuit_breakers (handler w') = circuit_breakers (handler w) /\
    calls w' = (calls w + k)%nat /\
    slept w' = (slept w ++ delays cfg attempt k)%list /\
    retries (error_stats (handler w'))
    = (retries (error_stats (handler w)) + Z.of_nat k)%Z /\
    total_errors (error_stats (handler w'))
    = (total_errors (error_stats (handler w)) + Z.of_nat k)%Z.
Proof.
  induction k as [|k IH]; intros w attempt last n Hcfg Hen Hmax Hfail.
  - exists w, last. cbn [Nat.add]. rewrite Z.add_0_r, Nat.add_0_r.
    unfold delays. cbn. rewrite app_nil_r. repeat split; (assumption || lia).
  - destruct (Hfail 0%nat ltac:(lia)) as (e & He & Hnr).
    rewrite Nat.add_0_r in He.
    cbn [Nat.add]. rewrite retry_loop_step.
    rewrite try_block_unguarded by (rewrite Hcfg; exact Hguard).
    rewrite He.
    rewrite except_block_unguarded by (cbn [handler]; rewrite Hcfg; exact Hguard).
    rewrite Hnr. cbn [handler config]. rewrite Hcfg.
    replace (attempt <? max_retries cfg)%Z with true
      by (symmetry; apply Z.ltb_lt; lia).
    rewrite Hen by lia. cbn [andb].
    set (w1 := retried _ _).
    destruct (IH w1 (attempt + 1)%Z (Some e) n) as (w' & last' & E & H1 & H2 & H3 & H4 & H5 & H6).
    + subst w1. cbn. exact Hcfg.
    + intros _. apply Hen. lia.
    + lia.
    + intros i Hi. destruct (Hfail (S i) ltac:(lia)) as (e' & He' & Hnr').
      exists e'. split; [|exact Hnr'].
      subst w1. cbn [retried recorded calls st_of _record_error modify fst snd
                     set_stats set_handler]. 
      rewrite <- He'. f_equal. lia.
    + exists w', last'. rewrite E.
      replace (attempt + 1 + Z.of_nat k)%Z with (attempt + Z.of_nat (S k))%Z by lia.
      split; [reflexivity|]. split; [exact H1|].
      subst w1. revert H2 H3 H4 H5 H6.
      cbn [retried recorded calls slept handler circuit_breakers error_stats retries
           total_errors st_of _record_error modify fst snd set_stats set_handler].
      intros H2 H3 H4 H5 H6. rewrite H2, H3, H4, H5, H6, delays_succ, <- app_assoc.
      repeat split; try reflexivity; lia.
Qed.

(** How a wrapped call that started in world [w] has ended: after [k + 1]
    calls of the wrapped function and [k] retries with their sleeps, with
    [errors] errors counted and the clock not read. *)
Definition ends_after (w : World) (k : nat) (errors : Z)
  (o : Res V * World * Clock) : Prop :=
  clk_of o = clk /\
  calls (st_of o) = (calls w + k + 1)%nat /\
  slept (st_of o) = (slept w ++ delays cfg 0 k)%list /\
  retries (error_stats (handler (st_of o)))
  = (retries (error_stats (handler w)) + Z.of_nat k)%Z /\
  total_errors (error_stats (handler (st_of o)))
  = (total_errors (error_stats (handler w)) + errors)%Z.

(** X10.  The wrapper without a breaker in the way, on a function whose first
    [k] calls raise errors that are retried: when call [k] returns, the
    wrapper returns its result, and when call [k] raises an error that is
    never retried, or the retries are used up, or retrying is switched
    off, the wrapper raises that error; either way the function has been
    called [k + 1] times and the wrapper has slept [k] times,
    [retry_delay * retry_backoff ** i] after failure number [i]. *)
Theorem retries_follow_the_backoff_schedule (w : World) (k : nat)
  (Hcfg : config (handler w) = cfg)
  (Hen : (0 < k)%nat -> enable_retry cfg = true)
  (Hmax : (Z.of_nat k <= max_retries cfg)%Z)
  (Hfail : forall i, (i < k)%nat ->
     exists e, f (calls w + i) = Raise e /\ not_retried e = false) :
  let o := with_retry f service_name w clk in
  (forall v, f (calls w + k) = Ret v ->
     res_of o = Ret v /\ ends_after w k (Z.of_nat k) o) /\
  (forall e, f (calls w + k) = Raise e ->
     not_retried e = true \/ Z.of_nat k = max_retries cfg \/ enable_retry cfg = false ->
     res_of o = Raise e /\ ends_after w k (Z.of_nat k + 1) o).
Proof.
  intros o. subst o. unfold with_retry. cbv [bind get_state].
  rewrite Hcfg.
  replace (Z.to_nat (max_retries cfg + 1))
    with (k + S (Z.to_nat (max_retries cfg) - k))%nat by lia.
  destruct (failed_attempts k w 0 None (S (Z.to_nat (max_retries cfg) - k))
              Hcfg Hen ltac:(lia) Hfail)
    as (w' & last' & E & H1 & H2 & H3 & H4 & H5 & H6).
  rewrite E, retry_loop_step. clear E.
  rewrite try_block_unguarded by (rewrite H1; exact Hguard).
  rewrite H3. split.
  - intros v Ef. rewrite Ef. split; [reflexivity|].
    unfold ends_after, clk_of, st_of. cbn [fst snd calls slept handler].
    rewrite H4, H5, H6. repeat split; lia.
  - intros e Ef Hstop. rewrite Ef.
    rewrite except_block_unguarded by (cbn [handler]; rewrite H1; exact Hguard).
    cbn [handler config]. rewrite H1.
    assert (Hend : ends_after w k (Z.of_nat k + 1)
                     (Raise e,
                      recorded e (mk_world (handler w') (S (calls w + k)) (slept w')),
                      clk)).
    { unfold ends_after, clk_of, st_of.
      cbn [recorded calls slept handler error_stats retries total_errors st_of
           _record_error modify fst snd set_stats set_handler].
      rewrite H4, H5, H6. repeat split; lia. }
    destruct (not_retried e) eqn:Hnr; [split; [reflexivity | exact Hend]|].
    destruct ((0 + Z.of_nat k <? max_retries cfg)%Z && enable_retry cfg) eqn:Hretry;
      [|split; [reflexivity | exact Hend]].
    apply andb_true_iff in Hretry as [Hlt Hen'].
    apply Z.ltb_lt in Hlt.
    destruct Hstop as [Hs | [Hs | Hs]]; [discriminate | lia | congruence].
Qed.

End run.
End schedule.

(** A function that times out twice and then answers. *)
Definition flaky (i : nat) : Res string :=
  if (i <? 2)%nat then Raise (builtin_exn (Foreign "TimeoutError") "timed out")
  else Ret "pong".

Lemma retries_follow_the_backoff_schedule_witness :
  guarded_service None default_config = None /\
  res_of (with_retry flaky None (mk_world (new_handler default_config) 0 [])
            (clock_of_list [] 0))
  = Ret "pong" /\
  slept (st_of (with_retry flaky None (mk_world (new_handler default_config) 0 [])
                  (clock_of_list [] 0)))
  = delays default_config 0 2.
Proof.
  split; [reflexivity|].
  destruct (retries_follow_the_backoff_schedule flaky None default_config
              (clock_of_list [] 0) eq_refl
              (mk_world (new_handler default_config) 0 []) 2 eq_refl
              (fun _ => eq_refl) ltac:(cbn; lia)) as [Hok _].
  - intros i Hi. exists (builtin_exn (Foreign "TimeoutError") "timed out").
    destruct i as [|[|i]]; [split; reflexivity .. | lia].
  - destruct (Hok "pong" eq_refl) as (Hres & _ & _ & Hslept & _).
    split; [exact Hres | exact Hslept].
Defined.

(** X11.  With a negative [max_retries] the loop has no pass at all: the wrapped
    function is never called, nothing is recorded, and the wrapper's final
    [raise last_error] raises a [TypeError], [last_error] being [None]. *)
Theorem negative_max_retries_raises_type_error
  {V : Type} (f : nat -> Res V) (service_name : option string)
  (w : World) (clk : Clock)
  (Hneg : (max_retries (config (handler w)) < 0)%Z) :
  with_retry f service_name w clk
  = (Raise (builtin_exn TypeError "exceptions must derive from BaseException"),
     w, clk).
Proof.
  unfold with_retry. cbv [bind get_state].
  replace (Z.to_nat (max_retries (config (handler w)) + 1)) with 0%nat by lia.
  reflexivity.
Qed.

Lemma negative_max_retries_raises_type_error_witness :
  let w := mk_world (new_handler (mk_config true (-1) 1 2 true true true 5 60 false false))
                    0 [] in
  (max_retries (config (handler w)) < 0)%Z /\
  calls (st_of (with_retry (fun _ => Ret tt) (Some "svc") w (clock_of_list [] 0)))
  = 0%nat.
Proof.
  cbv zeta.
  assert (H : (max_retries
                 (config (handler
                    (mk_world (new_handler
                       (mk_config true (-1) 1 2 true true true 5 60 false false))
                       0 []))) < 0)%Z) by (cbn; lia).
  split; [exact H|].
  rewrite (negative_max_retries_raises_type_error (fun _ => Ret tt) (Some "svc") _
             (clock_of_list [] 0) H).
  reflexivity.
Defined.

End error_handler.

(** * cache/cache_manager.py *)

Module cache_manager.

Record CacheConfig := mk_config {
  enabled : bool;
  max_size : Z;
  ttl_seconds : Z;
  storage_type : string;
  storage_path : string
}.

(** The defaults of the dataclass, with the given capacity. *)
Definition memory_config (max_size : Z) : CacheConfig :=
  mk_config true max_size 3600 "memory" "cache".

Definition file_config (max_size : Z) : CacheConfig :=
  mk_config true max_size 3600 "file" "cache".

Section cache.

(** The cached values, and what [json.loads(json.dumps(v))] makes of one:
    [None] when [v] cannot be serialised. *)
Variable Value : Type.
Variable reload : Value -> option Value.

Record CacheEntry := mk_entry {
  key : string;
  value : Value;
  created_at : Q;
  accessed_at : Q;
  access_count : Z;
  ttl : Z
}.

(** [CacheEntry.is_expired], at the reading [now] of the clock. *)
Definition is_expired (now : Q) (e : CacheEntry) : bool :=
  negb (Qle_bool (now - created_at e) (inject_Z (ttl e))).

(** [CacheEntry.touch]. *)
Definition touch (now : Q) (e : CacheEntry) : CacheEntry :=
  mk_entry (key e) (value e) (created_at e) now (access_count e + 1)%Z (ttl e).

(** What the file [<storage_path>/<key>.json] holds: an entry that loads,
    or something [_load_from_file] fails on. *)
Inductive FileContent :=
| Loadable (e : CacheEntry)
| Unreadable.

(** The manager and the directory it keeps its files in.  [cache] is the
    [OrderedDict], least recently used entry first. *)
Record CacheManager := mk_manager {
  config : CacheConfig;
  cache : list (string * CacheEntry);
  hits : Z;
  misses : Z;
  evictions : Z;
  files : gmap string FileContent
}.

(** [CacheManager.__init__], on a directory holding [files]. *)
Definition new_manager (cfg : CacheConfig) (files : gmap string FileContent)
  : CacheManager :=
  mk_manager cfg [] 0 0 0 files.

Definition set_cache (l : list (string * CacheEntry)) (cm : CacheManager) :=
  mk_manager (config cm) l (hits cm) (misses cm) (evictions cm) (files cm).

Definition set_files (fs : gmap string FileContent) (cm : CacheManager) :=
  mk_manager (config cm) (cache cm) (hits cm) (misses cm) (evictions cm) fs.

Definition add_hit (cm : CacheManager) :=
  mk_manager (config cm) (cache cm) (hits cm + 1) (misses cm) (evictions cm) (files cm).

Definition add_miss (cm : CacheManager) :=
  mk_manager (config cm) (cache cm) (hits cm) (misses cm + 1) (evictions cm) (files cm).

Definition add_eviction (cm : CacheManager) :=
  mk_manager (config cm) (cache cm) (hits cm) (misses cm) (evictions cm + 1) (files cm).

(** *** The [OrderedDict] *)

(** [d.get(k)]. *)
Fixpoint od_get (k : string) (d : list (string * CacheEntry)) : option CacheEntry :=
  match d with
  | [] => None
  | (k', e) :: d' => if String.eqb k k' then Some e else od_get k d'
  end.

(** [del d[k]]. *)
Fixpoint od_del (k : string) (d : list (string * CacheEntry)) :=
  match d with
  | [] => []
  | (k', e) :: d' => if String.eqb k k' then d' else (k', e) :: od_del k d'
  end.

(** [d[k] = e]: a key already there keeps its place, a new key goes to
    the end. *)
Fixpoint od_set (k : string) (e : CacheEntry) (d : list (string * CacheEntry)) :=
  match d with
  | [] => [(k, e)]
  | (k', e') :: d' =>
      if String.eqb k k' then (k, e) :: d' else (k', e') :: od_set k e d'
  end.

(** [d.move_to_end(k)], for a key that is there. *)
Definition od_move_to_end (k : string) (d : list (string * CacheEntry)) :=
  match od_get k d with
  | Some e => (od_del k d ++ [(k, e)])%list
  | None => d
  end.

(** *** File storage *)

Definition is_file (cfg : CacheConfig) : bool := String.eqb (storage_type cfg) "file".

(** What [_save_to_file] leaves in the file of an entry: the file is
    opened for writing, which empties it, before the entry is serialised,
    so an entry that cannot be serialised leaves a file that does not
    load. *)
Definition file_content (e : CacheEntry) : FileContent :=
  match reload (value e) with
  | Some v => Loadable (mk_entry (key e) v (created_at e) (accessed_at e)
                                 (access_count e) (ttl e))
  | None => Unreadable
  end.

(** [CacheManager._save_to_file]; a failure is logged and swallowed.
    The file is taken to be one the manager can open: the storage
    directory exists and is writable, and the key names a file in it
    (no slash, no NUL, not too long).  For other keys [open] fails and
    nothing is written; the statements that rest on a file being written
    say which keys they are about. *)
Definition _save_to_file (k : string) (e : CacheEntry) : M CacheManager unit :=
  modify (fun cm => set_files (<[k := file_content e]> (files cm)) cm).

(** [CacheManager._load_from_file]. *)
Definition _load_from_file (k : string) : M CacheManager (option CacheEntry) :=
  (cm <- get_state ;;
   match files cm !! k with
   | None => ret None
   | Some Unreadable => ret None
   | Some (Loadable entry) =>
       t <- now ;;
       ret (if is_expired t entry then None else Some entry)
   end)%py.

(** [os.path.exists] followed by [os.remove]. *)
Definition remove_file (k : string) : M CacheManager unit :=
  modify (fun cm => set_files (delete k (files cm)) cm).

(** [CacheManager.delete]. *)
Definition delete (k : string) : M CacheManager unit :=
  (modify (fun cm => set_cache (od_del k (cache cm)) cm) ;;
   cm <- get_state ;;
   if is_file (config cm) then remove_file k else ret tt)%py.

(** [CacheManager._evict_lru]. *)
Definition _evict_lru : M CacheManager unit :=
  (cm <- get_state ;;
   match cache cm with
   | [] => ret tt
   | (k, entry) :: rest =>
       modify (set_cache rest) ;;
       modify add_eviction ;;
       if is_file (config cm) then remove_file k else ret tt
   end)%py.

(** [ttl or self.config.ttl_seconds]. *)
Definition ttl_or_default (ttl : option Z) (cfg : CacheConfig) : Z :=
  match ttl with
  | Some t => if (t =? 0)%Z then ttl_seconds cfg else t
  | None => ttl_seconds cfg
  end.

(** [CacheManager.set]. *)
Definition set (k : string) (v : Value) (ttl : option Z) : M CacheManager unit :=
  (cm <- get_state ;;
   if negb (enabled (config cm)) then ret tt else
   (if (max_size (config cm) <=? Z.of_nat (length (cache cm)))%Z
    then _evict_lru else ret tt) ;;
   t1 <- now ;;
   t2 <- now ;;
   let entry := mk_entry k v t1 t2 0 (ttl_or_default ttl (config cm)) in
   modify (fun cm => set_cache (od_set k entry (cache cm)) cm) ;;
   if is_file (config cm) then _save_to_file k entry else ret tt)%py.

(** The second half of [CacheManager.get], once an entry is at hand. *)
Definition get_found (k : string) (entry : CacheEntry)
  : M CacheManager (option Value) :=
  (t <- now ;;
   if is_expired t entry then
     delete k ;;
     modify add_miss ;;
     ret None
   else
     t' <- now ;;
     modify (fun cm => set_cache (od_set k (touch t' entry) (cache cm)) cm) ;;
     modify add_hit ;;
     modify (fun cm => set_cache (od_move_to_end k (cache cm)) cm) ;;
     ret (Some (value entry)))%py.

(** [CacheManager.get]; [None] is a miss. *)
Definition get (k : string) : M CacheManager (option Value) :=
  (cm <- get_state ;;
   if negb (enabled (config cm)) then ret None else
   match od_get k (cache cm) with
   | None =>
       modify add_miss ;;
       if is_file (config cm) then
         loaded <- _load_from_file k ;;
         match loaded with
         | Some entry =>
             modify (fun cm => set_cache (od_set k entry (cache cm)) cm) ;;
             get_found k entry
         | None => ret None
         end
       else ret None
   | Some entry => get_found k entry
   end)%py.

(** *** Vocabulary of the statements *)

(** The manager after [self.cache[k] = e] and, with file storage, the
    write of the entry's file. *)
Definition put_entry (k : string) (e : CacheEntry) (cm : CacheManager) :=
  let cm' := set_cache (od_set k e (cache cm)) cm in
  if is_file (config cm) then set_files (<[k := file_content e]> (files cm)) cm'
  else cm'.

(** The manager after the eviction of its least recently used entry. *)
Definition evicted (cm : CacheManager) : CacheManager :=
  match cache cm with
  | [] => cm
  | (k0, _) :: rest =>
      let cm' := add_eviction (set_cache rest cm) in
      if is_file (config cm) then set_files (base.delete k0 (files cm)) cm'
      else cm'
  end.

(** The scenario of the specification: three [set]s, then three [get]s. *)
Definition lru_scenario (A B C : string) (va vb vc : Value)
  : M CacheManager (option Value * option Value * option Value) :=
  (set A va None ;;
   set B vb None ;;
   set C vc None ;;
   a <- get A ;;
   b <- get B ;;
   c <- get C ;;
   ret (a, b, c))%py.

End cache.

Arguments mk_entry {Value}.
Arguments key {Value}.
Arguments value {Value}.
Arguments created_at {Value}.
Arguments accessed_at {Value}.
Arguments access_count {Value}.
Arguments ttl {Value}.
Arguments Loadable {Value}.
Arguments Unreadable {Value}.
Arguments mk_manager {Value}.
Arguments config {Value}.
Arguments cache {Value}.
Arguments hits {Value}.
Arguments misses {Value}.
Arguments evictions {Value}.
Arguments files {Value}.
Arguments new_manager {Value}.
Arguments set_cache {Value}.
Arguments set_files {Value}.
Arguments add_hit {Value}.
Arguments add_miss {Value}.
Arguments add_eviction {Value}.
Arguments is_expired {Value}.
Arguments touch {Value}.
Arguments od_get {Value}.
Arguments od_set {Value}.
Arguments od_del {Value}.
Arguments od_move_to_end {Value}.
Arguments file_content {Value}.
Arguments _save_to_file {Value}.
Arguments _load_from_file {Value}.
Arguments remove_file {Value}.
Arguments delete {Value}.
Arguments _evict_lru {Value}.
Arguments set {Value}.
Arguments get_found {Value}.
Arguments get {Value}.
Arguments put_entry {Value}.
Arguments evicted {Value}.
Arguments lru_scenario {Value}.

Ltac run_cache :=
  cbv [set get get_found delete _evict_lru _save_to_file _load_from_file remove_file
       bind get_state modify ret now time_time res_of st_of clk_of].

Ltac simp_cache :=
  cbn -[String.eqb is_expired Qle_bool Z.leb Z.of_nat lookup insert base.delete
        ttl_or_default is_file file_content od_set od_get od_del od_move_to_end
        Nat.add].

Ltac eval_leb :=
  repeat match goal with
  | |- context [(?a <=? Z.of_nat ?n)%Z] =>
      let b := eval vm_compute in (a <=? Z.of_nat n)%Z in
      change (a <=? Z.of_nat n)%Z with b
  end.

Ltac norm_state F :=
  repeat (progress (
    cbv [put_entry evicted new_manager set_cache set_files add_eviction add_hit
         add_miss ticks touch od_move_to_end];
    cbn [config cache hits misses evictions files readings reads Nat.add
         od_set od_get od_del od_move_to_end length app
         key value created_at accessed_at access_count ttl];
    rewrite ?F, ?String.eqb_refl;
    repeat match goal with
    | H : String.eqb _ _ = false |- _ => rewrite !H
    | H : max_size _ = _ |- _ => rewrite !H
    end;
    eval_leb; cbv iota)).

Section facts.
Context {Value : Type} (reload : Value -> option Value).
Implicit Types cm : CacheManager Value.
Implicit Types d : list (string * CacheEntry Value).

Lemma set_spec cm clk k v ttl :
  enabled (config cm) = true ->
  set reload k v ttl cm clk
  = (Ret tt,
     put_entry reload k
       (mk_entry k v (readings clk (reads clk)) (readings clk (S (reads clk))) 0
                 (ttl_or_default ttl (config cm)))
       (if (max_size (config cm) <=? Z.of_nat (length (cache cm)))%Z
        then evicted cm else cm),
     ticks 2 clk).
Proof.
  intros Hen. run_cache. rewrite Hen. simp_cache.
  unfold put_entry, evicted, ticks.
  destruct (max_size (config cm) <=? Z.of_nat (length (cache cm)))%Z; simp_cache.
  - destruct (cache cm) as [|[k0 e0] rest] eqn:Hc; simp_cache;
      destruct (is_file (config cm)) eqn:F; simp_cache; rewrite ?F; reflexivity.
  - destruct (is_file (config cm)) eqn:F; simp_cache; reflexivity.
Qed.

Lemma get_miss cm clk k :
  enabled (config cm) = true ->
  od_get k (cache cm) = None ->
  is_file (config cm) = false \/ files cm !! k = None ->
  get k cm clk = (Ret None, add_miss cm, clk).
Proof.
  intros Hen Hk Hf. run_cache. rewrite Hen, Hk. simp_cache.
  destruct (is_file (config cm)) eqn:F; simp_cache; [|reflexivity].
  destruct Hf as [Hf|Hf]; [discriminate|]. rewrite Hf. reflexivity.
Qed.

Lemma get_hit cm clk k e :
  enabled (config cm) = true ->
  od_get k (cache cm) = Some e ->
  readings clk (reads clk) - created_at e <= inject_Z (ttl e) ->
  get k cm clk
  = (Ret (Some (value e)),
     set_cache (od_move_to_end k
                  (od_set k (touch (readings clk (S (reads clk))) e) (cache cm)))
               (add_hit cm),
     ticks 2 clk).
Proof.
  intros Hen Hk Hexp. run_cache. rewrite Hen, Hk. simp_cache.
  unfold is_expired. apply Qle_bool_iff in Hexp. rewrite Hexp. reflexivity.
Qed.

Lemma od_get_set k (e : CacheEntry Value) d : od_get k (od_set k e d) = Some e.
Proof.
  induction d as [|[k' e'] d IH]; cbn.
  - rewrite String.eqb_refl. reflexivity.
  - destruct (String.eqb k k') eqn:E; cbn; rewrite ?String.eqb_refl, ?E; auto.
Qed.

Lemma lru_scenario_holds cfg fs clk A B C va vb vc :
  enabled cfg = true -> max_size cfg = 2%Z ->
  A <> B -> A <> C -> B <> C ->
  sample clk 6 - sample clk 2 <= inject_Z (ttl_seconds cfg) ->
  sample clk 8 - sample clk 4 <= inject_Z (ttl_seconds cfg) ->
  exists cm',
    lru_scenario reload A B C va vb vc (new_manager cfg fs) clk
    = (Ret (None, Some vb, Some vc), cm', ticks 10 clk) /\
    evictions cm' = 1%Z /\
    map fst (cache cm') = [B; C].
Proof.
  intros Hen Hmax HAB HAC HBC HB HC.
  apply String.eqb_neq in HAB, HAC, HBC.
  assert (HBA : String.eqb B A = false) by (rewrite String.eqb_sym; exact HAB).
  assert (HCA : String.eqb C A = false) by (rewrite String.eqb_sym; exact HAC).
  assert (HCB : String.eqb C B = false) by (rewrite String.eqb_sym; exact HBC).
  unfold sample in HB, HC. cbn [Nat.add] in HB, HC.
  unfold lru_scenario.
  destruct (is_file cfg) eqn:F; norm_state F.
  - (* file storage: the three sets *)
    do 3 (erewrite bind_run by (apply set_spec; exact Hen); norm_state F).
    (* get A *)
    erewrite bind_run.
    2:{ apply get_miss; [exact Hen | | right].
        - norm_state F. reflexivity.
        - cbn [files]. rewrite lookup_insert_ne by (apply String.eqb_neq; exact HCA).
          apply lookup_delete_eq. }
    norm_state F.
    (* get B *)
    erewrite bind_run.
    2:{ apply get_hit; [exact Hen | | ].
        - norm_state F. reflexivity.
        - cbn [created_at ttl readings reads ttl_or_default]. exact HB. }
    norm_state F.
    (* get C *)
    erewrite bind_run.
    2:{ apply get_hit; [exact Hen | | ].
        - norm_state F. reflexivity.
        - cbn [created_at ttl readings reads ttl_or_default]. exact HC. }
    norm_state F. unfold ret. eexists. split; [reflexivity|]. split; reflexivity.
  - (* memory storage *)
    do 3 (erewrite bind_run by (apply set_spec; exact Hen); norm_state F).
    erewrite bind_run.
    2:{ apply get_miss; [exact Hen | | left; exact F].
        norm_state F. reflexivity. }
    norm_state F.
    erewrite bind_run.
    2:{ apply get_hit; [exact Hen | | ].
        - norm_state F. reflexivity.
        - cbn [created_at ttl readings reads ttl_or_default]. exact HB. }
    norm_state F.
    erewrite bind_run.
    2:{ apply get_hit; [exact Hen | | ].
        - norm_state F. reflexivity.
        - cbn [created_at ttl readings reads ttl_or_default]. exact HC. }
    norm_state F. unfold ret. eexists. split; [reflexivity|]. split; reflexivity.
Qed.
(** The entries of the dict lie in the order of their last use: no entry
    was used before one that precedes it. *)
Fixpoint in_order_of_use d : bool :=
  match d with
  | [] => true
  | (_, e) :: rest =>
      forallb (fun ke => Qle_bool (accessed_at e) (accessed_at (snd ke))) rest
      && in_order_of_use rest
  end.

Lemma head_is_least_recently_used k0 (e0 : CacheEntry Value) rest :
  in_order_of_use ((k0, e0) :: rest) = true ->
  forall k' e', In (k', e') ((k0, e0) :: rest) -> accessed_at e0 <= accessed_at e'.
Proof.
  cbn [in_order_of_use]. intros H k' e' Hin.
  apply andb_true_iff in H as [H _].
  destruct Hin as [[= <- <-]|Hin]; [apply Qle_refl|].
  rewrite forallb_forall in H. apply Qle_bool_iff. exact (H _ Hin).
Qed.

Lemma forallb_app_one {A} (f : A -> bool) l x :
  forallb f (l ++ [x]) = forallb f l && f x.
Proof. rewrite forallb_app. cbn. rewrite andb_true_r. reflexivity. Qed.

Lemma in_order_of_use_app d k (e : CacheEntry Value) :
  in_order_of_use d = true ->
  (forall ke, In ke d -> accessed_at (snd ke) <= accessed_at e) ->
  in_order_of_use (d ++ [(k, e)]) = true.
Proof.
  induction d as [|[k' e'] d IH]; cbn [in_order_of_use app]; intros Hs Hle.
  - reflexivity.
  - apply andb_true_iff in Hs as [Hh Ht].
    rewrite forallb_app_one, Hh, IH; cbn [andb snd].
    + rewrite andb_true_r. apply Qle_bool_iff. apply (Hle (k', e')). left. reflexivity.
    + exact Ht.
    + intros ke Hin. apply Hle. right. exact Hin.
Qed.

Lemma od_del_In k d ke : In ke (od_del k d) -> In ke d.
Proof.
  induction d as [|[k' e'] d IH]; cbn; [tauto|].
  destruct (String.eqb k k'); cbn; [tauto|].
  intros [H|H]; [left; exact H | right; exact (IH H)].
Qed.

Lemma in_order_of_use_del k d :
  in_order_of_use d = true -> in_order_of_use (od_del k d) = true.
Proof.
  induction d as [|[k' e'] d IH]; cbn [in_order_of_use od_del]; [auto|].
  intros Hs. apply andb_true_iff in Hs as [Hh Ht].
  destruct (String.eqb k k'); [exact Ht|].
  cbn [in_order_of_use]. rewrite IH by exact Ht. rewrite andb_true_r.
  apply forallb_forall. intros ke Hin. rewrite forallb_forall in Hh.
  apply Hh. exact (od_del_In _ _ _ Hin).
Qed.

Lemma od_set_absent k (e : CacheEntry Value) d :
  od_get k d = None -> od_set k e d = (d ++ [(k, e)])%list.
Proof.
  induction d as [|[k' e'] d IH]; cbn; [reflexivity|].
  destruct (String.eqb k k'); [discriminate|].
  intros H. rewrite IH by exact H. reflexivity.
Qed.

Lemma od_del_absent k d : od_get k d = None -> od_del k d = d.
Proof.
  induction d as [|[k' e'] d IH]; cbn; [reflexivity|].
  destruct (String.eqb k k'); [discriminate|].
  intros H. rewrite IH by exact H. reflexivity.
Qed.

Lemma od_del_set k (e : CacheEntry Value) d : od_del k (od_set k e d) = od_del k d.
Proof.
  induction d as [|[k' e'] d IH]; cbn.
  - rewrite String.eqb_refl. reflexivity.
  - destruct (String.eqb k k') eqn:E; cbn.
    + rewrite String.eqb_refl. reflexivity.
    + rewrite E, IH. reflexivity.
Qed.

Lemma od_move_to_end_set k (e : CacheEntry Value) d :
  od_move_to_end k (od_set k e d) = (od_del k d ++ [(k, e)])%list.
Proof. unfold od_move_to_end. rewrite od_get_set, od_del_set. reflexivity. Qed.

(** A clock that does not run backwards. *)
Definition runs_forward (clk : Clock) : Prop :=
  forall i j, (i <= j)%nat -> readings clk i <= readings clk j.

(** The entries lie in the order of their last use, and none was used
    later than the clock's next reading. *)
Definition kept_in_order_of_use (clk : Clock) cm : Prop :=
  in_order_of_use (cache cm) = true /\
  forall ke, In ke (cache cm) -> accessed_at (snd ke) <= readings clk (reads clk).

Lemma moved_to_end_in_order clk cm k (e : CacheEntry Value) n m :
  runs_forward clk -> kept_in_order_of_use clk cm ->
  (reads clk <= n)%nat -> (n <= m)%nat ->
  accessed_at e = readings clk n ->
  in_order_of_use (od_del k (cache cm) ++ [(k, e)]) = true /\
  forall ke, In ke (od_del k (cache cm) ++ [(k, e)]) ->
             accessed_at (snd ke) <= readings clk m.
Proof.
  intros Hclk (Hs & Hle) Hn Hm He. split.
  - apply in_order_of_use_app; [apply in_order_of_use_del; exact Hs|].
    intros ke Hin. rewrite He.
    eapply Qle_trans; [apply Hle, (od_del_In _ _ _ Hin)|]. apply Hclk. exact Hn.
  - intros ke Hin. apply in_app_or in Hin as [Hin|[<-|[]]].
    + eapply Qle_trans; [apply Hle, (od_del_In _ _ _ Hin)|]. apply Hclk. lia.
    + cbn [snd]. rewrite He. apply Hclk. exact Hm.
Qed.

(** [get] keeps the entries in the order of their last use. *)
Lemma get_keeps_the_order_of_use cm clk k :
  runs_forward clk -> kept_in_order_of_use clk cm ->
  kept_in_order_of_use (clk_of (get k cm clk)) (st_of (get k cm clk)).
Proof.
  intros Hclk Hinv. pose proof Hinv as (Hs & Hle).
  assert (Hdel : forall n, (reads clk <= n)%nat ->
            in_order_of_use (od_del k (cache cm)) = true /\
            forall ke, In ke (od_del k (cache cm)) ->
                       accessed_at (snd ke) <= readings clk n).
  { intros n Hn. split; [apply in_order_of_use_del; exact Hs|].
    intros ke Hin. eapply Qle_trans; [apply Hle, (od_del_In _ _ _ Hin)|].
    apply Hclk. exact Hn. }
  assert (Hsame : forall n, (reads clk <= n)%nat ->
            forall ke, In ke (cache cm) -> accessed_at (snd ke) <= readings clk n).
  { intros n Hn ke Hin. eapply Qle_trans; [apply Hle, Hin|]. apply Hclk. exact Hn. }
  unfold kept_in_order_of_use.
  run_cache. destruct (enabled (config cm)); [|cbn; auto].
  cbn [negb]. destruct (od_get k (cache cm)) as [e|] eqn:Hk.
  - simp_cache. destruct (is_expired (readings clk (reads clk)) e); simp_cache.
    + destruct (is_file (config cm)); simp_cache; apply Hdel; lia.
    + rewrite od_move_to_end_set.
      apply (moved_to_end_in_order clk cm k _ (S (reads clk)) (S (S (reads clk))));
        [exact Hclk | exact Hinv | lia | lia | reflexivity].
  - simp_cache. destruct (is_file (config cm)) eqn:F; simp_cache; [|auto].
    destruct (files cm !! k) as [[entry|]|]; simp_cache; [|auto|auto].
    destruct (is_expired (readings clk (reads clk)) entry); simp_cache.
    + split; [exact Hs | apply Hsame; lia].
    + destruct (is_expired (readings clk (S (reads clk))) entry); simp_cache.
      * rewrite ?F. simp_cache. rewrite od_del_set, (od_del_absent k _ Hk).
        split; [exact Hs | apply Hsame; lia].
      * rewrite od_move_to_end_set, od_del_set.
        apply (moved_to_end_in_order clk cm k _ (S (S (reads clk)))
                 (S (S (S (reads clk)))));
          [exact Hclk | exact Hinv | lia | lia | reflexivity].
Qed.

(** So does [set] of a key that is not in the cache. *)
Lemma set_of_a_new_key_keeps_the_order_of_use cm clk k v given :
  runs_forward clk -> kept_in_order_of_use clk cm ->
  od_get k (cache cm) = None ->
  kept_in_order_of_use (clk_of (set reload k v given cm clk))
                       (st_of (set reload k v given cm clk)).
Proof.
  intros Hclk (Hs & Hle) Hk.
  destruct (enabled (config cm)) eqn:Hen.
  2:{ run_cache. rewrite Hen. cbn. split; assumption. }
  rewrite set_spec by exact Hen. cbv [st_of clk_of]. cbn [fst snd].
  set (cm1 := if (max_size (config cm) <=? Z.of_nat (length (cache cm)))%Z
              then evicted cm else cm).
  assert (H1 : in_order_of_use (cache cm1) = true /\
               (forall ke, In ke (cache cm1) ->
                           accessed_at (snd ke) <= readings clk (reads clk)) /\
               od_get k (cache cm1) = None).
  { subst cm1. destruct (max_size (config cm) <=? Z.of_nat (length (cache cm)))%Z;
      [|auto].
    unfold evicted. destruct (cache cm) as [|[k0 e0] rest] eqn:Hc.
    - rewrite Hc. auto.
    - assert (cache (if is_file (config cm)
                     then set_files (base.delete k0 (files cm))
                            (add_eviction (set_cache rest cm))
                     else add_eviction (set_cache rest cm)) = rest) as ->
        by (destruct (is_file (config cm)); reflexivity).
      cbn [in_order_of_use] in Hs. apply andb_true_iff in Hs as [_ Hs].
      split; [exact Hs|]. split.
      + intros ke Hin. apply Hle. right. exact Hin.
      + cbn in Hk. destruct (String.eqb k k0); [discriminate | exact Hk]. }
  destruct H1 as (Hs1 & Hle1 & Hk1).
  assert (Hcache : forall e, cache (put_entry reload k e cm1)
                             = (cache cm1 ++ [(k, e)])%list).
  { intros e. unfold put_entry. cbv zeta.
    destruct (is_file (config cm1)); cbn [cache set_files set_cache];
      apply od_set_absent, Hk1. }
  unfold kept_in_order_of_use. rewrite Hcache. cbn [ticks readings reads].
  split.
  - apply in_order_of_use_app; [exact Hs1|].
    intros ke Hin. cbn [accessed_at].
    eapply Qle_trans; [apply Hle1, Hin|]. apply Hclk. lia.
  - intros ke Hin. apply in_app_or in Hin as [Hin|[<-|[]]].
    + eapply Qle_trans; [apply Hle1, Hin|]. apply Hclk. lia.
    + cbn [snd accessed_at]. apply Hclk. lia.
Qed.


End facts.

(** A manager of capacity 2 that holds ["A"], used at 1, and ["B"], used
    at 2. *)
Definition full_manager : CacheManager string :=
  mk_manager (memory_config 2)
    [("A", mk_entry "A" "a" 1 1 0 3600); ("B", mk_entry "B" "b" 2 2 0 3600)]
    0 0 0 ∅.



(** The scenario that shows the eviction order: A and B are written, A
    is written again, C is written. *)
Definition rewrite_scenario : M (CacheManager string) unit :=
  (set Some "A" "a" None ;;
   set Some "B" "b" None ;;
   set Some "A" "a2" None ;;
   set Some "C" "c" None)%py.

(** A clock that reads 0, 1, 2, ... *)
Definition counting_clock : Clock :=
  clock_of_list [0; 1; 2; 3; 4; 5; 6; 7; 8; 9; 10; 11; 12; 13; 14; 15] 16.

(** The code on a key that is written again.  [set] on a key that
    is already cached stores the new entry in the old entry's place of
    the ordered dict: the entry is as fresh as can be ([accessed_at] is
    the time of the write) but stays where it was in the eviction order.
    With [max_size = 3], after A, B, A again and C the cache is at
    capacity and holds A (accessed at 5), B (accessed at 3) and C
    (accessed at 7), which is not the order of their last use; the next
    [set], of D, evicts A and keeps B, the entry used least recently:
    afterwards A is a miss and B is a hit. *)
Theorem rewritten_entry_is_evicted_before_an_older_one :
  let before := rewrite_scenario (new_manager (memory_config 3) ∅) counting_clock in
  let after := set Some "D" "d" None (st_of before) (clk_of before) in
  map (fun ke => (fst ke, accessed_at (snd ke))) (cache (st_of before))
  = [("A", 5); ("B", 3); ("C", 7)] /\
  in_order_of_use (cache (st_of before)) = false /\
  Z.of_nat (length (cache (st_of before))) = max_size (config (st_of before)) /\
  evictions (st_of before) = 0%Z /\
  map fst (cache (st_of after)) = ["B"; "C"; "D"] /\
  evictions (st_of after) = 1%Z /\
  res_of (get "A" (st_of after) (clk_of after)) = Ret None /\
  res_of (get "B" (st_of after) (clk_of after)) = Ret (Some "b").
Proof.
  cbv zeta. split; [vm_compute; reflexivity|].
  split; [vm_compute; reflexivity|].
  split; [vm_compute; reflexivity|].
  split; [vm_compute; reflexivity|].
  split; [vm_compute; reflexivity|].
  split; [vm_compute; reflexivity|].
  split; vm_compute; reflexivity.
Qed.

(** ** Further properties of the cache *)

Section more.
Context {Value : Type} (reload : Value -> option Value).
Implicit Types cm : CacheManager Value.
Implicit Types d : list (string * CacheEntry Value).

Lemma od_set_length_le k (e : CacheEntry Value) d :
  (length (od_set k e d) <= S (length d))%nat.
Proof.
  induction d as [|[k' e'] d IH]; cbn; [lia|].
  destruct (String.eqb k k'); cbn; lia.
Qed.

Lemma od_set_length_present k (e e' : CacheEntry Value) d :
  od_get k d = Some e' -> length (od_set k e d) = length d.
Proof.
  induction d as [|[k' e''] d IH]; cbn; [discriminate|].
  destruct (String.eqb k k'); cbn; [reflexivity|]. intros H. rewrite IH by exact H.
  reflexivity.
Qed.

Lemma od_set_length_absent k (e : CacheEntry Value) d :
  od_get k d = None -> length (od_set k e d) = S (length d).
Proof.
  induction d as [|[k' e''] d IH]; cbn; [reflexivity|].
  destruct (String.eqb k k'); cbn; [discriminate|]. intros H. rewrite IH by exact H.
  reflexivity.
Qed.

Lemma od_del_length_le k d : (length (od_del k d) <= length d)%nat.
Proof.
  induction d as [|[k' e'] d IH]; cbn; [lia|].
  destruct (String.eqb k k'); cbn; lia.
Qed.

Lemma od_del_length_present k (e : CacheEntry Value) d :
  od_get k d = Some e -> S (length (od_del k d)) = length d.
Proof.
  induction d as [|[k' e'] d IH]; cbn; [discriminate|].
  destruct (String.eqb k k'); cbn; [reflexivity|]. intros H. rewrite IH by exact H.
  reflexivity.
Qed.

Lemma od_move_to_end_length k d : length (od_move_to_end k d) = length d.
Proof.
  unfold od_move_to_end. destruct (od_get k d) as [e|] eqn:E; [|reflexivity].
  rewrite length_app. cbn. pose proof (od_del_length_present k e d E). lia.
Qed.

Lemma od_get_del k d :
  NoDup (map fst d) -> od_get k (od_del k d) = None.
Proof.
  induction d as [|[k' e'] d IH]; cbn; [reflexivity|].
  intros Hnd. apply NoDup_cons in Hnd as [Hnotin Hnd].
  destruct (String.eqb_spec k k') as [->|Hne]; cbn.
  - clear IH Hnd. induction d as [|[k'' e''] d IHd]; cbn; [reflexivity|].
    destruct (String.eqb_spec k' k'') as [->|Hne'].
    + exfalso. apply Hnotin. cbn. left.
    + apply IHd. intros Hin. apply Hnotin. cbn. right. exact Hin.
  - destruct (String.eqb_spec k k'); [contradiction|]. apply IH, Hnd.
Qed.

(** The entry [put_entry] stores is the one a lookup finds. *)
Lemma put_entry_get k (e : CacheEntry Value) cm :
  od_get k (cache (put_entry reload k e cm)) = Some e /\
  config (put_entry reload k e cm) = config cm /\
  hits (put_entry reload k e cm) = hits cm /\
  misses (put_entry reload k e cm) = misses cm.
Proof.
  unfold put_entry. destruct (is_file (config cm)); cbn; rewrite od_get_set; auto.
Qed.

Lemma evicted_frame cm :
  config (evicted cm) = config cm /\ hits (evicted cm) = hits cm /\
  misses (evicted cm) = misses cm.
Proof.
  unfold evicted. destruct (cache cm) as [|[k0 e0] rest]; [auto|].
  destruct (is_file (config cm)); cbn; auto.
Qed.

(** X13.  What [set] stores, [get] returns: on an enabled cache a [get] of the
    key that follows its [set], before the entry's time to live has run
    out, is a hit that returns the value, whatever else the cache holds
    and whatever had to be evicted. *)
Theorem set_then_get_returns_value cm clk k v (given : option Z)
  (Hen : enabled (config cm) = true)
  (Hlive : sample clk 2 - sample clk 0 <= inject_Z (ttl_or_default given (config cm))) :
  let o1 := set reload k v given cm clk in
  let o2 := get k (st_of o1) (clk_of o1) in
  res_of o2 = Ret (Some v) /\
  hits (st_of o2) = (hits cm + 1)%Z /\
  misses (st_of o2) = misses cm /\
  clk_of o2 = ticks 4 clk.
Proof.
  intros o1 o2. subst o1 o2.
  rewrite set_spec by exact Hen. unfold st_of, clk_of, res_of. cbn [fst snd].
  set (entry := mk_entry k v _ _ 0 _).
  set (base := if (_ <=? _)%Z then evicted cm else cm).
  destruct (put_entry_get k entry base) as (Hget & Hcfg & Hh & Hm).
  assert (Hbase : config base = config cm /\ hits base = hits cm /\ misses base = misses cm).
  { subst base. destruct (_ <=? _)%Z; [apply evicted_frame | auto]. }
  destruct Hbase as (Bc & Bh & Bm).
  assert (E : get k (put_entry reload k entry base) (ticks 2 clk)
              = (Ret (Some (value entry)),
                 set_cache
                   (od_move_to_end k
                      (od_set k (touch (readings (ticks 2 clk) (S (reads (ticks 2 clk)))) entry)
                         (cache (put_entry reload k entry base))))
                   (add_hit (put_entry reload k entry base)),
                 ticks 2 (ticks 2 clk))).
  { apply get_hit; [rewrite Hcfg, Bc; exact Hen | exact Hget |].
    subst entry. cbn [created_at ttl ticks readings reads].
    unfold sample in Hlive. cbn [Nat.add] in Hlive. exact Hlive. }
  rewrite E. cbn [fst snd hits misses set_cache add_hit].
  rewrite Hh, Hm, Bh, Bm. repeat split; reflexivity.
Qed.

(** [CacheManager.clear]: the files of the directory that end in
    [.json] are the entries' files. *)
Definition clear : M (CacheManager Value) unit :=
  modify (fun cm =>
    mk_manager (config cm) [] 0 0 0 (if is_file (config cm) then ∅ else files cm)).

(** The first loop of [cleanup_expired]: every entry reads the clock. *)
Fixpoint collect_expired d : M (CacheManager Value) (list string) :=
  match d with
  | [] => ret []
  | (k, entry) :: d' =>
      (t <- now ;;
       expired_keys <- collect_expired d' ;;
       ret (if is_expired t entry then k :: expired_keys else expired_keys))%py
  end.

Fixpoint delete_all (keys : list string) : M (CacheManager Value) unit :=
  match keys with
  | [] => ret tt
  | k :: keys' => (delete k ;; delete_all keys')%py
  end.

(** [CacheManager.cleanup_expired]. *)
Definition cleanup_expired : M (CacheManager Value) nat :=
  (cm <- get_state ;;
   expired_keys <- collect_expired (cache cm) ;;
   delete_all expired_keys ;;
   ret (length expired_keys))%py.

(** The operations of the cache, and a sequence of them run in order. *)
Inductive Op :=
| OpSet (k : string) (v : Value) (ttl : option Z)
| OpGet (k : string)
| OpDelete (k : string)
| OpCleanup
| OpClear.

Definition run_op (op : Op) : M (CacheManager Value) unit :=
  match op with
  | OpSet k v ttl => set reload k v ttl
  | OpGet k => (get k ;; ret tt)%py
  | OpDelete k => delete k
  | OpCleanup => (cleanup_expired ;; ret tt)%py
  | OpClear => clear
  end.

Fixpoint run_ops (ops : list Op) : M (CacheManager Value) unit :=
  match ops with
  | [] => ret tt
  | op :: ops' => (run_op op ;; run_ops ops')%py
  end.

Section limit.
Variable cfg : CacheConfig.
Hypothesis Hmem : is_file cfg = false.
Hypothesis Hmax : (1 <= max_size cfg)%Z.

(** A cache configured by [cfg] that is within its size limit. *)
Definition within_limit cm : Prop :=
  config cm = cfg /\ (Z.of_nat (length (cache cm)) <= max_size cfg)%Z.

Lemma set_within_limit cm clk k v given :
  within_limit cm -> within_limit (st_of (set reload k v given cm clk)).
Proof.
  intros (Hc & Hlen). destruct (enabled (config cm)) eqn:Hen.
  - rewrite set_spec by exact Hen. unfold st_of. cbn [fst snd].
    set (entry := mk_entry k v _ _ 0 _).
    rewrite Hc.
    destruct (Z.leb_spec (max_size cfg) (Z.of_nat (length (cache cm)))) as [Hfull|Hroom].
    + unfold put_entry, evicted.
      destruct (cache cm) as [|[k0 e0] rest] eqn:Hcache; [cbn in Hfull; lia|].
      rewrite Hc, Hmem. cbn [config set_cache add_eviction]. rewrite Hc, Hmem.
      unfold within_limit. cbn [config cache set_cache add_eviction].
      split; [exact Hc|].
      pose proof (od_set_length_le k entry rest). cbn [length] in Hlen. lia.
    + unfold put_entry. rewrite Hc, Hmem.
      unfold within_limit. cbn [config cache set_cache].
      split; [exact Hc|].
      pose proof (od_set_length_le k entry (cache cm)). lia.
  - run_cache. rewrite Hen. cbn. split; assumption.
Qed.

Lemma delete_frame cm clk k :
  config (st_of (delete k cm clk)) = config cm /\
  cache (st_of (delete k cm clk)) = od_del k (cache cm) /\
  res_of (delete k cm clk) = Ret tt.
Proof. run_cache. cbn. destruct (is_file (config cm)); cbn; auto. Qed.

Lemma delete_within_limit cm clk k :
  within_limit cm -> within_limit (st_of (delete k cm clk)).
Proof.
  intros (Hc & Hlen).
  destruct (delete_frame cm clk k) as (Hc' & Hd & _).
  unfold within_limit. rewrite Hc', Hd, Hc.
  pose proof (od_del_length_le k (cache cm)). split; [reflexivity | lia].
Qed.

Lemma get_within_limit cm clk k :
  within_limit cm -> within_limit (st_of (get k cm clk)).
Proof.
  intros (Hc & Hlen). unfold within_limit.
  run_cache. destruct (enabled (config cm)); [|cbn; auto].
  cbn [negb]. destruct (od_get k (cache cm)) as [e|] eqn:Hk.
  - simp_cache. destruct (is_expired (readings clk (reads clk)) e); simp_cache.
    + destruct (is_file (config cm)); simp_cache;
        pose proof (od_del_length_le k (cache cm)); split; try assumption; lia.
    + rewrite od_move_to_end_length, (od_set_length_present k _ e) by exact Hk.
      auto.
  - simp_cache. rewrite Hc, Hmem. simp_cache. auto.
Qed.

Lemma collect_expired_step k (e : CacheEntry Value) d cm clk :
  collect_expired ((k, e) :: d) cm clk
  = let o := collect_expired d cm (tick clk) in
    (res_map (fun keys => if is_expired (sample clk 0) e then k :: keys else keys)
             (res_of o),
     st_of o, clk_of o).
Proof.
  cbn [collect_expired]. unfold bind, now, time_time, ret, tick, ticks, sample.
  cbn [Nat.add]. 
  destruct (collect_expired d cm _) as [[[r|e'] s] c]; reflexivity.
Qed.

Lemma collect_expired_frame d : forall cm clk,
  st_of (collect_expired d cm clk) = cm /\
  clk_of (collect_expired d cm clk) = ticks (length d) clk /\
  exists keys, res_of (collect_expired d cm clk) = Ret keys.
Proof.
  induction d as [|[k e] d IH]; intros cm clk.
  - cbn. unfold ticks. destruct clk; cbn. eauto.
  - rewrite collect_expired_step. cbv zeta.
    destruct (IH cm (tick clk)) as (Hs & Hc & keys & Hr).
    destruct (collect_expired d cm (tick clk)) as [[r s] c].
    cbv [st_of clk_of res_of] in *. cbn [fst snd] in *. subst r s c.
    split; [reflexivity|]. split.
    + unfold tick, ticks. cbn [readings reads length]. f_equal. lia.
    + cbn [res_map]. eauto.
Qed.

Lemma delete_all_within_limit keys : forall cm clk,
  within_limit cm -> within_limit (st_of (delete_all keys cm clk)).
Proof.
  induction keys as [|k keys IH]; intros cm clk H; [exact H|].
  cbn [delete_all]. unfold bind.
  pose proof (delete_within_limit cm clk k H) as H'.
  destruct (delete_frame cm clk k) as (_ & _ & Hr).
  destruct (delete k cm clk) as [[r cm1] c1].
  cbv [res_of] in Hr. cbn [fst snd] in Hr. subst r.
  apply IH. exact H'.
Qed.

Lemma cleanup_within_limit cm clk :
  within_limit cm -> within_limit (st_of (cleanup_expired cm clk)).
Proof.
  intros H. unfold cleanup_expired. unfold bind at 1, get_state. unfold bind at 1.
  destruct (collect_expired_frame (cache cm) cm clk) as (Hs & Hc & keys & Hr).
  destruct (collect_expired (cache cm) cm clk) as [[r s] c].
  cbv [st_of clk_of res_of] in Hs, Hc, Hr. cbn [fst snd] in Hs, Hc, Hr. subst r s c.
  unfold bind.
  pose proof (delete_all_within_limit keys cm (ticks (length (cache cm)) clk) H) as H'.
  destruct (delete_all keys cm _) as [[[[]|e] cm1] c1]; exact H'.
Qed.

Lemma run_op_within_limit op cm clk :
  within_limit cm -> within_limit (st_of (run_op op cm clk)).
Proof.
  intros H. destruct op as [k v ttl|k|k| |]; cbn [run_op].
  - apply set_within_limit, H.
  - pose proof (get_within_limit cm clk k H) as H'. unfold bind.
    destruct (get k cm clk) as [[[r|e] s] c]; exact H'.
  - apply delete_within_limit, H.
  - pose proof (cleanup_within_limit cm clk H) as H'. unfold bind.
    destruct (cleanup_expired cm clk) as [[[r|e] s] c]; exact H'.
  - destruct H as (Hc & _). unfold clear, modify, st_of, within_limit. cbn.
    split; [exact Hc | lia].
Qed.

Lemma run_ops_within_limit ops : forall cm clk,
  within_limit cm -> within_limit (st_of (run_ops ops cm clk)).
Proof.
  induction ops as [|op ops IH]; intros cm clk H; [exact H|].
  cbn [run_ops]. unfold bind.
  pose proof (run_op_within_limit op cm clk H) as H'.
  destruct (run_op op cm clk) as [[[[]|e] cm1] c1]; [|exact H'].
  apply IH. exact H'.
Qed.

End limit.

(** A [get] of a key that is only in a file: the entry is loaded, checked
    twice for expiry, put into the cache and returned. *)
Lemma get_loaded cm clk k (e : CacheEntry Value) :
  enabled (config cm) = true ->
  is_file (config cm) = true ->
  od_get k (cache cm) = None ->
  files cm !! k = Some (Loadable e) ->
  sample clk 0 - created_at e <= inject_Z (ttl e) ->
  sample clk 1 - created_at e <= inject_Z (ttl e) ->
  get k cm clk
  = (Ret (Some (value e)),
     set_cache (od_move_to_end k (od_set k (touch (sample clk 2) e)
                                     (od_set k e (cache cm))))
               (add_hit (add_miss cm)),
     ticks 3 clk).
Proof.
  intros Hen Hfile Hk Hf H0 H1. unfold sample in *. cbn [Nat.add] in *.
  apply Qle_bool_iff in H0, H1.
  run_cache. rewrite Hen, Hk. simp_cache. rewrite Hfile.
  change (files (add_miss cm)) with (files cm). rewrite Hf. simp_cache.
  unfold is_expired. rewrite H0. simp_cache. rewrite H1. reflexivity.
Qed.

Lemma get_unreadable cm clk k :
  enabled (config cm) = true ->
  is_file (config cm) = true ->
  od_get k (cache cm) = None ->
  files cm !! k = Some Unreadable ->
  get k cm clk = (Ret None, add_miss cm, clk).
Proof.
  intros Hen Hfile Hk Hf.
  run_cache. rewrite Hen, Hk. simp_cache. rewrite Hfile.
  change (files (add_miss cm)) with (files cm). rewrite Hf. reflexivity.
Qed.

(** X15.  With file storage a [get] can grow the cache past any limit: a key
    that is not in memory but has a file that loads and has not expired
    is put into the cache without any eviction, however many entries the
    cache holds; the same [get] counts both as a miss and as a hit. *)
Theorem file_backed_get_bypasses_the_size_limit cm clk k (e : CacheEntry Value)
  (Hen : enabled (config cm) = true)
  (Hfile : is_file (config cm) = true)
  (Hk : od_get k (cache cm) = None)
  (Hf : files cm !! k = Some (Loadable e))
  (H0 : sample clk 0 - created_at e <= inject_Z (ttl e))
  (H1 : sample clk 1 - created_at e <= inject_Z (ttl e)) :
  let o := get k cm clk in
  res_of o = Ret (Some (value e)) /\
  length (cache (st_of o)) = S (length (cache cm)) /\
  evictions (st_of o) = evictions cm /\
  misses (st_of o) = (misses cm + 1)%Z /\
  hits (st_of o) = (hits cm + 1)%Z.
Proof.
  intros o. subst o. rewrite (get_loaded cm clk k e) by assumption.
  unfold res_of, st_of. cbn [fst snd cache evictions misses hits set_cache add_hit add_miss].
  rewrite od_move_to_end_length.
  rewrite (od_set_length_present k _ e) by apply od_get_set.
  rewrite od_set_length_absent by exact Hk.
  repeat split; reflexivity.
Qed.

(** The keys whose file [<storage_path>/<key>.json] the manager can open
    for writing on a POSIX file system, the directory being the one the
    constructor made: the key holds no slash and no NUL, so that it names
    a file of that directory, and key and path are short enough for the
    limits of 255 bytes for a name and 4096 for a path, whatever bytes
    the characters are encoded in.  For any other key [open] may fail,
    and [_save_to_file] swallows the error. *)
Definition names_a_file (cfg : CacheConfig) (k : string) : bool :=
  forallb (fun c => negb (Ascii.eqb c "/") && negb (Ascii.eqb c Ascii.zero))
          (list_ascii_of_string k)
  && (String.length k <=? 120)%nat
  && (String.length (storage_path cfg) <=? 1000)%nat.

(** X16.  What [set] writes to a file outlives the manager: for a key
    that names a file of the storage directory, a new manager on the same
    directory that is asked for the key, before the entry has expired,
    returns the value as [json.loads(json.dumps(value))] gives it, and
    misses when the value could not be written as JSON. *)
Theorem file_cache_survives_restart cm clk clk' k v (given : option Z)
  (Hen : enabled (config cm) = true)
  (Hfile : is_file (config cm) = true)
  (Hname : names_a_file (config cm) k = true)
  (H0 : sample clk' 0 - sample clk 0 <= inject_Z (ttl_or_default given (config cm)))
  (H1 : sample clk' 1 - sample clk 0 <= inject_Z (ttl_or_default given (config cm))) :
  let saved := files (st_of (set reload k v given cm clk)) in
  res_of (get k (new_manager (config cm) saved) clk') = Ret (reload v).
Proof.
  intros saved. subst saved. rewrite set_spec by exact Hen.
  unfold st_of. cbn [fst snd].
  set (entry := mk_entry k v _ _ 0 _).
  set (base := if (_ <=? _)%Z then evicted cm else cm).
  assert (Bc : config base = config cm).
  { subst base. destruct (_ <=? _)%Z; [apply evicted_frame | reflexivity]. }
  assert (Hsaved : files (put_entry reload k entry base) !! k
                   = Some (file_content reload entry)).
  { unfold put_entry. rewrite Bc, Hfile. cbn [files set_files set_cache].
    apply lookup_insert_eq. }
  unfold file_content in Hsaved. change (value entry) with v in Hsaved.
  destruct (reload v) as [v'|] eqn:Hv.
  - rewrite (get_loaded _ clk' k
               (mk_entry (key entry) v' (created_at entry) (accessed_at entry)
                         (access_count entry) (ttl entry)));
      [reflexivity | exact Hen | exact Hfile | reflexivity
      | exact Hsaved | exact H0 | exact H1].
  - rewrite get_unreadable; [reflexivity | exact Hen | exact Hfile | reflexivity
                            | exact Hsaved].
Qed.

(** X17.  An entry found expired is dropped by the [get] that finds it: the
    [get] is a miss, the key is gone from the cache and, with file
    storage, its file is removed. *)
Theorem expired_entry_is_removed_on_read cm clk k (e : CacheEntry Value)
  (Hen : enabled (config cm) = true)
  (Hk : od_get k (cache cm) = Some e)
  (Hexp : inject_Z (ttl e) < sample clk 0 - created_at e)
  (Hkeys : NoDup (map fst (cache cm))) :
  let o := get k cm clk in
  res_of o = Ret None /\
  od_get k (cache (st_of o)) = None /\
  S (length (cache (st_of o))) = length (cache cm) /\
  misses (st_of o) = (misses cm + 1)%Z /\
  hits (st_of o) = hits cm /\
  (is_file (config cm) = true -> files (st_of o) !! k = None).
Proof.
  intros o. subst o. unfold sample in Hexp. cbn [Nat.add] in Hexp.
  assert (E : is_expired (readings clk (reads clk)) e = true).
  { unfold is_expired. destruct (Qle_bool _ _) eqn:E; [|reflexivity].
    apply Qle_bool_iff in E. lra. }
  run_cache. rewrite Hen, Hk. simp_cache. rewrite E. simp_cache.
  destruct (is_file (config cm)) eqn:F; simp_cache;
    (split; [reflexivity|]); (split; [apply od_get_del, Hkeys|]);
    (split; [apply (od_del_length_present k e), Hk|]);
    repeat split; try reflexivity; try discriminate.
  intros _. apply lookup_delete_eq.
Qed.

(** The entries [cleanup_expired] keeps and the keys it collects: the
    entries are checked in order, each at its own reading of the clock. *)
Fixpoint survivors (clk : Clock) d : list (string * CacheEntry Value) :=
  match d with
  | [] => []
  | (k, e) :: d' =>
      if is_expired (sample clk 0) e then survivors (tick clk) d'
      else (k, e) :: survivors (tick clk) d'
  end.

Fixpoint expired_keys (clk : Clock) d : list string :=
  match d with
  | [] => []
  | (k, e) :: d' =>
      if is_expired (sample clk 0) e then k :: expired_keys (tick clk) d'
      else expired_keys (tick clk) d'
  end.

Definition od_del_all (keys : list string) d : list (string * CacheEntry Value) :=
  fold_left (fun d k => od_del k d) keys d.

Lemma collect_expired_result d : forall cm clk,
  collect_expired d cm clk = (Ret (expired_keys clk d), cm, ticks (length d) clk).
Proof.
  induction d as [|[k e] d IH]; intros cm clk.
  - cbn. unfold ticks. destruct clk; reflexivity.
  - rewrite collect_expired_step. cbv zeta. rewrite IH.
    unfold res_of, st_of, clk_of. cbn [fst snd res_map expired_keys length].
    assert (Hclk : ticks (length d) (tick clk) = ticks (S (length d)) clk)
      by (unfold tick, ticks; cbn [readings reads]; f_equal; lia).
    rewrite Hclk. reflexivity.
Qed.

Lemma delete_all_run keys : forall cm clk,
  exists cm',
    delete_all keys cm clk = (Ret tt, cm', clk) /\
    cache cm' = od_del_all keys (cache cm) /\
    config cm' = config cm /\ hits cm' = hits cm /\ misses cm' = misses cm /\
    evictions cm' = evictions cm.
Proof.
  induction keys as [|k keys IH]; intros cm clk.
  - exists cm. repeat split; reflexivity.
  - cbn [delete_all]. unfold bind.
    assert (E : exists cm1, delete k cm clk = (Ret tt, cm1, clk) /\
                  cache cm1 = od_del k (cache cm) /\ config cm1 = config cm /\
                  hits cm1 = hits cm /\ misses cm1 = misses cm /\
                  evictions cm1 = evictions cm).
    { run_cache. cbn. destruct (is_file (config cm)); cbn; eexists; split;
        try reflexivity; auto. }
    destruct E as (cm1 & E & Hc & Hcfg & Hh & Hm & Hev). rewrite E.
    destruct (IH cm1 clk) as (cm' & E' & Hc' & Hcfg' & Hh' & Hm' & Hev').
    exists cm'. rewrite E'. split; [reflexivity|].
    cbn [od_del_all fold_left]. rewrite Hc', Hc, Hcfg', Hcfg, Hh', Hh, Hm', Hm, Hev', Hev.
    auto.
Qed.

Lemma od_del_all_cons keys : forall k (e : CacheEntry Value) d,
  k ∉ keys -> od_del_all keys ((k, e) :: d) = (k, e) :: od_del_all keys d.
Proof.
  induction keys as [|k' keys IH]; intros k e d Hnotin; [reflexivity|].
  cbn [od_del_all fold_left od_del].
  destruct (String.eqb_spec k' k) as [->|Hne].
  - exfalso. apply Hnotin. left.
  - apply IH. intros Hin. apply Hnotin. right. exact Hin.
Qed.

Lemma expired_keys_subset d : forall clk k,
  k ∈ expired_keys clk d -> k ∈ map fst d.
Proof.
  induction d as [|[k0 e0] d IH]; intros clk k; cbn; [auto|].
  destruct (is_expired (sample clk 0) e0).
  - intros Hin. apply elem_of_cons in Hin as [->|Hin]; [left | right; eauto].
  - intros Hin. right. eauto.
Qed.

Lemma od_del_all_survivors d : forall clk,
  NoDup (map fst d) -> od_del_all (expired_keys clk d) d = survivors clk d.
Proof.
  induction d as [|[k e] d IH]; intros clk Hnd; [reflexivity|].
  cbn [map fst] in Hnd. apply NoDup_cons in Hnd as [Hnotin Hnd].
  cbn [expired_keys survivors].
  destruct (is_expired (sample clk 0) e).
  - cbn [od_del_all fold_left od_del]. rewrite String.eqb_refl. apply IH, Hnd.
  - rewrite od_del_all_cons.
    + f_equal. apply IH, Hnd.
    + intros Hin. apply Hnotin. eapply expired_keys_subset, Hin.
Qed.

Lemma expired_and_survivors d : forall clk,
  (length (expired_keys clk d) + length (survivors clk d) = length d)%nat.
Proof.
  induction d as [|[k e] d IH]; intros clk; [reflexivity|].
  cbn [expired_keys survivors]. specialize (IH (tick clk)).
  destruct (is_expired (sample clk 0) e); cbn [length]; lia.
Qed.

(** X18.  [cleanup_expired] checks the entries in order, each against its own
    reading of the clock, removes exactly those it found expired, keeps
    the others in their order, and returns the number removed; the hit
    and miss counts are not touched. *)
Theorem cleanup_removes_exactly_the_expired cm clk
  (Hkeys : NoDup (map fst (cache cm))) :
  let o := cleanup_expired cm clk in
  cache (st_of o) = survivors clk (cache cm) /\
  res_of o = Ret (length (cache cm) - length (survivors clk (cache cm)))%nat /\
  clk_of o = ticks (length (cache cm)) clk /\
  hits (st_of o) = hits cm /\ misses (st_of o) = misses cm.
Proof.
  intros o. subst o.
  destruct (delete_all_run (expired_keys clk (cache cm)) cm
              (ticks (length (cache cm)) clk))
    as (cm' & E & Hc & _ & Hh & Hm & _).
  assert (Eo : cleanup_expired cm clk
               = (Ret (length (expired_keys clk (cache cm))), cm',
                  ticks (length (cache cm)) clk)).
  { unfold cleanup_expired. unfold bind at 1, get_state. unfold bind at 1.
    rewrite collect_expired_result. unfold bind. rewrite E. reflexivity. }
  rewrite Eo. unfold res_of, st_of, clk_of. cbn [fst snd].
  rewrite Hc, Hh, Hm, od_del_all_survivors by exact Hkeys.
  pose proof (expired_and_survivors (cache cm) clk).
  repeat split; try reflexivity. f_equal. lia.
Qed.

Lemma od_get_set_other k k' (e : CacheEntry Value) d :
  k <> k' -> od_get k (od_set k' e d) = od_get k d.
Proof.
  intros Hne. induction d as [|[k0 e0] d IH]; cbn.
  - destruct (String.eqb_spec k k'); [contradiction | reflexivity].
  - destruct (String.eqb_spec k' k0) as [->|Hk]; cbn.
    + destruct (String.eqb_spec k k0); [contradiction | reflexivity].
    + destruct (String.eqb_spec k k0); [reflexivity | exact IH].
Qed.

Lemma od_get_app_last k (e : CacheEntry Value) d :
  k ∉ map fst d -> od_get k (d ++ [(k, e)]) = Some e.
Proof.
  induction d as [|[k0 e0] d IH]; cbn; intros Hnotin.
  - rewrite String.eqb_refl. reflexivity.
  - destruct (String.eqb_spec k k0) as [->|Hne].
    + exfalso. apply Hnotin. left.
    + apply IH. intros Hin. apply Hnotin. right. exact Hin.
Qed.

Lemma od_set_keys k (e e' : CacheEntry Value) d :
  od_get k d = Some e' -> map fst (od_set k e d) = map fst d.
Proof.
  induction d as [|[k0 e0] d IH]; cbn; [discriminate|].
  destruct (String.eqb_spec k k0) as [->|Hne]; cbn; [reflexivity|].
  intros H. rewrite IH by exact H. reflexivity.
Qed.

Lemma od_del_notin k d :
  NoDup (map fst d) -> k ∉ map fst (od_del k d).
Proof.
  induction d as [|[k0 e0] d IH]; cbn; intros Hnd.
  - apply not_elem_of_nil.
  - apply NoDup_cons in Hnd as [Hnotin Hnd].
    destruct (String.eqb_spec k k0) as [->|Hne]; [exact Hnotin|].
    cbn. intros Hin. apply elem_of_cons in Hin as [Heq|Hin]; [contradiction|].
    exact (IH Hnd Hin).
Qed.

(** X19.  Least recently used means what it says: an entry that has just been
    read is not the one the next [set] evicts.  In a cache of at least two
    entries, after a hit on [k] a [set] of another key, full cache or not,
    leaves [k] in the cache with its value. *)
Theorem entry_just_read_survives_the_next_eviction
  cm clk k k' v (given : option Z) (e : CacheEntry Value)
  (Hen : enabled (config cm) = true)
  (Hkeys : NoDup (map fst (cache cm)))
  (Hk : od_get k (cache cm) = Some e)
  (Hlive : sample clk 0 - created_at e <= inject_Z (ttl e))
  (Hother : k' <> k)
  (Htwo : (2 <= length (cache cm))%nat) :
  let o1 := get k cm clk in
  let o2 := set reload k' v given (st_of o1) (clk_of o1) in
  res_of o1 = Ret (Some (value e)) /\
  exists e', od_get k (cache (st_of o2)) = Some e' /\ value e' = value e.
Proof.
  intros o1 o2. subst o1 o2.
  rewrite (get_hit cm clk k e Hen Hk) by exact Hlive.
  unfold res_of at 1, st_of at 2, clk_of. cbn [fst snd].
  split; [reflexivity|].
  set (t := touch _ e).
  set (cm1 := set_cache _ (add_hit cm)).
  assert (Hen1 : enabled (config cm1) = true) by exact Hen.
  rewrite set_spec by exact Hen1. unfold st_of. cbn [fst snd].
  set (entry := mk_entry k' v _ _ 0 _).
  (* the cache after the hit: the other entries, then [k] *)
  assert (Hc1 : cache cm1 = (od_del k (od_set k t (cache cm)) ++ [(k, t)])%list).
  { subst cm1. cbn [cache set_cache]. unfold od_move_to_end.
    rewrite od_get_set. reflexivity. }
  assert (Hnd' : NoDup (map fst (od_set k t (cache cm))))
    by (rewrite (od_set_keys k t e) by exact Hk; exact Hkeys).
  pose proof (od_del_notin k _ Hnd') as Hnotin.
  assert (Hlen : S (length (od_del k (od_set k t (cache cm)))) = length (cache cm)).
  { rewrite (od_del_length_present k t) by apply od_get_set.
    apply (od_set_length_present k t e), Hk. }
  destruct (od_del k (od_set k t (cache cm))) as [|[k0 e0] rest] eqn:Hrest;
    [cbn in Hlen; lia|].
  exists t. split; [|reflexivity].
  assert (Hfinal : forall base,
            cache base = ((k0, e0) :: rest ++ [(k, t)])%list \/
            cache base = (rest ++ [(k, t)])%list ->
            od_get k (cache (put_entry reload k' entry base)) = Some t).
  { intros base Hb.
    assert (Hput : cache (put_entry reload k' entry base) = od_set k' entry (cache base))
      by (unfold put_entry; destruct (is_file (config base)); reflexivity).
    rewrite Hput, od_get_set_other by congruence.
    destruct Hb as [-> | ->].
    - change ((k0, e0) :: rest ++ [(k, t)])%list with (((k0, e0) :: rest) ++ [(k, t)])%list.
      apply od_get_app_last, Hnotin.
    - apply od_get_app_last. intros Hin. apply Hnotin. cbn. right. exact Hin. }
  apply Hfinal.
  destruct (_ <=? _)%Z.
  - right. unfold evicted. rewrite Hc1. cbn [app].
    destruct (is_file (config cm1)); reflexivity.
  - left. rewrite Hc1. reflexivity.
Qed.

(** X14.  A memory cache with room for at least one entry never grows past
    [max_size]: whatever sequence of [set], [get], [delete],
    [cleanup_expired] and [clear] is run on a cache within the limit, the
    cache that results is within the limit, under the same configuration. *)
Theorem memory_cache_never_exceeds_max_size (ops : list Op) cm clk
  (Hmem : is_file (config cm) = false)
  (Hmax : (1 <= max_size (config cm))%Z)
  (Hlen : (Z.of_nat (length (cache cm)) <= max_size (config cm))%Z) :
  let cm' := st_of (run_ops ops cm clk) in
  config cm' = config cm /\
  (Z.of_nat (length (cache cm')) <= max_size (config cm))%Z.
Proof.
  intros cm'. subst cm'.
  apply (run_ops_within_limit (config cm) Hmem Hmax ops cm clk).
  split; [reflexivity | exact Hlen].
Qed.

End more.

Lemma set_then_get_returns_value_witness :
  let cm := new_manager (Value := string) (memory_config 1) ∅ in
  (enabled (config cm) = true /\
   sample (clock_of_list [] 0) 2 - sample (clock_of_list [] 0) 0
   <= inject_Z (ttl_or_default None (config cm))) /\
  res_of (get "A" (st_of (set Some "A" "a" None cm (clock_of_list [] 0)))
              (clk_of (set Some "A" "a" None cm (clock_of_list [] 0))))
  = Ret (Some "a").
Proof.
  cbv zeta.
  assert (H : sample (clock_of_list [] 0) 2 - sample (clock_of_list [] 0) 0
              <= inject_Z (ttl_or_default None
                             (config (new_manager (Value := string) (memory_config 1) ∅))))
    by (apply Qle_bool_iff; vm_compute; reflexivity).
  split; [split; [reflexivity | exact H]|].
  apply (set_then_get_returns_value Some (new_manager (memory_config 1) ∅)
           (clock_of_list [] 0) "A" "a" None eq_refl H).
Defined.


Lemma memory_cache_never_exceeds_max_size_witness :
  let cm := new_manager (Value := string) (memory_config 2) ∅ in
  let ops := [OpSet "A" "a" None; OpSet "B" "b" None; OpGet "A";
              OpSet "C" "c" (Some 5%Z); OpDelete "B"; OpSet "D" "d" None;
              OpCleanup; OpSet "E" "e" None] in
  map fst (cache (st_of (run_ops Some ops cm (clock_of_list [] 0)))) = ["D"; "E"] /\
  (Z.of_nat (length (cache (st_of (run_ops Some ops cm (clock_of_list [] 0)))))
   <= max_size (config cm))%Z.
Proof.
  cbv zeta. split; [vm_compute; reflexivity|].
  apply (memory_cache_never_exceeds_max_size Some
           [OpSet "A" "a" None; OpSet "B" "b" None; OpGet "A";
            OpSet "C" "c" (Some 5%Z); OpDelete "B"; OpSet "D" "d" None;
            OpCleanup; OpSet "E" "e" None]
           (new_manager (memory_config 2) ∅) (clock_of_list [] 0));
    [reflexivity | cbn; lia | cbn; lia].
Defined.

(** A file-backed manager of capacity 1 that holds ["A"] in memory and has
    a file for ["B"]. *)
Definition manager_with_file : CacheManager string :=
  mk_manager (file_config 1) [("A", mk_entry "A" "a" 0 0 0 3600)] 0 0 0
             {["B" := Loadable (mk_entry "B" "b" 0 0 0 3600)]}.

Lemma file_backed_get_bypasses_the_size_limit_witness :
  (Z.of_nat (length (cache manager_with_file)) = max_size (config manager_with_file)) /\
  length (cache (st_of (get "B" manager_with_file (clock_of_list [] 0)))) = 2%nat.
Proof.
  split; [reflexivity|].
  assert (H : sample (clock_of_list [] 0) 0 - 0 <= inject_Z 3600)
    by (apply Qle_bool_iff; vm_compute; reflexivity).
  destruct (file_backed_get_bypasses_the_size_limit manager_with_file
              (clock_of_list [] 0) "B" (mk_entry "B" "b" 0 0 0 3600)
              eq_refl eq_refl eq_refl eq_refl H H) as (_ & Hlen & _).
  exact Hlen.
Defined.

Lemma file_cache_survives_restart_witness :
  let cm := new_manager (Value := string) (file_config 2) ∅ in
  let saved := files (st_of (set Some "A" "a" None cm (clock_of_list [] 0))) in
  res_of (get "A" (new_manager (file_config 2) saved) (clock_of_list [] 0))
  = Ret (Some "a").
Proof.
  cbv zeta.
  assert (H : sample (clock_of_list [] 0) 0 - sample (clock_of_list [] 0) 0
              <= inject_Z (ttl_or_default None (file_config 2)))
    by (apply Qle_bool_iff; vm_compute; reflexivity).
  apply (file_cache_survives_restart Some (new_manager (file_config 2) ∅)
           (clock_of_list [] 0) (clock_of_list [] 0) "A" "a" None
           eq_refl eq_refl eq_refl H H).
Defined.

Lemma expired_entry_is_removed_on_read_witness :
  let cm := mk_manager (memory_config 2) [("A", mk_entry "A" "a" 0 0 0 10)] 0 0 0 ∅ in
  let clk := clock_of_list [] 11 in
  inject_Z 10 < sample clk 0 - 0 /\
  res_of (get "A" cm clk) = Ret None /\
  cache (st_of (get "A" cm clk)) = [].
Proof.
  cbv zeta.
  assert (H : inject_Z 10 < sample (clock_of_list [] 11) 0 - 0)
    by (unfold Qlt; vm_compute; reflexivity).
  split; [exact H|].
  destruct (expired_entry_is_removed_on_read
              (mk_manager (memory_config 2) [("A", mk_entry "A" "a" 0 0 0 10)] 0 0 0 ∅)
              (clock_of_list [] 11) "A" (mk_entry "A" "a" 0 0 0 10)
              eq_refl eq_refl H) as (Hres & _).
  - apply (bool_decide_unpack _). vm_compute. reflexivity.
  - split; [exact Hres | vm_compute; reflexivity].
Defined.

Lemma cleanup_removes_exactly_the_expired_witness :
  let cm := mk_manager (memory_config 5)
              [("A", mk_entry "A" "a" 0 0 0 10); ("B", mk_entry "B" "b" 0 0 0 100)]
              0 0 0 ∅ in
  let clk := clock_of_list [] 50 in
  NoDup (map fst (cache cm)) /\
  res_of (cleanup_expired cm clk) = Ret 1%nat /\
  map fst (cache (st_of (cleanup_expired cm clk))) = ["B"].
Proof.
  cbv zeta.
  assert (H : NoDup (map fst (cache (mk_manager (memory_config 5)
              [("A", mk_entry "A" "a" 0 0 0 10); ("B", mk_entry "B" "b" 0 0 0 100)]
              0 0 0 ∅)))).
  { apply (bool_decide_unpack _). vm_compute. reflexivity. }
  split; [exact H|].
  destruct (cleanup_removes_exactly_the_expired
              (mk_manager (memory_config 5)
                 [("A", mk_entry "A" "a" 0 0 0 10); ("B", mk_entry "B" "b" 0 0 0 100)]
                 0 0 0 ∅) (clock_of_list [] 50) H) as (Hc & Hr & _).
  split; [rewrite Hr | rewrite Hc]; vm_compute; reflexivity.
Defined.

Lemma entry_just_read_survives_the_next_eviction_witness :
  let cm := mk_manager (memory_config 2)
              [("A", mk_entry "A" "a" 0 0 0 3600); ("B", mk_entry "B" "b" 0 0 0 3600)]
              0 0 0 ∅ in
  let clk := clock_of_list [] 0 in
  map fst (cache (st_of (set Some "C" "c" None (st_of (get "A" cm clk))
                           (clk_of (get "A" cm clk)))))
  = ["A"; "C"] /\
  exists e', od_get "A" (cache (st_of (set Some "C" "c" None (st_of (get "A" cm clk))
                                         (clk_of (get "A" cm clk)))))
             = Some e' /\ value e' = "a".
Proof.
  cbv zeta. split; [vm_compute; reflexivity|].
  assert (Hkeys : NoDup (map fst (cache (mk_manager (memory_config 2)
              [("A", mk_entry "A" "a" 0 0 0 3600); ("B", mk_entry "B" "b" 0 0 0 3600)]
              0 0 0 ∅)))).
  { apply (bool_decide_unpack _). vm_compute. reflexivity. }
  assert (Hlive : sample (clock_of_list [] 0) 0 - 0 <= inject_Z 3600)
    by (apply Qle_bool_iff; vm_compute; reflexivity).
  assert (Hother : "C" <> "A") by discriminate.
  destruct (entry_just_read_survives_the_next_eviction Some
              (mk_manager (memory_config 2)
                 [("A", mk_entry "A" "a" 0 0 0 3600); ("B", mk_entry "B" "b" 0 0 0 3600)]
                 0 0 0 ∅) (clock_of_list [] 0) "A" "C" "c" None
              (mk_entry "A" "a" 0 0 0 3600) eq_refl Hkeys eq_refl Hlive Hother)
    as (_ & He); [cbn; lia | exact He].
Defined.

End cache_manager.

(** * monitoring/metrics_collector.py *)

Module metrics_collector.

Inductive MetricType := COUNTER | GAUGE | HISTOGRAM | TIMER.

Record Metric := mk_metric {
  name : string;
  type : MetricType;
  value : Q;
  timestamp : Q;
  tags : gmap string string
}.

(** [MetricSummary]; the fields [sum], [min] and [max] of the source carry
    an underscore here. *)
Record MetricSummary := mk_summary {
  summary_name : string;
  count : nat;
  sum_ : Q;
  min_ : Q;
  max_ : Q;
  mean : Q;
  median : Q;
  p95 : Q;
  p99 : Q;
  summary_tags : gmap string string
}.

(** The collector: the per-name deques of samples.  The running totals
    of counters and the latest values of gauges play no part in the
    summaries of a metric and are left out. *)
Record MetricsCollector := mk_collector {
  window_size : Z;
  max_samples : Z;
  metrics : gmap string (list Metric)
}.

(** [MetricsCollector.__init__] with its defaults. *)
Definition new_collector : MetricsCollector := mk_collector 300 1000 ∅.

(** [d.append(x)] on a [deque(maxlen=n)]: when full, the oldest sample
    falls out. *)
Definition deque_append (maxlen : nat) (x : Metric) (d : list Metric) : list Metric :=
  let d' := (d ++ [x])%list in
  skipn (length d' - maxlen) d'.

(** [self.metrics[name].append(metric)]: the [defaultdict] creates the
    deque on first use, and [deque(maxlen=...)] rejects a negative bound. *)
Definition append_metric (metric : Metric) : M MetricsCollector unit :=
  (mc <- get_state ;;
   match metrics mc !! name metric with
   | None =>
       if (max_samples mc <? 0)%Z
       then raise (builtin_exn ValueError "maxlen must be non-negative")
       else
         modify (fun mc =>
           mk_collector (window_size mc) (max_samples mc)
             (<[name metric :=
                  deque_append (Z.to_nat (max_samples mc)) metric []]>
                (metrics mc)))
   | Some d =>
       modify (fun mc =>
         mk_collector (window_size mc) (max_samples mc)
           (<[name metric :=
                deque_append (Z.to_nat (max_samples mc)) metric d]>
              (metrics mc)))
   end)%py.

(** [tags or {}]. *)
Definition tags_or_empty (tags : option (gmap string string)) : gmap string string :=
  default ∅ tags.

(** [MetricsCollector.record_histogram]. *)
Definition record_histogram (n : string) (v : Q) (tags : option (gmap string string))
  : M MetricsCollector unit :=
  (t <- now ;;
   append_metric (mk_metric n HISTOGRAM v t (tags_or_empty tags)))%py.

(** [MetricsCollector.record_timer]. *)
Definition record_timer (n : string) (duration : Q) (tags : option (gmap string string))
  : M MetricsCollector unit :=
  (t <- now ;;
   append_metric (mk_metric n TIMER duration t (tags_or_empty tags)))%py.

(** [MetricsCollector._tags_match]. *)
Definition _tags_match (metric_tags : gmap string string)
  (filter_tags : option (gmap string string)) : bool :=
  match filter_tags with
  | None => true
  | Some f =>
      forallb (fun kv => bool_decide (metric_tags !! fst kv = Some (snd kv)))
              (map_to_list f)
  end.

(** [values.sort()]: a stable ascending sort. *)
Fixpoint insert_sorted (x : Q) (l : list Q) : list Q :=
  match l with
  | [] => [x]
  | y :: l' => if Qle_bool x y then x :: l else y :: insert_sorted x l'
  end.

Definition sort (l : list Q) : list Q := fold_right insert_sorted [] l.

(** [l[i]] on a Python list: a negative index counts from the end. *)
Definition py_index (l : list Q) (i : Z) : Res Q :=
  let n := Z.of_nat (length l) in
  if ((0 <=? i) && (i <? n))%Z then Ret (nth (Z.to_nat i) l 0)
  else if ((- n <=? i) && (i <? 0))%Z then Ret (nth (Z.to_nat (n + i)) l 0)
  else Raise (builtin_exn IndexError "list index out of range").

(** [MetricsCollector._percentile]. *)
Definition _percentile (sorted_values : list Q) (percentile : Q) : Res Q :=
  match sorted_values with
  | [] => Ret 0
  | _ =>
      let len := Z.of_nat (length sorted_values) in
      let index := py_int (inject_Z len * percentile) in
      let index := if (len <=? index)%Z then (len - 1)%Z else index in
      py_index sorted_values index
  end.

Definition Qsum (l : list Q) : Q := fold_left Qplus l 0.

(** [min(values)] and [max(values)] on a non-empty list. *)
Definition Qminimum (l : list Q) : Q :=
  match l with
  | [] => 0
  | x :: l' => fold_left Qmin l' x
  end.

Definition Qmaximum (l : list Q) : Q :=
  match l with
  | [] => 0
  | x :: l' => fold_left Qmax l' x
  end.

(** [statistics.median] on a sorted, non-empty list. *)
Definition median_of (l : list Q) : Q :=
  let n := length l in
  if Nat.even n
  then (nth (n / 2 - 1) l 0 + nth (n / 2) l 0) / 2
  else nth (n / 2) l 0.

(** The samples of [name] that [get_metric_summary] keeps at [current_time]. *)
Definition recent_metrics (mc : MetricsCollector) (n : string)
  (filter_tags : option (gmap string string)) (current_time : Q) : list Metric :=
  let window_start := current_time - inject_Z (window_size mc) in
  List.filter
    (fun m => Qle_bool window_start (timestamp m) && _tags_match (tags m) filter_tags)
    (default [] (metrics mc !! n)).

(** [MetricsCollector.get_metric_summary]. *)
Definition get_metric_summary (n : string) (filter_tags : option (gmap string string))
  : M MetricsCollector (option MetricSummary) :=
  (current_time <- now ;;
   mc <- get_state ;;
   let recent := recent_metrics mc n filter_tags current_time in
   match recent with
   | [] => ret None
   | _ =>
       let values := sort (map value recent) in
       q95 <- lift_res (_percentile values (95 # 100)) ;;
       q99 <- lift_res (_percentile values (99 # 100)) ;;
       ret (Some (mk_summary n (length values) (Qsum values) (Qminimum values)
                    (Qmaximum values)
                    (Qsum values / inject_Z (Z.of_nat (length values)))
                    (median_of values) q95 q99 (tags_or_empty filter_tags)))
   end)%py.

(** The nearest-rank index of the specification: [floor(len * p)], clamped
    to the last index. *)
Definition nearest_rank (len : nat) (p : Q) : nat :=
  Nat.min (Z.to_nat (Qfloor (inject_Z (Z.of_nat len) * p))) (len - 1).

(** The scenario of the specification: ten timer samples, then the
    summary of the metric. *)
Definition ten_samples : M MetricsCollector (option MetricSummary) :=
  (record_timer "latency" 1 None ;;
   record_timer "latency" 2 None ;;
   record_timer "latency" 3 None ;;
   record_timer "latency" 4 None ;;
   record_timer "latency" 5 None ;;
   record_timer "latency" 6 None ;;
   record_timer "latency" 7 None ;;
   record_timer "latency" 8 None ;;
   record_timer "latency" 9 None ;;
   record_timer "latency" 10 None ;;
   get_metric_summary "latency" None)%py.

Lemma insert_sorted_sorted x l :
  StronglySorted Qle l -> StronglySorted Qle (insert_sorted x l).
Proof.
  induction 1 as [|y l Hs IH Hy]; cbn.
  - repeat constructor.
  - destruct (Qle_bool x y) eqn:E.
    + apply Qle_bool_iff in E. constructor; [constructor; assumption|].
      constructor; [exact E|].
      eapply Forall_impl; [exact Hy|]. intros z Hz. cbn in Hz. lra.
    + assert (y <= x).
      { destruct (Qlt_le_dec y x) as [H|H]; [lra|].
        apply Qle_bool_iff in H. congruence. }
      constructor; [exact IH|].
      clear IH Hs E. induction l as [|z l IHl]; cbn.
      * constructor; [assumption|constructor].
      * inversion Hy; subst. destruct (Qle_bool x z); constructor; auto.
Qed.

Lemma sort_sorted l : StronglySorted Qle (sort l).
Proof.
  induction l as [|x l IH]; cbn; [constructor|].
  apply insert_sorted_sorted, IH.
Qed.

Lemma insert_sorted_perm x l : Permutation (x :: l) (insert_sorted x l).
Proof.
  induction l as [|y l IH]; cbn; [reflexivity|].
  destruct (Qle_bool x y); [reflexivity|].
  rewrite perm_swap. constructor. exact IH.
Qed.

Lemma sort_perm l : Permutation l (sort l).
Proof.
  induction l as [|x l IH]; cbn; [reflexivity|].
  rewrite <- insert_sorted_perm. constructor. exact IH.
Qed.

Lemma sort_length l : length (sort l) = length l.
Proof. symmetry. apply Permutation_length, sort_perm. Qed.

Lemma py_int_floor x : 0 <= x -> py_int x = Qfloor x.
Proof.
  intros H. destruct x as [n d]. unfold py_int, Qfloor. cbn.
  unfold Qle in H. cbn in H. apply Z.quot_div_nonneg; lia.
Qed.

Lemma percentile_nearest_rank vs p :
  vs <> [] -> 0 <= p ->
  _percentile vs p = Ret (nth (nearest_rank (length vs) p) vs 0).
Proof.
  intros Hne Hp. unfold _percentile, nearest_rank.
  destruct vs as [|v vs']; [contradiction|].
  set (l := v :: vs') in *. clearbody l.
  assert (Hlen : (0 < length l)%nat).
  { destruct l; [contradiction | cbn; lia]. }
  assert (Hx : 0 <= inject_Z (Z.of_nat (length l)) * p).
  { apply Qmult_le_0_compat; [|exact Hp].
    change 0 with (inject_Z 0). rewrite <- Zle_Qle. lia. }
  rewrite py_int_floor by exact Hx.
  assert (Hf : (0 <= Qfloor (inject_Z (Z.of_nat (length l)) * p))%Z).
  { change 0%Z with (Qfloor 0). apply Qfloor_resp_le, Hx. }
  set (i := Qfloor _) in *. unfold py_index.
  destruct (Z.leb_spec (Z.of_nat (length l)) i).
  - replace ((0 <=? Z.of_nat (length l) - 1) && (Z.of_nat (length l) - 1 <? Z.of_nat (length l)))%Z
      with true by (symmetry; apply andb_true_iff; split; [apply Z.leb_le | apply Z.ltb_lt]; lia).
    do 2 f_equal. lia.
  - replace ((0 <=? i) && (i <? Z.of_nat (length l)))%Z
      with true by (symmetry; apply andb_true_iff; split; [apply Z.leb_le | apply Z.ltb_lt]; lia).
    do 2 f_equal. lia.
Qed.

Lemma summary_percentiles mc clk n f :
  let values := sort (map value (recent_metrics mc n f (sample clk 0))) in
  recent_metrics mc n f (sample clk 0) <> [] ->
  exists s,
    get_metric_summary n f mc clk = (Ret (Some s), mc, tick clk) /\
    count s = length values /\
    p95 s = nth (nearest_rank (length values) (95 # 100)) values 0 /\
    p99 s = nth (nearest_rank (length values) (99 # 100)) values 0.
Proof.
  intros values Hne.
  assert (Hv : values <> []).
  { intros E. apply (f_equal (@length Q)) in E. subst values.
    rewrite sort_length, length_map in E.
    destruct (recent_metrics mc n f (sample clk 0)); [contradiction | discriminate]. }
  unfold get_metric_summary, bind, now, get_state, lift_res, ret, time_time.
  change (readings clk (reads clk)) with (sample clk 0).
  destruct (recent_metrics mc n f (sample clk 0)) as [|m ms] eqn:E; [contradiction|].
  fold values.
  rewrite !percentile_nearest_rank by (exact Hv || (unfold Qle; cbn; lia)).
  eexists. split; [reflexivity|]. cbn. auto.
Qed.

Lemma deque_append_room maxlen x d :
  (length d < maxlen)%nat -> deque_append maxlen x d = (d ++ [x])%list.
Proof.
  intros H. unfold deque_append.
  replace (length (d ++ [x]) - maxlen)%nat with 0%nat; [reflexivity|].
  rewrite length_app. cbn. lia.
Qed.

Lemma record_timer_run n v tags mc clk :
  (0 <= max_samples mc)%Z ->
  record_timer n v tags mc clk
  = (Ret tt,
     mk_collector (window_size mc) (max_samples mc)
       (<[n := deque_append (Z.to_nat (max_samples mc))
                 (mk_metric n TIMER v (sample clk 0) (tags_or_empty tags))
                 (default [] (metrics mc !! n))]> (metrics mc)),
     tick clk).
Proof.
  intros H. unfold record_timer, append_metric, bind, now, get_state, modify, raise.
  cbn [time_time name]. 
  destruct (metrics mc !! n) eqn:L; cbn; [reflexivity|].
  destruct (Z.ltb_spec (max_samples mc) 0); [lia | reflexivity].
Qed.

Lemma ten_samples_p95 clk :
  (forall k, (k < 10)%nat -> sample clk 10 - 300 <= sample clk k) ->
  exists s,
    res_of (ten_samples new_collector clk) = Ret (Some s) /\
    count s = 10%nat /\ p95 s = 10.
Proof.
  intros H. unfold ten_samples, new_collector.
  do 10 (erewrite bind_run by (apply record_timer_run; cbn; lia);
         cbn [window_size max_samples metrics];
         rewrite ?lookup_insert_eq, ?lookup_empty, ?insert_insert_eq;
         cbn [default from_option id];
         rewrite deque_append_room by (cbn; lia);
         cbn [app]).
  rewrite !sample_tick.
  assert (Hk : forall k, (k < 10)%nat ->
             Qle_bool (sample clk 10 - inject_Z 300) (sample clk k) = true).
  { intros k Hlt. apply Qle_bool_iff, H, Hlt. }
  match goal with
  | |- context [get_metric_summary _ _ ?mc ?c] =>
      destruct (summary_percentiles mc c "latency" None) as (s & E & Hc & H95 & _);
      [ | exists s; rewrite E; split; [reflexivity|]; revert Hc H95 ]
  end;
    unfold recent_metrics; cbn [metrics window_size]; rewrite lookup_insert_eq;
    cbn [default from_option id List.filter timestamp tags _tags_match];
    rewrite !sample_tick; rewrite !Hk by lia.
  - discriminate.
  - cbn [andb List.filter map value]. intros -> ->. vm_compute. auto.
Qed.

(** C9.  The samples of a metric that lie in the window are sorted
    ascending, and the percentile read off a non-empty sorted list is its
    element at index [floor(len * p)], clamped to the last index; the
    summary's p95 and p99 are those elements for 0.95 and 0.99.  Ten
    timer samples 1, ..., 10 recorded within the window give a p95 of 10.
    (Floats are read as exact rationals; for 0.95 and 0.99 the float
    product [len * p] truncates to the same index for every [len] up to
    two million.) *)
Theorem percentile_is_nearest_rank
  mc clk n f (vs : list Q) (p : Q) clk'
  (Hrecent : recent_metrics mc n f (sample clk 0) <> [])
  (Hvs : vs <> []) (Hp : 0 <= p)
  (Hwindow : forall k, (k < 10)%nat -> sample clk' 10 - 300 <= sample clk' k) :
  let values := sort (map value (recent_metrics mc n f (sample clk 0))) in
  (StronglySorted Qle values /\
   Permutation (map value (recent_metrics mc n f (sample clk 0))) values) /\
  _percentile vs p = Ret (nth (nearest_rank (length vs) p) vs 0) /\
  (exists s,
     get_metric_summary n f mc clk = (Ret (Some s), mc, tick clk) /\
     count s = length values /\
     p95 s = nth (nearest_rank (length values) (95 # 100)) values 0 /\
     p99 s = nth (nearest_rank (length values) (99 # 100)) values 0) /\
  (exists s,
     res_of (ten_samples new_collector clk') = Ret (Some s) /\
     count s = 10%nat /\ p95 s = 10).
Proof.
  intros values. split; [split|split; [|split]].
  - apply sort_sorted.
  - apply sort_perm.
  - apply percentile_nearest_rank; assumption.
  - apply summary_percentiles, Hrecent.
  - apply ten_samples_p95, Hwindow.
Qed.

(** A collector that holds one sample of the metric ["m"]. *)
Definition one_sample : MetricsCollector :=
  mk_collector 300 1000 {["m" := [mk_metric "m" TIMER 5 0 ∅]]}.

Lemma percentile_is_nearest_rank_witness :
  (recent_metrics one_sample "m" None (sample (clock_of_list [] 0) 0) <> [] /\
   [1; 2; 3] <> [] /\ 0 <= 1 # 2) /\
  _percentile [1; 2; 3] (1 # 2) = Ret 2 /\
  (exists s,
     res_of (ten_samples new_collector (clock_of_list [] 0)) = Ret (Some s) /\
     count s = 10%nat /\ p95 s = 10).
Proof.
  assert (H1 : recent_metrics one_sample "m" None (sample (clock_of_list [] 0) 0) <> [])
    by (vm_compute; discriminate).
  assert (H2 : [1; 2; 3] <> []) by discriminate.
  assert (H3 : 0 <= 1 # 2) by (unfold Qle; simpl; lia).
  assert (H4 : forall k, (k < 10)%nat ->
             sample (clock_of_list [] 0) 10 - 300 <= sample (clock_of_list [] 0) k).
  { intros k _. unfold sample, clock_of_list. cbn [readings reads].
    rewrite Nat.add_0_r. destruct k; unfold Qle; simpl; lia. }
  split; [repeat split; assumption|].
  destruct (percentile_is_nearest_rank one_sample (clock_of_list [] 0) "m" None
              [1; 2; 3] (1 # 2) (clock_of_list [] 0) H1 H2 H3 H4)
    as (_ & Hperc & _ & Hten).
  split; [exact Hperc | exact Hten].
Defined.

(** ** Further properties of the collector *)

(** [MetricsCollector.clear_old_metrics].  [deque(iterable, maxlen=n)]
    keeps the last [n] items and refuses a negative [n]; the loop runs
    over [list(self.metrics.keys())]. *)
Definition deque_of (maxlen : nat) (l : list Metric) : list Metric :=
  skipn (length l - maxlen) l.

Fixpoint clear_loop (window_start : Q) (names : list string) : M MetricsCollector unit :=
  match names with
  | [] => ret tt
  | n :: rest =>
      (mc <- get_state ;;
       if (max_samples mc <? 0)%Z
       then raise (builtin_exn ValueError "maxlen must be non-negative")
       else
         let kept :=
           deque_of (Z.to_nat (max_samples mc))
             (List.filter (fun m => Qle_bool window_start (timestamp m))
                          (default [] (metrics mc !! n))) in
         modify (fun mc =>
           mk_collector (window_size mc) (max_samples mc)
             (match kept with
              | [] => delete n (metrics mc)
              | _ => <[n := kept]> (metrics mc)
              end)) ;;
         clear_loop window_start rest)%py
  end.

Definition clear_old_metrics : M MetricsCollector unit :=
  (current_time <- now ;;
   mc <- get_state ;;
   let window_start := current_time - inject_Z (window_size mc) in
   clear_loop window_start (map fst (map_to_list (metrics mc))))%py.

(** A recording call, and a sequence of them. *)
Inductive Recording :=
| Timer (n : string) (duration : Q) (tags : option (gmap string string))
| Histogram (n : string) (v : Q) (tags : option (gmap string string)).

Definition record (r : Recording) : M MetricsCollector unit :=
  match r with
  | Timer n duration tags => record_timer n duration tags
  | Histogram n v tags => record_histogram n v tags
  end.

Fixpoint record_all (rs : list Recording) : M MetricsCollector unit :=
  match rs with
  | [] => ret tt
  | r :: rs' => (record r ;; record_all rs')%py
  end.

(** The sample a recording call makes at time [t], and the samples of a
    sequence of calls, each stamped with its own reading of the clock. *)
Definition metric_of (r : Recording) (t : Q) : Metric :=
  match r with
  | Timer n duration tags => mk_metric n TIMER duration t (tags_or_empty tags)
  | Histogram n v tags => mk_metric n HISTOGRAM v t (tags_or_empty tags)
  end.

Fixpoint samples_of (rs : list Recording) (clk : Clock) : list Metric :=
  match rs with
  | [] => []
  | r :: rs' => metric_of r (sample clk 0) :: samples_of rs' (tick clk)
  end.

Definition named (n : string) (l : list Metric) : list Metric :=
  List.filter (fun m => String.eqb (name m) n) l.

Lemma deque_of_short maxlen l :
  (length l <= maxlen)%nat -> deque_of maxlen l = l.
Proof.
  intros H. unfold deque_of.
  replace (length l - maxlen)%nat with 0%nat by lia. reflexivity.
Qed.

Lemma deque_of_length maxlen l : (length (deque_of maxlen l) <= maxlen)%nat.
Proof. unfold deque_of. rewrite length_skipn. lia. Qed.

Lemma deque_of_app maxlen a b :
  deque_of maxlen (deque_of maxlen a ++ b) = deque_of maxlen (a ++ b).
Proof.
  unfold deque_of.
  destruct (Nat.le_gt_cases (length a) maxlen) as [H|H].
  - replace (length a - maxlen)%nat with 0%nat by lia. reflexivity.
  - set (a2 := skipn (length a - maxlen) a).
    set (a1 := firstn (length a - maxlen) a).
    assert (H1 : length a1 = (length a - maxlen)%nat)
      by (unfold a1; rewrite length_firstn; lia).
    assert (H2 : length a2 = maxlen)
      by (unfold a2; rewrite length_skipn; lia).
    assert (Ha : a = (a1 ++ a2)%list) by (symmetry; apply firstn_skipn).
    clearbody a1 a2. subst a.
    rewrite <- app_assoc, !length_app, H2.
    replace (length a1 + (maxlen + length b) - maxlen)%nat
      with (length a1 + length b)%nat by lia.
    replace (maxlen + length b - maxlen)%nat with (length b) by lia.
    rewrite (skipn_app (length a1 + length b) a1).
    rewrite (skipn_all2 a1) by lia.
    replace (length a1 + length b - length a1)%nat with (length b) by lia.
    reflexivity.
Qed.

Lemma deque_append_deque_of maxlen x d :
  deque_append maxlen x d = deque_of maxlen (d ++ [x]).
Proof. reflexivity. Qed.

Lemma record_histogram_run n v tags mc clk :
  (0 <= max_samples mc)%Z ->
  record_histogram n v tags mc clk
  = (Ret tt,
     mk_collector (window_size mc) (max_samples mc)
       (<[n := deque_append (Z.to_nat (max_samples mc))
                 (mk_metric n HISTOGRAM v (sample clk 0) (tags_or_empty tags))
                 (default [] (metrics mc !! n))]> (metrics mc)),
     tick clk).
Proof.
  intros H. unfold record_histogram, append_metric, bind, now, get_state, modify, raise.
  cbn [time_time name].
  destruct (metrics mc !! n) eqn:L; cbn; [reflexivity|].
  destruct (Z.ltb_spec (max_samples mc) 0); [lia | reflexivity].
Qed.

Lemma record_run r mc clk :
  (0 <= max_samples mc)%Z ->
  record r mc clk
  = (Ret tt,
     mk_collector (window_size mc) (max_samples mc)
       (<[name (metric_of r 0) :=
            deque_of (Z.to_nat (max_samples mc))
              (default [] (metrics mc !! name (metric_of r 0))
               ++ [metric_of r (sample clk 0)])]> (metrics mc)),
     tick clk).
Proof.
  intros H. destruct r; cbn [record metric_of name].
  - rewrite record_timer_run by exact H. reflexivity.
  - rewrite record_histogram_run by exact H. reflexivity.
Qed.

Lemma metric_of_name r t : name (metric_of r t) = name (metric_of r 0).
Proof. destruct r; reflexivity. Qed.

Lemma ticks_succ k clk : ticks k (tick clk) = ticks (S k) clk.
Proof. unfold ticks, tick. cbn. f_equal. lia. Qed.

(** X20.  Recording never fails on a collector whose [max_samples] is not
    negative, and after any sequence of [record_timer] and
    [record_histogram] calls the deque of a metric holds the latest
    [max_samples] of its samples, old and new, in the order they were
    recorded: the oldest ones are the ones dropped, and the deque never
    grows beyond [max_samples]. *)
Theorem deque_holds_the_latest_samples mc clk rs n
  (Hmax : (0 <= max_samples mc)%Z)
  (Hlen : (length (default [] (metrics mc !! n)) <= Z.to_nat (max_samples mc))%nat) :
  let out := record_all rs mc clk in
  let d := default [] (metrics (st_of out) !! n) in
  res_of out = Ret tt /\
  clk_of out = ticks (length rs) clk /\
  window_size (st_of out) = window_size mc /\
  max_samples (st_of out) = max_samples mc /\
  d = deque_of (Z.to_nat (max_samples mc))
        (default [] (metrics mc !! n) ++ named n (samples_of rs clk)) /\
  (length d <= Z.to_nat (max_samples mc))%nat.
Proof.
  cbn zeta. revert mc clk Hmax Hlen.
  induction rs as [|r rs IH]; intros mc clk Hmax Hlen.
  - cbn. rewrite app_nil_r, deque_of_short by exact Hlen.
    repeat split; try reflexivity; [destruct clk; reflexivity | exact Hlen].
  - cbn [record_all]. erewrite bind_run by (apply record_run, Hmax).
    set (mc1 := mk_collector _ _ _).
    assert (Hmax1 : (0 <= max_samples mc1)%Z) by exact Hmax.
    assert (Hd1 : default [] (metrics mc1 !! n)
                  = if String.eqb (name (metric_of r 0)) n
                    then deque_of (Z.to_nat (max_samples mc))
                           (default [] (metrics mc !! n) ++ [metric_of r (sample clk 0)])
                    else default [] (metrics mc !! n)).
    { unfold mc1. cbn [metrics].
      destruct (String.eqb_spec (name (metric_of r 0)) n) as [->|Hne].
      - rewrite lookup_insert_eq. reflexivity.
      - rewrite lookup_insert_ne by exact Hne. reflexivity. }
    assert (Hlen1 : (length (default [] (metrics mc1 !! n))
                     <= Z.to_nat (max_samples mc1))%nat).
    { rewrite Hd1. destruct (String.eqb _ n); [apply deque_of_length | exact Hlen]. }
    destruct (IH mc1 (tick clk) Hmax1 Hlen1) as (G1 & G2 & G3 & G4 & G5 & G6).
    repeat split; try assumption.
    + rewrite G2. cbn [length]. apply ticks_succ.
    + rewrite G5. change (max_samples mc1) with (max_samples mc).
      rewrite Hd1. cbn [samples_of named List.filter].
      rewrite (metric_of_name r (sample clk 0)).
      destruct (String.eqb (name (metric_of r 0)) n).
      * rewrite deque_of_app, <- app_assoc. reflexivity.
      * reflexivity.
Qed.

(** The samples are held sorted, so a later index reads a larger value. *)
Lemma sorted_nth l : StronglySorted Qle l ->
  forall i j, (i <= j < length l)%nat -> nth i l 0 <= nth j l 0.
Proof.
  induction 1 as [|x l Hs IH Hx]; intros i j Hij; cbn in Hij; [lia|].
  destruct i, j; cbn; try lia.
  - lra.
  - rewrite List.Forall_forall in Hx. apply Hx, nth_In. lia.
  - apply IH. lia.
Qed.

Lemma fold_min_spec l : forall x,
  fold_left Qmin l x <= x /\
  (forall y, In y l -> fold_left Qmin l x <= y) /\
  In (fold_left Qmin l x) (x :: l).
Proof.
  induction l as [|y l IH]; intros x; cbn [fold_left].
  - repeat split; [lra | intros y [] | left; reflexivity].
  - destruct (IH (Qmin x y)) as (H1 & H2 & H3).
    pose proof (Q.le_min_l x y). pose proof (Q.le_min_r x y).
    repeat split.
    + lra.
    + intros z [<-|Hz]; [lra | apply H2, Hz].
    + destruct H3 as [H3|H3]; [|right; right; exact H3].
      rewrite <- H3. unfold Qmin, GenericMinMax.gmin.
      destruct (Qcompare x y); [left | left | right; left]; reflexivity.
Qed.

Lemma fold_max_spec l : forall x,
  x <= fold_left Qmax l x /\
  (forall y, In y l -> y <= fold_left Qmax l x) /\
  In (fold_left Qmax l x) (x :: l).
Proof.
  induction l as [|y l IH]; intros x; cbn [fold_left].
  - repeat split; [lra | intros y [] | left; reflexivity].
  - destruct (IH (Qmax x y)) as (H1 & H2 & H3).
    pose proof (Q.le_max_l x y). pose proof (Q.le_max_r x y).
    repeat split.
    + lra.
    + intros z [<-|Hz]; [lra | apply H2, Hz].
    + destruct H3 as [H3|H3]; [|right; right; exact H3].
      rewrite <- H3. unfold Qmax, GenericMinMax.gmax.
      destruct (Qcompare x y); [left | right; left | left]; reflexivity.
Qed.

Lemma Qminimum_spec l : l <> [] ->
  In (Qminimum l) l /\ forall y, In y l -> Qminimum l <= y.
Proof.
  destruct l as [|x l]; [congruence|]. intros _. cbn [Qminimum].
  destruct (fold_min_spec l x) as (H1 & H2 & H3).
  split; [exact H3|]. intros y [<-|Hy]; [exact H1 | apply H2, Hy].
Qed.

Lemma Qmaximum_spec l : l <> [] ->
  In (Qmaximum l) l /\ forall y, In y l -> y <= Qmaximum l.
Proof.
  destruct l as [|x l]; [congruence|]. intros _. cbn [Qmaximum].
  destruct (fold_max_spec l x) as (H1 & H2 & H3).
  split; [exact H3|]. intros y [<-|Hy]; [exact H1 | apply H2, Hy].
Qed.

Lemma fold_plus_bounds lo hi l : forall a,
  (forall x, In x l -> lo <= x <= hi) ->
  a + lo * inject_Z (Z.of_nat (length l)) <= fold_left Qplus l a /\
  fold_left Qplus l a <= a + hi * inject_Z (Z.of_nat (length l)).
Proof.
  induction l as [|y l IH]; intros a H; cbn [fold_left length].
  - change (inject_Z (Z.of_nat 0)) with 0. split; lra.
  - destruct (IH (a + y)) as (H1 & H2); [intros x Hx; apply H; right; exact Hx|].
    destruct (H y) as (Hy1 & Hy2); [left; reflexivity|].
    rewrite Nat2Z.inj_succ. unfold Z.succ. rewrite inject_Z_plus.
    change (inject_Z 1) with 1.
    set (k := inject_Z (Z.of_nat (length l))) in *. clearbody k.
    split; lra.
Qed.

Lemma nearest_rank_lt len p : (0 < len)%nat -> (nearest_rank len p < len)%nat.
Proof. unfold nearest_rank. lia. Qed.

Lemma nearest_rank_mono len p q :
  (0 < len)%nat -> p <= q -> (nearest_rank len p <= nearest_rank len q)%nat.
Proof.
  intros Hlen Hpq. unfold nearest_rank.
  assert (H : (Qfloor (inject_Z (Z.of_nat len) * p)
               <= Qfloor (inject_Z (Z.of_nat len) * q))%Z).
  { apply Qfloor_resp_le. apply Qmult_le_l; [|exact Hpq].
    change 0 with (inject_Z 0). rewrite <- Zlt_Qlt. lia. }
  lia.
Qed.

Lemma median_of_bounds lo hi l :
  l <> [] -> (forall x, In x l -> lo <= x <= hi) -> lo <= median_of l <= hi.
Proof.
  intros Hne H. unfold median_of.
  assert (Hlen : (0 < length l)%nat) by (destruct l; [congruence | cbn; lia]).
  assert (Hhalf : (length l / 2 < length l)%nat)
    by (apply Nat.div_lt; lia).
  destruct (Nat.even (length l)).
  - destruct (H (nth (length l / 2 - 1) l 0)) as (A1 & A2); [apply nth_In; lia|].
    destruct (H (nth (length l / 2) l 0)) as (B1 & B2); [apply nth_In; lia|].
    set (a := nth (length l / 2 - 1) l 0) in *.
    set (b := nth (length l / 2) l 0) in *. clearbody a b.
    split.
    + apply Qle_shift_div_l; lra.
    + apply Qle_shift_div_r; lra.
  - apply H, nth_In. lia.
Qed.

(** What [get_metric_summary] returns when the window holds samples. *)
Lemma get_metric_summary_run mc clk n f :
  let recent := recent_metrics mc n f (sample clk 0) in
  let values := sort (map value recent) in
  recent <> [] ->
  get_metric_summary n f mc clk
  = (Ret (Some (mk_summary n (length values) (Qsum values) (Qminimum values)
                  (Qmaximum values)
                  (Qsum values / inject_Z (Z.of_nat (length values)))
                  (median_of values)
                  (nth (nearest_rank (length values) (95 # 100)) values 0)
                  (nth (nearest_rank (length values) (99 # 100)) values 0)
                  (tags_or_empty f))),
     mc, tick clk).
Proof.
  intros recent values Hne.
  assert (Hv : values <> []).
  { intros E. apply (f_equal (@length Q)) in E. subst values.
    rewrite sort_length, length_map in E.
    destruct recent; [contradiction | discriminate]. }
  unfold get_metric_summary, bind, now, get_state, lift_res, ret, time_time.
  change (readings clk (reads clk)) with (sample clk 0).
  fold recent. destruct recent as [|m ms] eqn:E; [contradiction|].
  fold values.
  rewrite !percentile_nearest_rank by (exact Hv || (unfold Qle; cbn; lia)).
  reflexivity.
Qed.

Lemma get_metric_summary_none mc clk n f :
  recent_metrics mc n f (sample clk 0) = [] ->
  get_metric_summary n f mc clk = (Ret None, mc, tick clk).
Proof.
  intros E.
  unfold get_metric_summary, bind, now, get_state, lift_res, ret, time_time.
  change (readings clk (reads clk)) with (sample clk 0).
  rewrite E. reflexivity.
Qed.

(** X21.  [get_metric_summary] never raises and never changes the
    collector.  It returns None exactly when no sample of the metric lies
    in the window and matches the tags; otherwise [count] is the number of
    those samples, [min] and [max] are the least and the greatest of their
    values, and mean, median, p95 and p99 all lie between [min] and [max],
    with p95 <= p99. *)
Theorem summary_statistics_are_ordered mc clk n f :
  let recent := recent_metrics mc n f (sample clk 0) in
  exists r,
    get_metric_summary n f mc clk = (Ret r, mc, tick clk) /\
    match r with
    | None => recent = []
    | Some s =>
        recent <> [] /\
        count s = length recent /\
        (exists m, In m recent /\ min_ s = value m) /\
        (exists m, In m recent /\ max_ s = value m) /\
        (forall m, In m recent -> min_ s <= value m <= max_ s) /\
        min_ s <= mean s <= max_ s /\
        min_ s <= median s <= max_ s /\
        min_ s <= p95 s /\ p95 s <= p99 s /\ p99 s <= max_ s
    end.
Proof.
  intros recent. subst recent.
  destruct (recent_metrics mc n f (sample clk 0)) as [|m0 ms] eqn:E.
  { exists None. split; [apply get_metric_summary_none, E | reflexivity]. }
  assert (Hne : recent_metrics mc n f (sample clk 0) <> []).
  { rewrite E. discriminate. }
  eexists. split; [apply get_metric_summary_run, Hne|].
  rewrite <- E in *.
  set (recent := recent_metrics mc n f (sample clk 0)) in *.
  set (values := sort (map value recent)).
  cbn [count min_ max_ mean median p95 p99].
  assert (Hlen : length values = length recent)
    by (unfold values; rewrite sort_length, length_map; reflexivity).
  assert (Hpos : (0 < length values)%nat)
    by (rewrite Hlen; destruct recent; [congruence | cbn; lia]).
  assert (Hv : values <> []) by (destruct values; [cbn in Hpos; lia | discriminate]).
  assert (Hin : forall x, In x values <-> exists m, In m recent /\ x = value m).
  { intros x. unfold values. split.
    - intros Hx. apply (Permutation_in _ (Permutation_sym (sort_perm _))) in Hx.
      apply in_map_iff in Hx. destruct Hx as (m & <- & Hm). eauto.
    - intros (m & Hm & ->). apply (Permutation_in _ (sort_perm _)).
      apply in_map, Hm. }
  destruct (Qminimum_spec values Hv) as (Hmin_in & Hmin).
  destruct (Qmaximum_spec values Hv) as (Hmax_in & Hmax).
  assert (Hb : forall x, In x values -> Qminimum values <= x <= Qmaximum values)
    by (intros x Hx; split; [apply Hmin | apply Hmax]; exact Hx).
  assert (Hsorted : StronglySorted Qle values) by apply sort_sorted.
  pose proof (nearest_rank_lt (length values) (95 # 100) Hpos) as H95.
  pose proof (nearest_rank_lt (length values) (99 # 100) Hpos) as H99.
  assert (Hmono : (nearest_rank (length values) (95 # 100)
                   <= nearest_rank (length values) (99 # 100))%nat)
    by (apply nearest_rank_mono; [exact Hpos | unfold Qle; cbn; lia]).
  split; [exact Hne|]. split; [exact Hlen|].
  split; [apply Hin, Hmin_in|]. split; [apply Hin, Hmax_in|].
  split; [intros m Hm; apply Hb, Hin; eauto|].
  split.
  { destruct (fold_plus_bounds (Qminimum values) (Qmaximum values) values 0 Hb)
      as (S1 & S2).
    fold (Qsum values) in S1, S2.
    assert (Hk : 0 < inject_Z (Z.of_nat (length values))).
    { change 0 with (inject_Z 0). rewrite <- Zlt_Qlt. lia. }
    split.
    - apply Qle_shift_div_l; [exact Hk | lra].
    - apply Qle_shift_div_r; [exact Hk | lra]. }
  split; [apply median_of_bounds; assumption|].
  split; [apply Hb, nth_In; exact H95|].
  split; [apply sorted_nth; [exact Hsorted | lia]|].
  apply Hb, nth_In; exact H99.
Qed.

Lemma tags_match_subseteq (metric_tags g : gmap string string) :
  _tags_match metric_tags (Some g) = true <-> g ⊆ metric_tags.
Proof.
  unfold _tags_match. rewrite forallb_forall, map_subseteq_spec. split.
  - intros H k v Hk.
    specialize (H (k, v)). cbn in H.
    eapply bool_decide_eq_true_1, H.
    apply list_elem_of_In. apply elem_of_map_to_list. exact Hk.
  - intros H [k v] Hkv. cbn.
    apply bool_decide_eq_true_2, H.
    apply elem_of_map_to_list. apply list_elem_of_In. exact Hkv.
Qed.

(** The samples a summary is computed from are those of the
    metric's deque that are no older than [window_size] seconds and whose
    tags contain every pair of the filter; no filter, or an empty one,
    matches every sample (also the untagged ones). *)
Theorem summary_takes_the_samples_that_carry_the_filter_tags mc n f t m :
  (In m (recent_metrics mc n f t) <->
   In m (default [] (metrics mc !! n)) /\
   t - inject_Z (window_size mc) <= timestamp m /\
   match f with
   | None => True
   | Some g => g ⊆ tags m
   end) /\
  recent_metrics mc n (Some ∅) t = recent_metrics mc n None t.
Proof.
  split.
  - unfold recent_metrics. rewrite filter_In, andb_true_iff, Qle_bool_iff.
    destruct f as [g|].
    + rewrite tags_match_subseteq. tauto.
    + cbn. tauto.
  - reflexivity.
Qed.

Lemma clear_loop_run window_start names : forall mc clk,
  (0 <= max_samples mc)%Z -> NoDup names ->
  exists mc',
    clear_loop window_start names mc clk = (Ret tt, mc', clk) /\
    window_size mc' = window_size mc /\
    max_samples mc' = max_samples mc /\
    forall k,
      metrics mc' !! k
      = if bool_decide (k ∈ names)
        then match deque_of (Z.to_nat (max_samples mc))
                     (List.filter (fun m => Qle_bool window_start (timestamp m))
                                  (default [] (metrics mc !! k))) with
             | [] => None
             | d => Some d
             end
        else metrics mc !! k.
Proof.
  induction names as [|n rest IH]; intros mc clk Hmax Hnd.
  - exists mc. cbn. repeat split; reflexivity.
  - apply NoDup_cons in Hnd. destruct Hnd as (Hn & Hrest).
    cbn [clear_loop]. unfold bind at 1, get_state at 1.
    destruct (Z.ltb_spec (max_samples mc) 0); [lia|].
    unfold bind at 1, modify at 1.
    set (kept := deque_of _ _).
    set (mc1 := mk_collector _ _ _).
    destruct (IH mc1 clk Hmax Hrest) as (mc' & E & Hw & Hm & Hl).
    exists mc'. split; [exact E|]. split; [exact Hw|]. split; [exact Hm|].
    intros k. rewrite Hl. change (max_samples mc1) with (max_samples mc).
    destruct (String.eqb_spec k n) as [->|Hkn].
    + rewrite (bool_decide_eq_false_2 (n ∈ rest)) by exact Hn.
      rewrite (bool_decide_eq_true_2 (n ∈ n :: rest)) by (apply elem_of_cons; left; reflexivity).
      unfold mc1. cbn [metrics]. fold kept.
      destruct kept; [apply lookup_delete_eq | apply lookup_insert_eq].
    + assert (Hl1 : metrics mc1 !! k = metrics mc !! k).
      { unfold mc1. cbn [metrics].
        destruct kept; [apply lookup_delete_ne | apply lookup_insert_ne]; congruence. }
      rewrite Hl1.
      destruct (bool_decide (k ∈ rest)) eqn:B.
      * apply bool_decide_eq_true in B.
        rewrite (bool_decide_eq_true_2 (k ∈ n :: rest))
          by (apply elem_of_cons; right; exact B).
        reflexivity.
      * apply bool_decide_eq_false in B.
        rewrite (bool_decide_eq_false_2 (k ∈ n :: rest))
          by (rewrite elem_of_cons; intros [?|?]; [congruence | contradiction]).
        reflexivity.
Qed.

Lemma clear_old_metrics_run mc clk :
  (0 <= max_samples mc)%Z ->
  exists mc',
    clear_old_metrics mc clk = (Ret tt, mc', tick clk) /\
    window_size mc' = window_size mc /\
    max_samples mc' = max_samples mc /\
    forall k,
      metrics mc' !! k
      = match deque_of (Z.to_nat (max_samples mc))
                (List.filter
                   (fun m => Qle_bool (sample clk 0 - inject_Z (window_size mc))
                                      (timestamp m))
                   (default [] (metrics mc !! k))) with
        | [] => None
        | d => Some d
        end.
Proof.
  intros Hmax. unfold clear_old_metrics, bind at 1, now, time_time.
  change (readings clk (reads clk)) with (sample clk 0).
  unfold bind at 1, get_state at 1.
  destruct (clear_loop_run (sample clk 0 - inject_Z (window_size mc))
              (map fst (map_to_list (metrics mc))) mc (tick clk) Hmax)
    as (mc' & E & Hw & Hm & Hl).
  { apply NoDup_fst_map_to_list. }
  exists mc'. split; [exact E|]. split; [exact Hw|]. split; [exact Hm|].
  intros k. rewrite Hl.
  destruct (bool_decide (k ∈ map fst (map_to_list (metrics mc)))) eqn:B;
    [reflexivity|].
  apply bool_decide_eq_false in B.
  destruct (metrics mc !! k) as [d|] eqn:L; [|reflexivity].
  exfalso. apply B. apply list_elem_of_In, in_map_iff.
  exists (k, d). split; [reflexivity|].
  apply list_elem_of_In, elem_of_map_to_list, L.
Qed.

Lemma filter_filter_implied {A} (p q : A -> bool) l :
  (forall x, p x = true -> q x = true) ->
  List.filter p (List.filter q l) = List.filter p l.
Proof.
  intros H. induction l as [|x l IH]; cbn; [reflexivity|].
  destruct (q x) eqn:Q; cbn.
  - rewrite IH. reflexivity.
  - destruct (p x) eqn:P; [rewrite (H x P) in Q; discriminate | exact IH].
Qed.

Lemma filter_length_le {A} (p : A -> bool) l :
  (length (List.filter p l) <= length l)%nat.
Proof. induction l as [|x l IH]; cbn; [lia|]. destruct (p x); cbn; lia. Qed.

Lemma get_metric_summary_recent mc mc' clk clk' n f :
  recent_metrics mc' n f (sample clk' 0) = recent_metrics mc n f (sample clk 0) ->
  res_of (get_metric_summary n f mc' clk') = res_of (get_metric_summary n f mc clk).
Proof.
  intros E.
  destruct (recent_metrics mc n f (sample clk 0)) as [|m ms] eqn:R.
  - rewrite (get_metric_summary_none mc' clk') by exact E.
    rewrite (get_metric_summary_none mc clk) by exact R. reflexivity.
  - rewrite (get_metric_summary_run mc' clk') by (rewrite E; discriminate).
    rewrite (get_metric_summary_run mc clk) by (rewrite R; discriminate).
    cbn zeta. rewrite E, R. reflexivity.
Qed.

(** X22.  On a collector whose deques are within [max_samples],
    [clear_old_metrics] succeeds, keeps of every deque exactly the samples
    no older than the window, in order, drops the names left without
    samples, and changes no summary asked for afterwards (the clock not
    running backwards): [get_metric_summary] returns what it would have
    returned without the clearing. *)
Theorem clear_old_metrics_keeps_later_summaries mc clk n f
  (Hmax : (0 <= max_samples mc)%Z)
  (Hlen : forall k d, metrics mc !! k = Some d ->
                      (length d <= Z.to_nat (max_samples mc))%nat)
  (Hclock : sample clk 0 <= sample clk 1) :
  let out := clear_old_metrics mc clk in
  let window_start := sample clk 0 - inject_Z (window_size mc) in
  res_of out = Ret tt /\
  clk_of out = tick clk /\
  (forall k,
     metrics (st_of out) !! k
     = match List.filter (fun m => Qle_bool window_start (timestamp m))
                         (default [] (metrics mc !! k)) with
       | [] => None
       | d => Some d
       end) /\
  res_of (get_metric_summary n f (st_of out) (clk_of out))
  = res_of (get_metric_summary n f mc (tick clk)).
Proof.
  cbn zeta.
  destruct (clear_old_metrics_run mc clk Hmax) as (mc' & E & Hw & Hm & Hl).
  rewrite E. cbn [res_of st_of clk_of fst snd].
  assert (Hl' : forall k,
     metrics mc' !! k
     = match List.filter
               (fun m => Qle_bool (sample clk 0 - inject_Z (window_size mc)) (timestamp m))
               (default [] (metrics mc !! k)) with
       | [] => None
       | d => Some d
       end).
  { intros k. rewrite Hl, deque_of_short; [reflexivity|].
    etransitivity; [apply filter_length_le|].
    destruct (metrics mc !! k) as [d|] eqn:L; cbn; [eapply Hlen, L | lia]. }
  repeat split; try exact Hl'.
  apply get_metric_summary_recent.
  unfold recent_metrics. rewrite Hw, Hl'.
  rewrite sample_tick in *.
  set (q := fun m => Qle_bool (sample clk 0 - inject_Z (window_size mc)) (timestamp m)).
  set (p := fun m => Qle_bool (sample clk 1 - inject_Z (window_size mc)) (timestamp m)
                     && _tags_match (tags m) f).
  transitivity (List.filter p (List.filter q (default [] (metrics mc !! n)))).
  { destruct (List.filter q (default [] (metrics mc !! n))); reflexivity. }
  apply filter_filter_implied. intros x Hx. unfold p, q in *.
  apply andb_true_iff in Hx. destruct Hx as (Hx & _).
  apply Qle_bool_iff in Hx. apply Qle_bool_iff. lra.
Qed.

(** A collector that keeps two samples of a metric. *)
Definition small_collector : MetricsCollector := mk_collector 300 2 ∅.

Lemma deque_holds_the_latest_samples_witness :
  default []
    (metrics
       (st_of (record_all [Timer "m" 1 None; Histogram "m" 2 None; Timer "m" 3 None]
                 small_collector (clock_of_list [] 0))) !! "m")
  = [mk_metric "m" HISTOGRAM 2 0 ∅; mk_metric "m" TIMER 3 0 ∅].
Proof.
  destruct (deque_holds_the_latest_samples small_collector (clock_of_list [] 0)
              [Timer "m" 1 None; Histogram "m" 2 None; Timer "m" 3 None] "m")
    as (_ & _ & _ & _ & H & _).
  - cbn. lia.
  - vm_compute. lia.
  - rewrite H. reflexivity.
Defined.

(** A collector with a stale and a fresh sample of the metric ["m"]. *)
Definition stale_and_fresh : MetricsCollector :=
  mk_collector 300 1000
    {["m" := [mk_metric "m" TIMER 5 0 ∅; mk_metric "m" TIMER 7 400 ∅]]}.

Lemma clear_old_metrics_keeps_later_summaries_witness :
  let out := clear_old_metrics stale_and_fresh (clock_of_list [] 500) in
  metrics (st_of out) !! "m" = Some [mk_metric "m" TIMER 7 400 ∅] /\
  res_of (get_metric_summary "m" None (st_of out) (clk_of out))
  = res_of (get_metric_summary "m" None stale_and_fresh
              (tick (clock_of_list [] 500))).
Proof.
  cbn zeta.
  destruct (clear_old_metrics_keeps_later_summaries stale_and_fresh
              (clock_of_list [] 500) "m" None)
    as (_ & _ & Hk & Hs).
  - cbn. lia.
  - intros k d H. unfold stale_and_fresh in H. cbn [metrics max_samples] in *.
    apply lookup_singleton_Some in H. destruct H as (_ & <-). cbn. lia.
  - apply Qle_bool_iff. vm_compute. reflexivity.
  - split; [rewrite Hk; vm_compute; reflexivity | exact Hs].
Defined.

End metrics_collector.

(** * The Python library functions the sources call

    [str.encode], [bytes.decode], [hashlib.sha256] and [json.dumps] are
    not part of the repository; they are modelled here as far as the
    sources use them, on strings of code points 0..255. *)

Module pylib.

(** The byte of a number below 256. *)
Definition byte_of_N (n : N) : byte :=
  match Byte.of_N n with
  | Some b => b
  | None => x00
  end.

(** [s.encode('utf-8')]: one byte for a code point below 128, two for the
    others. *)
Definition utf8_encode_char (c : ascii) : list byte :=
  let n := N_of_ascii c in
  if (n <? 128)%N then [byte_of_N n]
  else [byte_of_N (192 + n / 64); byte_of_N (128 + n mod 64)].

Fixpoint utf8_encode (s : string) : list byte :=
  match s with
  | EmptyString => []
  | String c s' => (utf8_encode_char c ++ utf8_encode s')%list
  end.

(** [b.decode('utf-8')]; [None] stands for a [UnicodeDecodeError].  A
    valid sequence for a code point above 255 has no counterpart in the
    string model and is refused as well. *)
Fixpoint utf8_decode (b : list byte) : option string :=
  match b with
  | [] => Some EmptyString
  | b1 :: rest =>
      let n := Byte.to_N b1 in
      if (n <? 128)%N then option_map (String (ascii_of_N n)) (utf8_decode rest)
      else if ((n =? 194) || (n =? 195))%N then
        match rest with
        | b2 :: rest' =>
            let m := Byte.to_N b2 in
            if ((128 <=? m) && (m <? 192))%N
            then option_map (String (ascii_of_N ((n - 192) * 64 + (m - 128))))
                            (utf8_decode rest')
            else None
        | [] => None
        end
      else None
  end.

(** ** hashlib.sha256 *)

Definition add32 (x y : Z) : Z := ((x + y) mod 4294967296)%Z.

Definition rotr (n x : Z) : Z :=
  Z.lor (Z.shiftr x n) (Z.land (Z.shiftl x (32 - n)) 4294967295).

Definition Ch (x y z : Z) : Z :=
  Z.lxor (Z.land x y) (Z.land (Z.lxor x 4294967295) z).

Definition Maj (x y z : Z) : Z :=
  Z.lxor (Z.lxor (Z.land x y) (Z.land x z)) (Z.land y z).

Definition Sigma0 (x : Z) : Z := Z.lxor (Z.lxor (rotr 2 x) (rotr 13 x)) (rotr 22 x).
Definition Sigma1 (x : Z) : Z := Z.lxor (Z.lxor (rotr 6 x) (rotr 11 x)) (rotr 25 x).
Definition sigma0 (x : Z) : Z := Z.lxor (Z.lxor (rotr 7 x) (rotr 18 x)) (Z.shiftr x 3).
Definition sigma1 (x : Z) : Z := Z.lxor (Z.lxor (rotr 17 x) (rotr 19 x)) (Z.shiftr x 10).

(** The first [count] prime numbers (up to 311). *)
Definition is_prime (n : Z) : bool :=
  forallb (fun d => negb (n mod Z.of_nat d =? 0)%Z) (seq 2 (Z.to_nat n - 2)).

Definition primes (count : nat) : list Z :=
  firstn count (List.filter is_prime (map Z.of_nat (seq 2 310))).

(** The integer cube root, one bit at a time from bit [bits - 1] down. *)
Fixpoint icbrt (bits : nat) (n root : Z) : Z :=
  match bits with
  | O => root
  | S b =>
      let candidate := (root + 2 ^ Z.of_nat b)%Z in
      icbrt b n (if (candidate * candidate * candidate <=? n)%Z then candidate else root)
  end.

(** The first 32 bits of the fractional part of the cube root and of the
    square root of [p]. *)
Definition cbrt_frac32 (p : Z) : Z := (icbrt 36 (p * 2 ^ 96) 0 mod 2 ^ 32)%Z.
Definition sqrt_frac32 (p : Z) : Z := (Z.sqrt (p * 2 ^ 64) mod 2 ^ 32)%Z.

(** The round constants and the initial hash value of SHA-256: the
    fractional parts of the cube roots of the first 64 primes and of the
    square roots of the first 8. *)
Definition sha256_K : list Z := Eval vm_compute in map cbrt_frac32 (primes 64).

Definition sha256_H0 : list Z := Eval vm_compute in map sqrt_frac32 (primes 8).

(** The padded message: a 1 bit, zeros up to 56 modulo 64, and the length
    in bits as a big-endian 64-bit number. *)
Definition be_bytes (width : nat) (x : Z) : list Z :=
  map (fun i => (Z.shiftr x (8 * Z.of_nat i) mod 256)%Z) (rev (seq 0 width)).

Definition sha256_pad (msg : list Z) : list Z :=
  let len := Z.of_nat (length msg) in
  (msg ++ [128%Z] ++ repeat 0%Z (Z.to_nat ((55 - len) mod 64)) ++ be_bytes 8 (8 * len))%list.

(** Big-endian 32-bit words of a list of bytes. *)
Fixpoint be_words (fuel : nat) (b : list Z) : list Z :=
  match fuel, b with
  | S fuel', b0 :: b1 :: b2 :: b3 :: rest =>
      (((b0 * 256 + b1) * 256 + b2) * 256 + b3)%Z :: be_words fuel' rest
  | _, _ => []
  end.

(** The message schedule, extended by [n] words. *)
Fixpoint schedule (n : nat) (w : list Z) : list Z :=
  match n with
  | O => w
  | S n' =>
      let t := length w in
      let x := add32 (add32 (sigma1 (nth (t - 2) w 0%Z)) (nth (t - 7) w 0%Z))
                     (add32 (sigma0 (nth (t - 15) w 0%Z)) (nth (t - 16) w 0%Z)) in
      schedule n' (w ++ [x])
  end.

Definition sha256_round (st : list Z) (kw : Z * Z) : list Z :=
  match st with
  | [a; b; c; d; e; f; g; h] =>
      let t1 := add32 (add32 (add32 h (Sigma1 e)) (add32 (Ch e f g) (fst kw))) (snd kw) in
      let t2 := add32 (Sigma0 a) (Maj a b c) in
      [add32 t1 t2; a; b; c; add32 d t1; e; f; g]
  | _ => st
  end.

Definition sha256_block (h : list Z) (block : list Z) : list Z :=
  let w := schedule 48 (be_words 16 block) in
  let st := fold_left sha256_round (combine sha256_K w) h in
  map (fun p => add32 (fst p) (snd p)) (combine h st).

Fixpoint sha256_blocks (fuel : nat) (h : list Z) (msg : list Z) : list Z :=
  match fuel, msg with
  | S fuel', _ :: _ => sha256_blocks fuel' (sha256_block h (firstn 64 msg)) (skipn 64 msg)
  | _, _ => h
  end.

Definition hex_digit (d : Z) : ascii :=
  ascii_of_N (Z.to_N (if (d <? 10)%Z then 48 + d else 87 + d)).

Fixpoint hex_word (digits : nat) (x : Z) (acc : string) : string :=
  match digits with
  | O => acc
  | S n => hex_word n (x / 16)%Z (String (hex_digit (x mod 16)%Z) acc)
  end.

(** [hashlib.sha256(b).hexdigest()]. *)
Definition sha256_hexdigest (b : list byte) : string :=
  let msg := sha256_pad (map (fun x => Z.of_N (Byte.to_N x)) b) in
  let h := sha256_blocks (length msg) sha256_H0 msg in
  fold_right (fun w acc => hex_word 8 w acc) EmptyString h.


(** ** json.dumps *)

(** The values [json.dumps] serialises.  A float is given by the text
    [json.dumps] prints for it ([float.__repr__], which determines the
    float); the keys of a dict are strings, in insertion order. *)
#[warnings="-register-all"]
Inductive pyval :=
| PNone
| PBool (b : bool)
| PInt (z : Z)
| PFloat (repr : string)
| PStr (s : string)
| PList (l : list pyval)
| PDict (d : list (string * pyval)).

Definition dquote : string := String (ascii_of_N 34) EmptyString.
Definition backslash : string := String (ascii_of_N 92) EmptyString.

(** One character of a string under [ensure_ascii=True]. *)
Definition escape_char (c : ascii) : string :=
  let n := N_of_ascii c in
  if (n =? 34)%N then backslash ++ dquote
  else if (n =? 92)%N then backslash ++ backslash
  else if (n =? 10)%N then backslash ++ "n"
  else if (n =? 13)%N then backslash ++ "r"
  else if (n =? 9)%N then backslash ++ "t"
  else if (n =? 12)%N then backslash ++ "f"
  else if (n =? 8)%N then backslash ++ "b"
  else if ((n <? 32) || (126 <? n))%N
       then backslash ++ "u" ++ hex_word 4 (Z.of_N n) EmptyString
  else String c EmptyString.

Fixpoint escape_string (s : string) : string :=
  match s with
  | EmptyString => EmptyString
  | String c s' => escape_char c ++ escape_string s'
  end.

Definition encode_basestring_ascii (s : string) : string :=
  dquote ++ escape_string s ++ dquote.

(** [sorted(dct.items())] on rendered items: a stable sort by key. *)
Fixpoint insert_item (kv : string * string) (l : list (string * string))
  : list (string * string) :=
  match l with
  | [] => [kv]
  | kv' :: l' =>
      if String.leb (fst kv) (fst kv') then kv :: l else kv' :: insert_item kv l'
  end.

Definition sort_items (l : list (string * string)) : list (string * string) :=
  fold_right insert_item [] l.

(** [json.dumps(v, sort_keys=..., ensure_ascii=True)], with the default
    separators. *)
Fixpoint dumps (sort_keys : bool) (v : pyval) : string :=
  match v with
  | PNone => "null"
  | PBool true => "true"
  | PBool false => "false"
  | PInt z => NilZero.string_of_int (Z.to_int z)
  | PFloat repr => repr
  | PStr s => encode_basestring_ascii s
  | PList l => "[" ++ String.concat ", " (map (dumps sort_keys) l) ++ "]"
  | PDict d =>
      let items := map (fun kv => let '(k, x) := kv in (k, dumps sort_keys x)) d in
      let items := if sort_keys then sort_items items else items in
      "{" ++ String.concat ", "
               (map (fun kv => encode_basestring_ascii (fst kv) ++ ": " ++ snd kv) items)
          ++ "}"
  end.

(** ** json.loads *)

(** A reader for the texts [json.dumps] prints: [None] stands for a
    [JSONDecodeError].  A float is returned by its text, and a [\u] escape
    above 255 has no counterpart in the string model. *)

Definition is_ws (c : ascii) : bool :=
  let n := N_of_ascii c in
  ((n =? 32) || (n =? 9) || (n =? 10) || (n =? 13))%N.

Fixpoint skip_ws (s : string) : string :=
  match s with
  | String c s' => if is_ws c then skip_ws s' else s
  | EmptyString => s
  end.

Definition hex_value (c : ascii) : option N :=
  let n := N_of_ascii c in
  if ((48 <=? n) && (n <=? 57))%N then Some (n - 48)%N
  else if ((97 <=? n) && (n <=? 102))%N then Some (n - 87)%N
  else if ((65 <=? n) && (n <=? 70))%N then Some (n - 55)%N
  else None.

(** The body of a string, after its opening quote. *)
Fixpoint read_string (s : string) : option (string * string) :=
  match s with
  | EmptyString => None
  | String c s' =>
      let n := N_of_ascii c in
      if (n =? 34)%N then Some (EmptyString, s')
      else if (n =? 92)%N then
        match s' with
        | String e s'' =>
            let k := N_of_ascii e in
            let plain (x : N) :=
              option_map (fun r => (String (ascii_of_N x) (fst r), snd r))
                         (read_string s'') in
            if (k =? 34)%N then plain 34%N
            else if (k =? 92)%N then plain 92%N
            else if (k =? 47)%N then plain 47%N
            else if (k =? 98)%N then plain 8%N
            else if (k =? 102)%N then plain 12%N
            else if (k =? 110)%N then plain 10%N
            else if (k =? 114)%N then plain 13%N
            else if (k =? 116)%N then plain 9%N
            else if (k =? 117)%N then
              match s'' with
              | String h1 (String h2 (String h3 (String h4 rest))) =>
                  match hex_value h1, hex_value h2, hex_value h3, hex_value h4 with
                  | Some a, Some b, Some c', Some d =>
                      let x := (((a * 16 + b) * 16 + c') * 16 + d)%N in
                      if (x <? 256)%N
                      then option_map
                             (fun r => (String (ascii_of_N x) (fst r), snd r))
                             (read_string rest)
                      else None
                  | _, _, _, _ => None
                  end
              | _ => None
              end
            else None
        | EmptyString => None
        end
      else if (n <? 32)%N then None
      else option_map (fun r => (String c (fst r), snd r)) (read_string s')
  end.

Definition is_digit (c : ascii) : bool :=
  let n := N_of_ascii c in ((48 <=? n) && (n <=? 57))%N.

(** The longest prefix of digits, and the rest. *)
Fixpoint read_digits (s : string) : string * string :=
  match s with
  | String c s' =>
      if is_digit c
      then let r := read_digits s' in (String c (fst r), snd r)
      else (EmptyString, s)
  | EmptyString => (EmptyString, s)
  end.

Fixpoint digits_value (s : string) (acc : Z) : option Z :=
  match s with
  | EmptyString => Some acc
  | String c s' =>
      if is_digit c
      then digits_value s' (10 * acc + Z.of_N (N_of_ascii c) - 48)%Z
      else None
  end.

(** The number at the head of a text as the scanner matches it, and the
    rest of the text: an optional minus sign; a zero, or a digit from 1
    to 9 followed by digits; optionally a point and digits; optionally
    [e] or [E], a sign and digits.  The number is an int when there is
    neither fraction nor exponent. *)
Definition read_number (s : string) : option (pyval * string) :=
  let '(negative, s1) :=
    match s with
    | String c r => if (N_of_ascii c =? 45)%N then (true, r) else (false, s)
    | EmptyString => (false, s)
    end in
  match s1 with
  | String c r =>
      if is_digit c then
        let '(int_part, s2) :=
          if (N_of_ascii c =? 48)%N then ("0", r) else read_digits s1 in
        let '(frac, s3) :=
          match s2 with
          | String d r2 =>
              if (N_of_ascii d =? 46)%N then
                match read_digits r2 with
                | (EmptyString, _) => (EmptyString, s2)
                | (ds, r3) => (String d ds, r3)
                end
              else (EmptyString, s2)
          | EmptyString => (EmptyString, s2)
          end in
        let '(exponent, s4) :=
          match s3 with
          | String e r3 =>
              if ((N_of_ascii e =? 101) || (N_of_ascii e =? 69))%N then
                let '(sg, r4) :=
                  match r3 with
                  | String x r4 =>
                      if ((N_of_ascii x =? 43) || (N_of_ascii x =? 45))%N
                      then (String x EmptyString, r4)
                      else (EmptyString, r3)
                  | EmptyString => (EmptyString, r3)
                  end in
                match read_digits r4 with
                | (EmptyString, _) => (EmptyString, s3)
                | (ds, r5) => (String e (sg ++ ds), r5)
                end
              else (EmptyString, s3)
          | EmptyString => (EmptyString, s3)
          end in
        match frac, exponent with
        | EmptyString, EmptyString =>
            option_map (fun z => (PInt (if negative then - z else z)%Z, s4))
                       (digits_value int_part 0)
        | _, _ =>
            Some (PFloat ((if negative then "-" else "") ++ int_part ++ frac ++ exponent),
                  s4)
        end
      else None
  | EmptyString => None
  end.

(** [d[k] = v] while an object is read: a repeated key keeps its place and
    takes the later value. *)
Fixpoint dict_set (k : string) (v : pyval) (d : list (string * pyval)) :=
  match d with
  | [] => [(k, v)]
  | (k', v') :: d' => if String.eqb k k' then (k, v) :: d' else (k', v') :: dict_set k v d'
  end.

Definition starts_with (prefix s : string) : option string :=
  if String.prefix prefix s
  then Some (String.substring (String.length prefix)
                              (String.length s - String.length prefix) s)
  else None.

Fixpoint read_value (fuel : nat) (s : string) : option (pyval * string) :=
  match fuel with
  | O => None
  | S fuel' =>
      match skip_ws s with
      | EmptyString => None
      | String c rest as t =>
          let n := N_of_ascii c in
          if (n =? 34)%N then
            option_map (fun r => (PStr (fst r), snd r)) (read_string rest)
          else if (n =? 91)%N then
            match skip_ws rest with
            | String c' rest' as t' =>
                if (N_of_ascii c' =? 93)%N then Some (PList [], rest')
                else
                  (fix elems (k : nat) (s : string) (acc : list pyval) :=
                     match k with
                     | O => None
                     | S k' =>
                         match read_value fuel' s with
                         | Some (v, r) =>
                             match skip_ws r with
                             | String d r' =>
                                 if (N_of_ascii d =? 44)%N then elems k' r' (v :: acc)
                                 else if (N_of_ascii d =? 93)%N
                                      then Some (PList (rev (v :: acc)), r')
                                      else None
                             | EmptyString => None
                             end
                         | None => None
                         end
                     end) fuel' t' []
            | EmptyString => None
            end
          else if (n =? 123)%N then
            match skip_ws rest with
            | String c' rest' as t' =>
                if (N_of_ascii c' =? 125)%N then Some (PDict [], rest')
                else
                  (fix members (k : nat) (s : string) (acc : list (string * pyval)) :=
                     match k with
                     | O => None
                     | S k' =>
                         match skip_ws s with
                         | String q s1 =>
                             if (N_of_ascii q =? 34)%N then
                               match read_string s1 with
                               | Some (key, s2) =>
                                   match skip_ws s2 with
                                   | String colon s3 =>
                                       if (N_of_ascii colon =? 58)%N then
                                         match read_value fuel' s3 with
                                         | Some (v, r) =>
                                             match skip_ws r with
                                             | String d r' =>
                                                 if (N_of_ascii d =? 44)%N
                                                 then members k' r' (dict_set key v acc)
                                                 else if (N_of_ascii d =? 125)%N
                                                      then Some (PDict (dict_set key v acc), r')
                                                      else None
                                             | EmptyString => None
                                             end
                                         | None => None
                                         end
                                       else None
                                   | EmptyString => None
                                   end
                               | None => None
                               end
                             else None
                         | EmptyString => None
                         end
                     end) fuel' t' []
            | EmptyString => None
            end
          else
            match starts_with "null" t, starts_with "true" t, starts_with "false" t with
            | Some r, _, _ => Some (PNone, r)
            | _, Some r, _ => Some (PBool true, r)
            | _, _, Some r => Some (PBool false, r)
            | _, _, _ =>
                match read_number t with
                | Some r => Some r
                | None =>
                    match starts_with "NaN" t, starts_with "Infinity" t,
                          starts_with "-Infinity" t with
                    | Some r, _, _ => Some (PFloat "NaN", r)
                    | _, Some r, _ => Some (PFloat "Infinity", r)
                    | _, _, Some r => Some (PFloat "-Infinity", r)
                    | _, _, _ => None
                    end
                end
            end
      end
  end.

(** [json.loads(s)]. *)
Definition loads (s : string) : option pyval :=
  match read_value (S (String.length s)) s with
  | Some (v, r) =>
      match skip_ws r with
      | EmptyString => Some v
      | _ => None
      end
  | None => None
  end.

(** [lia] reads division and remainder by a constant. *)
#[local] Ltac Zify.zify_post_hook ::= Z.to_euclidean_division_equations.

Lemma to_N_byte_of_N n : (n < 256)%N -> Byte.to_N (byte_of_N n) = n.
Proof.
  intros H. unfold byte_of_N. destruct (Byte.of_N n) as [b|] eqn:E.
  - apply Byte.to_of_N, E.
  - apply Byte.of_N_None_iff in E. lia.
Qed.

Lemma byte_of_N_to_N b : byte_of_N (Byte.to_N b) = b.
Proof. unfold byte_of_N. rewrite Byte.of_to_N. reflexivity. Qed.

Lemma utf8_char_roundtrip c rest :
  utf8_decode (utf8_encode_char c ++ rest) = option_map (String c) (utf8_decode rest).
Proof.
  unfold utf8_encode_char.
  pose proof (N_ascii_bounded c) as Hb.
  pose proof (ascii_N_embedding c) as Hc.
  set (n := N_of_ascii c) in *.
  destruct (N.ltb_spec n 128) as [Hlt|Hge].
  - cbn [app utf8_decode]. rewrite to_N_byte_of_N by lia.
    destruct (N.ltb_spec n 128); [|lia]. rewrite Hc. reflexivity.
  - assert (Hq : (n / 64 = 2 \/ n / 64 = 3)%N).
    { assert (2 <= n / 64)%N by (apply N.div_le_lower_bound; lia).
      assert (n / 64 < 4)%N by (apply N.Div0.div_lt_upper_bound; lia). lia. }
    assert (Hm : (n mod 64 < 64)%N) by (apply N.mod_lt; lia).
    assert (Hn : (n = 64 * (n / 64) + n mod 64)%N) by (apply N.div_mod; lia).
    cbn [app utf8_decode].
    rewrite (to_N_byte_of_N (192 + n / 64)) by lia.
    rewrite (to_N_byte_of_N (128 + n mod 64)) by lia.
    destruct (N.ltb_spec (192 + n / 64) 128); [lia|].
    replace ((192 + n / 64 =? 194) || (192 + n / 64 =? 195))%N with true
      by (destruct Hq as [-> | ->]; reflexivity).
    destruct (N.leb_spec 128 (128 + n mod 64)); [|lia].
    destruct (N.ltb_spec (128 + n mod 64) 192); [|lia].
    cbn [andb].
    replace ((192 + n / 64 - 192) * 64 + (128 + n mod 64 - 128))%N with n by lia.
    rewrite Hc. reflexivity.
Qed.

Lemma utf8_roundtrip s : utf8_decode (utf8_encode s) = Some s.
Proof.
  induction s as [|c s IH]; [reflexivity|].
  cbn [utf8_encode]. rewrite utf8_char_roundtrip, IH. reflexivity.
Qed.

End pylib.

(** * cache/cache_key.py *)

Module cache_key.
Import pylib.

(** [kwargs.get(key, default)]. *)
Fixpoint kwargs_get (key : string) (default : pyval) (kwargs : list (string * pyval))
  : pyval :=
  match kwargs with
  | [] => default
  | (k, v) :: kwargs' => if String.eqb key k then v else kwargs_get key default kwargs'
  end.

(** The dict [cache_data] of [generate_cache_key]. *)
Definition cache_data (model : string) (messages : list pyval)
  (kwargs : list (string * pyval)) : pyval :=
  PDict [("model", PStr model);
         ("messages", PList messages);
         ("temperature", kwargs_get "temperature" (PFloat "0.7") kwargs);
         ("max_tokens", kwargs_get "max_tokens" PNone kwargs);
         ("top_p", kwargs_get "top_p" PNone kwargs)].

(** [generate_cache_key]. *)
Definition generate_cache_key (model : string) (messages : list pyval)
  (kwargs : list (string * pyval)) : string :=
  let cache_str := dumps true (cache_data model messages kwargs) in
  sha256_hexdigest (utf8_encode cache_str).

(** The message list of the specification's example. *)
Definition hi : list pyval :=
  [PDict [("role", PStr "user"); ("content", PStr "hi")]].

Lemma kwargs_get_perm key dflt kw kw' :
  NoDup (map fst kw) -> Permutation kw kw' ->
  kwargs_get key dflt kw = kwargs_get key dflt kw'.
Proof.
  intros Hnd Hp.
  induction Hp as [| [k v] l l' Hp IH | [k1 v1] [k2 v2] l | l1 l2 l3 H12 IH12 H23 IH23].
  - reflexivity.
  - cbn in *. apply NoDup_cons in Hnd as [_ Hnd]. rewrite IH by assumption.
    reflexivity.
  - cbn in *. apply NoDup_cons in Hnd as [Hnotin _].
    destruct (String.eqb_spec key k1), (String.eqb_spec key k2); subst;
      try reflexivity.
    exfalso. apply Hnotin. constructor.
  - rewrite IH12 by assumption. apply IH23.
    pose proof (Permutation_map fst H12) as Hm. rewrite <- Hm. exact Hnd.
Qed.

Lemma kwargs_get_other key dflt k v kw :
  key <> k -> kwargs_get key dflt ((k, v) :: kw) = kwargs_get key dflt kw.
Proof.
  intros H. cbn. destruct (String.eqb_spec key k); [contradiction | reflexivity].
Qed.

Lemma key_of_relevant_kwargs model messages kw1 kw2 :
  kwargs_get "temperature" (PFloat "0.7") kw1
  = kwargs_get "temperature" (PFloat "0.7") kw2 ->
  kwargs_get "max_tokens" PNone kw1 = kwargs_get "max_tokens" PNone kw2 ->
  kwargs_get "top_p" PNone kw1 = kwargs_get "top_p" PNone kw2 ->
  generate_cache_key model messages kw1 = generate_cache_key model messages kw2.
Proof.
  intros Ht Hm Hp. unfold generate_cache_key, cache_data.
  rewrite Ht, Hm, Hp. reflexivity.
Qed.

(** C7.  The key is a function of the model, the messages and the
    effective temperature (0.7 when absent), max_tokens and top_p: two
    calls that agree on these return the same digest, so reordering the
    keyword arguments, or adding one with another name, changes nothing;
    for the model ["m"] and the one message "hi" of the user the digests
    for the temperatures 0.7 and 0.8 are the two SHA-256 values below,
    which differ, and leaving the temperature out gives the first. *)
Theorem generate_cache_key_deterministic
  model messages kw1 kw2 k v
  (Ht : kwargs_get "temperature" (PFloat "0.7") kw1
        = kwargs_get "temperature" (PFloat "0.7") kw2)
  (Hm : kwargs_get "max_tokens" PNone kw1 = kwargs_get "max_tokens" PNone kw2)
  (Hp : kwargs_get "top_p" PNone kw1 = kwargs_get "top_p" PNone kw2)
  (Hk : k <> "temperature" /\ k <> "max_tokens" /\ k <> "top_p") :
  generate_cache_key model messages kw1 = generate_cache_key model messages kw2 /\
  (forall kw, NoDup (map fst kw1) -> Permutation kw1 kw ->
     generate_cache_key model messages kw = generate_cache_key model messages kw1) /\
  generate_cache_key model messages ((k, v) :: kw1)
  = generate_cache_key model messages kw1 /\
  generate_cache_key "m" hi [("temperature", PFloat "0.7")]
  = "bfe58788a84cb89dc187624fa1817e2399afacbd935771ad6929fb500d7a372b" /\
  generate_cache_key "m" hi [("temperature", PFloat "0.8")]
  = "fa5ee2cd93465215a31e748ee974be234d40ae9c658bd9015016fd060f86d8ec" /\
  generate_cache_key "m" hi [("temperature", PFloat "0.7")]
  <> generate_cache_key "m" hi [("temperature", PFloat "0.8")] /\
  generate_cache_key "m" hi []
  = generate_cache_key "m" hi [("temperature", PFloat "0.7")].
Proof.
  assert (E7 : generate_cache_key "m" hi [("temperature", PFloat "0.7")]
               = "bfe58788a84cb89dc187624fa1817e2399afacbd935771ad6929fb500d7a372b")
    by (vm_compute; reflexivity).
  assert (E8 : generate_cache_key "m" hi [("temperature", PFloat "0.8")]
               = "fa5ee2cd93465215a31e748ee974be234d40ae9c658bd9015016fd060f86d8ec")
    by (vm_compute; reflexivity).
  split; [apply key_of_relevant_kwargs; assumption|].
  split.
  { intros kw Hnd Hperm. symmetry.
    apply key_of_relevant_kwargs; apply kwargs_get_perm; assumption. }
  split.
  { destruct Hk as (H1 & H2 & H3).
    apply key_of_relevant_kwargs; apply kwargs_get_other; congruence. }
  split; [exact E7|]. split; [exact E8|]. split.
  - rewrite E7, E8. discriminate.
  - apply key_of_relevant_kwargs; reflexivity.
Qed.

Lemma generate_cache_key_deterministic_witness :
  ("stream" <> "temperature" /\ "stream" <> "max_tokens" /\ "stream" <> "top_p") /\
  generate_cache_key "m" hi [("top_p", PFloat "0.9"); ("user", PStr "u")]
  = generate_cache_key "m" hi
      [("user", PStr "x"); ("temperature", PFloat "0.7"); ("top_p", PFloat "0.9")] /\
  generate_cache_key "m" hi
    [("stream", PBool true); ("top_p", PFloat "0.9"); ("user", PStr "u")]
  = generate_cache_key "m" hi [("top_p", PFloat "0.9"); ("user", PStr "u")].
Proof.
  assert (Hk : "stream" <> "temperature" /\ "stream" <> "max_tokens" /\
               "stream" <> "top_p") by (repeat split; discriminate).
  split; [exact Hk|].
  destruct (generate_cache_key_deterministic "m" hi
              [("top_p", PFloat "0.9"); ("user", PStr "u")]
              [("user", PStr "x"); ("temperature", PFloat "0.7"); ("top_p", PFloat "0.9")]
              "stream" (PBool true) eq_refl eq_refl eq_refl Hk)
    as (H1 & _ & H3 & _).
  split; [exact H1 | exact H3].
Defined.

End cache_key.

(** * ipc/protocol.py *)

Module protocol.
Import pylib.

Inductive MessageType := REQUEST | RESPONSE | REGISTER | HEARTBEAT | ERROR.

(** The value of a member of the [IntEnum]. *)
Definition type_value (t : MessageType) : N :=
  match t with
  | REQUEST => 1
  | RESPONSE => 2
  | REGISTER => 3
  | HEARTBEAT => 4
  | ERROR => 5
  end.

(** [MessageType(n)]. *)
Definition MessageType_of (n : N) : Res MessageType :=
  if (n =? 1)%N then Ret REQUEST
  else if (n =? 2)%N then Ret RESPONSE
  else if (n =? 3)%N then Ret REGISTER
  else if (n =? 4)%N then Ret HEARTBEAT
  else if (n =? 5)%N then Ret ERROR
  else Raise (builtin_exn ValueError
                (NilEmpty.string_of_uint (N.to_uint n) ++ " is not a valid MessageType")).

(** The field [data]: [bytes], or a dict, a string or another value. *)
Inductive Payload :=
| Bytes (b : list byte)
| Value (v : pyval).

Record Message := mk_message {
  msg_type : MessageType;
  id : string;
  service : string;
  method : string;
  data : Payload;
  metadata : pyval
}.

(** [struct.pack('<I', n)]. *)
Definition pack_u32 (n : nat) : Res (list byte) :=
  let x := N.of_nat n in
  if (x <? 4294967296)%N
  then Ret [byte_of_N (x mod 256); byte_of_N (x / 256 mod 256);
            byte_of_N (x / 65536 mod 256); byte_of_N (x / 16777216 mod 256)]
  else Raise (builtin_exn StructError "'I' format requires 0 <= number <= 4294967295").

(** [struct.unpack('<I', b)[0]]. *)
Definition unpack_u32 (b : list byte) : Res N :=
  match b with
  | [b0; b1; b2; b3] =>
      Ret (Byte.to_N b0 + 256 * Byte.to_N b1 + 65536 * Byte.to_N b2
           + 16777216 * Byte.to_N b3)%N
  | _ => Raise (builtin_exn StructError "unpack requires a buffer of 4 bytes")
  end.

(** [data[lo:hi]] for [0 <= lo <= hi]: a slice stops at the end of the
    data. *)
Definition slice (data : list byte) (lo hi : nat) : list byte :=
  firstn (hi - lo) (skipn lo data).

(** [b.decode('utf-8')]. *)
Definition decode_utf8 (b : list byte) : Res string :=
  match utf8_decode b with
  | Some s => Ret s
  | None => Raise (builtin_exn UnicodeDecodeError "'utf-8' codec can't decode bytes")
  end.

Definition res_bind {A B} (r : Res A) (k : A -> Res B) : Res B :=
  match r with
  | Ret a => k a
  | Raise e => Raise e
  end.

Notation "x <-- c1 ;; c2" := (res_bind c1 (fun x => c2))
  (at level 100, c1 at next level, right associativity) : py_scope.

Section codec.

(** [json.loads] ([None] for a [JSONDecodeError]), and [str(v)] for a
    payload that is neither bytes, dict nor string. *)
Variable json_loads : string -> option pyval.
Variable py_str : pyval -> string.

(** The bytes of the field [data]. *)
Definition data_bytes_of (p : Payload) : list byte :=
  match p with
  | Value (PDict d) => utf8_encode (dumps false (PDict d))
  | Value (PStr s) => utf8_encode s
  | Bytes b => b
  | Value v => utf8_encode (py_str v)
  end.

(** The [bytearray] [content] of [encode_message], given the five length
    prefixes. *)
Definition content_of (msg : Message) (h_id h_service h_method h_metadata h_data : list byte)
  : list byte :=
  ([byte_of_N (type_value (msg_type msg))]
   ++ h_id ++ utf8_encode (id msg)
   ++ h_service ++ utf8_encode (service msg)
   ++ h_method ++ utf8_encode (method msg)
   ++ h_metadata ++ utf8_encode (dumps false (metadata msg))
   ++ h_data ++ data_bytes_of (data msg))%list.

(** [encode_message]. *)
Definition encode_message (msg : Message) : Res (list byte) :=
  (let data_bytes := data_bytes_of (data msg) in
   let id_bytes := utf8_encode (id msg) in
   let service_bytes := utf8_encode (service msg) in
   let method_bytes := utf8_encode (method msg) in
   let metadata_json := utf8_encode (dumps false (metadata msg)) in
   h_id <-- pack_u32 (length id_bytes) ;;
   h_service <-- pack_u32 (length service_bytes) ;;
   h_method <-- pack_u32 (length method_bytes) ;;
   h_metadata <-- pack_u32 (length metadata_json) ;;
   h_data <-- pack_u32 (length data_bytes) ;;
   let content := content_of msg h_id h_service h_method h_metadata h_data in
   header <-- pack_u32 (length content) ;;
   Ret (header ++ content)%list)%py.

(** [decode_message]. *)
Definition decode_message (data : list byte) : Res Message :=
  (let offset := 0%nat in
   first <-- match nth_error data offset with
             | Some b => Ret (Byte.to_N b)
             | None => Raise (builtin_exn IndexError "index out of range")
             end ;;
   msg_type <-- MessageType_of first ;;
   let offset := (offset + 1)%nat in
   id_len <-- unpack_u32 (slice data offset (offset + 4)) ;;
   let offset := (offset + 4)%nat in
   msg_id <-- decode_utf8 (slice data offset (offset + N.to_nat id_len)) ;;
   let offset := (offset + N.to_nat id_len)%nat in
   service_len <-- unpack_u32 (slice data offset (offset + 4)) ;;
   let offset := (offset + 4)%nat in
   service <-- decode_utf8 (slice data offset (offset + N.to_nat service_len)) ;;
   let offset := (offset + N.to_nat service_len)%nat in
   method_len <-- unpack_u32 (slice data offset (offset + 4)) ;;
   let offset := (offset + 4)%nat in
   method <-- decode_utf8 (slice data offset (offset + N.to_nat method_len)) ;;
   let offset := (offset + N.to_nat method_len)%nat in
   metadata_len <-- unpack_u32 (slice data offset (offset + 4)) ;;
   let offset := (offset + 4)%nat in
   metadata_json <-- decode_utf8 (slice data offset (offset + N.to_nat metadata_len)) ;;
   metadata <-- match metadata_json with
                | EmptyString => Ret (PDict [])
                | _ =>
                    match json_loads metadata_json with
                    | Some v => Ret v
                    | None => Raise (builtin_exn JSONDecodeError "Expecting value")
                    end
                end ;;
   let offset := (offset + N.to_nat metadata_len)%nat in
   data_len <-- unpack_u32 (slice data offset (offset + 4)) ;;
   let offset := (offset + 4)%nat in
   let data_bytes := slice data offset (offset + N.to_nat data_len) in
   let data_obj :=
     match utf8_decode data_bytes with
     | Some text =>
         match json_loads text with
         | Some v => Value v
         | None => Bytes data_bytes
         end
     | None => Bytes data_bytes
     end in
   Ret (mk_message msg_type msg_id service method data_obj metadata))%py.

End codec.

(** A request with a dict payload and one metadata entry. *)
Definition ping : Message :=
  mk_message REQUEST "42" "ai" "chat"
    (Value (PDict [("model", PStr "m"); ("stream", PBool false)]))
    (PDict [("client", PStr "c1")]).

(** [str(v)] plays no part for the payloads considered. *)
Definition no_str (v : pyval) : string := EmptyString.

#[local] Ltac Zify.zify_post_hook ::= Z.to_euclidean_division_equations.

Lemma pack_u32_length n b : pack_u32 n = Ret b -> length b = 4%nat.
Proof.
  unfold pack_u32. destruct (N.ltb_spec (N.of_nat n) 4294967296); [|discriminate].
  intros [= <-]. reflexivity.
Qed.

Lemma unpack_pack_u32 n b : pack_u32 n = Ret b -> unpack_u32 b = Ret (N.of_nat n).
Proof.
  unfold pack_u32. destruct (N.ltb_spec (N.of_nat n) 4294967296) as [H|]; [|discriminate].
  intros [= <-]. set (x := N.of_nat n) in *. unfold unpack_u32.
  rewrite !to_N_byte_of_N by (apply N.mod_lt; lia).
  f_equal. lia.
Qed.

Lemma slice_field (pre h body rest : list byte) :
  length h = 4%nat ->
  slice (pre ++ h ++ body ++ rest) (length pre) (length pre + 4) = h /\
  slice (pre ++ h ++ body ++ rest) (length pre + 4) (length pre + 4 + length body)
  = body.
Proof.
  intros Hh. unfold slice. split.
  - replace (length pre + 4 - length pre)%nat with (length h) by lia.
    rewrite drop_app_length. apply take_app_length.
  - replace (length pre + 4 + length body - (length pre + 4))%nat
      with (length body) by lia.
    replace (pre ++ h ++ body ++ rest)%list with ((pre ++ h) ++ body ++ rest)%list
      by (rewrite <- app_assoc; reflexivity).
    replace (length pre + 4)%nat with (length (pre ++ h))
      by (rewrite length_app; lia).
    rewrite drop_app_length. apply take_app_length.
Qed.

Section roundtrip.
Variable json_loads : string -> option pyval.
Variable py_str : pyval -> string.

(** Reading one length-prefixed field that starts where [pre] ends. *)
Lemma read_field (pre h body rest : list byte) (off : nat) :
  pack_u32 (length body) = Ret h ->
  off = length pre ->
  unpack_u32 (slice (pre ++ h ++ body ++ rest) off (off + 4))
  = Ret (N.of_nat (length body)) /\
  slice (pre ++ h ++ body ++ rest) (off + 4)
        (off + 4 + N.to_nat (N.of_nat (length body))) = body.
Proof.
  intros Hp ->. rewrite Nat2N.id.
  destruct (slice_field pre h body rest (pack_u32_length _ _ Hp)) as [E1 E2].
  rewrite E1, E2. split; [apply unpack_pack_u32, Hp | reflexivity].
Qed.

Lemma MessageType_of_value t : MessageType_of (type_value t) = Ret t.
Proof. destruct t; reflexivity. Qed.

Lemma dumps_dict_not_empty sk d : dumps sk (PDict d) <> EmptyString.
Proof. cbn. discriminate. Qed.

Lemma decode_content msg d md h_id h_service h_method h_metadata h_data :
  data msg = Value (PDict d) ->
  metadata msg = PDict md ->
  json_loads (dumps false (metadata msg)) = Some (metadata msg) ->
  json_loads (dumps false (PDict d)) = Some (PDict d) ->
  pack_u32 (length (utf8_encode (id msg))) = Ret h_id ->
  pack_u32 (length (utf8_encode (service msg))) = Ret h_service ->
  pack_u32 (length (utf8_encode (method msg))) = Ret h_method ->
  pack_u32 (length (utf8_encode (dumps false (metadata msg)))) = Ret h_metadata ->
  pack_u32 (length (data_bytes_of py_str (data msg))) = Ret h_data ->
  decode_message json_loads
    (content_of py_str msg h_id h_service h_method h_metadata h_data)
  = Ret msg.
Proof.
  intros Hdata Hmeta Hlm Hld P1 P2 P3 P4 P5.
  pose proof (pack_u32_length _ _ P1) as L1.
  pose proof (pack_u32_length _ _ P2) as L2.
  pose proof (pack_u32_length _ _ P3) as L3.
  pose proof (pack_u32_length _ _ P4) as L4.
  pose proof (pack_u32_length _ _ P5) as L5.
  unfold decode_message, content_of.
  assert (Eid : utf8_decode (utf8_encode (id msg)) = Some (id msg))
    by apply utf8_roundtrip.
  assert (Esv : utf8_decode (utf8_encode (service msg)) = Some (service msg))
    by apply utf8_roundtrip.
  assert (Emt : utf8_decode (utf8_encode (method msg)) = Some (method msg))
    by apply utf8_roundtrip.
  assert (Emd : utf8_decode (utf8_encode (dumps false (metadata msg)))
                = Some (dumps false (metadata msg)))
    by apply utf8_roundtrip.
  assert (Edt : utf8_decode (data_bytes_of py_str (data msg))
                = Some (dumps false (PDict d)))
    by (rewrite Hdata; apply utf8_roundtrip).
  set (idb := utf8_encode (id msg)) in *.
  set (svb := utf8_encode (service msg)) in *.
  set (mtb := utf8_encode (method msg)) in *.
  set (mdb := utf8_encode (dumps false (metadata msg))) in *.
  set (dtb := data_bytes_of py_str (data msg)) in *.
  cbn [app nth_error res_bind].
  rewrite to_N_byte_of_N by (destruct (msg_type msg); cbn; lia).
  rewrite MessageType_of_value. cbn [res_bind].
  set (t := byte_of_N (type_value (msg_type msg))).
  (* id *)
  destruct (read_field [t] h_id idb
              (h_service ++ svb ++ h_method ++ mtb ++ h_metadata ++ mdb ++ h_data ++ dtb)
              (0 + 1) P1 eq_refl) as [E1 E2].
  cbn [app] in E1, E2. rewrite E1. cbn [res_bind]. rewrite E2.
  unfold decode_utf8 at 1. rewrite Eid. cbn [res_bind].
  (* service *)
  destruct (read_field (t :: h_id ++ idb) h_service svb
              (h_method ++ mtb ++ h_metadata ++ mdb ++ h_data ++ dtb)
              (0 + 1 + 4 + N.to_nat (N.of_nat (length idb))) P2) as [E3 E4].
  { rewrite Nat2N.id. cbn [length]. rewrite length_app. lia. }
  cbn [app] in E3, E4. rewrite <- !app_assoc in E3, E4.
  rewrite E3. cbn [res_bind]. rewrite E4.
  unfold decode_utf8 at 1. rewrite Esv. cbn [res_bind].
  (* method *)
  destruct (read_field (t :: h_id ++ idb ++ h_service ++ svb) h_method mtb
              (h_metadata ++ mdb ++ h_data ++ dtb)
              (0 + 1 + 4 + N.to_nat (N.of_nat (length idb)) + 4
               + N.to_nat (N.of_nat (length svb))) P3) as [E5 E6].
  { rewrite !Nat2N.id. cbn [length]. rewrite !length_app. lia. }
  cbn [app] in E5, E6. rewrite <- !app_assoc in E5, E6.
  rewrite E5. cbn [res_bind]. rewrite E6.
  unfold decode_utf8 at 1. rewrite Emt. cbn [res_bind].
  (* metadata *)
  destruct (read_field (t :: h_id ++ idb ++ h_service ++ svb ++ h_method ++ mtb)
              h_metadata mdb (h_data ++ dtb)
              (0 + 1 + 4 + N.to_nat (N.of_nat (length idb)) + 4
               + N.to_nat (N.of_nat (length svb)) + 4
               + N.to_nat (N.of_nat (length mtb))) P4) as [E7 E8].
  { rewrite !Nat2N.id. cbn [length]. rewrite !length_app. lia. }
  cbn [app] in E7, E8. rewrite <- !app_assoc in E7, E8.
  rewrite E7. cbn [res_bind]. rewrite E8.
  unfold decode_utf8 at 1. rewrite Emd. cbn [res_bind].
  rewrite Hlm.
  destruct (dumps false (metadata msg)) eqn:Hdm.
  { rewrite Hmeta in Hdm. now apply dumps_dict_not_empty in Hdm. }
  cbn [res_bind].
  (* data *)
  destruct (read_field
              (t :: h_id ++ idb ++ h_service ++ svb ++ h_method ++ mtb
                 ++ h_metadata ++ mdb)
              h_data dtb []
              (0 + 1 + 4 + N.to_nat (N.of_nat (length idb)) + 4
               + N.to_nat (N.of_nat (length svb)) + 4
               + N.to_nat (N.of_nat (length mtb)) + 4
               + N.to_nat (N.of_nat (length mdb))) P5) as [E9 E10].
  { rewrite !Nat2N.id. cbn [length]. rewrite !length_app. lia. }
  cbn [app] in E9, E10. rewrite <- !app_assoc, !app_nil_r in E9, E10.
  rewrite E9. cbn [res_bind]. rewrite E10.
  rewrite Edt, Hld, <- Hdata. destruct msg; reflexivity.
Qed.

(** The frame is the length of the content followed by the content. *)
Lemma encode_frame msg bytes :
  encode_message py_str msg = Ret bytes ->
  exists h_id h_service h_method h_metadata h_data header,
    pack_u32 (length (utf8_encode (id msg))) = Ret h_id /\
    pack_u32 (length (utf8_encode (service msg))) = Ret h_service /\
    pack_u32 (length (utf8_encode (method msg))) = Ret h_method /\
    pack_u32 (length (utf8_encode (dumps false (metadata msg)))) = Ret h_metadata /\
    pack_u32 (length (data_bytes_of py_str (data msg))) = Ret h_data /\
    pack_u32 (length (content_of py_str msg h_id h_service h_method h_metadata h_data))
    = Ret header /\
    bytes = (header
             ++ content_of py_str msg h_id h_service h_method h_metadata h_data)%list.
Proof.
  unfold encode_message.
  destruct (pack_u32 (length (utf8_encode (id msg)))) as [h1|] eqn:P1; [|discriminate].
  destruct (pack_u32 (length (utf8_encode (service msg)))) as [h2|] eqn:P2; [|discriminate].
  destruct (pack_u32 (length (utf8_encode (method msg)))) as [h3|] eqn:P3; [|discriminate].
  destruct (pack_u32 (length (utf8_encode (dumps false (metadata msg))))) as [h4|] eqn:P4;
    [|discriminate].
  destruct (pack_u32 (length (data_bytes_of py_str (data msg)))) as [h5|] eqn:P5;
    [|discriminate].
  cbn [res_bind].
  destruct (pack_u32 (length (content_of py_str msg h1 h2 h3 h4 h5))) as [h|] eqn:P6;
    [|discriminate].
  cbn [res_bind]. intros [= <-].
  exists h1, h2, h3, h4, h5, h. repeat split; assumption.
Qed.

End roundtrip.

(** C2 (amended).  For a message whose payload is a dict and whose
    metadata is a dict, both read back by [json.loads] from what
    [json.dumps] prints, the bytes [encode_message] returns are a 4-byte
    little-endian length followed by that many bytes of content, and
    [decode_message] applied to the content, the bytes after the length
    prefix, gives the original message back: the same type, id, service,
    method, metadata and payload. *)
Theorem decode_inverts_encode_after_header
  (json_loads : string -> option pyval) (py_str : pyval -> string)
  (msg : Message) (d md : list (string * pyval)) (bytes : list byte)
  (Hdata : data msg = Value (PDict d))
  (Hmeta : metadata msg = PDict md)
  (Hlm : json_loads (dumps false (metadata msg)) = Some (metadata msg))
  (Hld : json_loads (dumps false (PDict d)) = Some (PDict d))
  (Henc : encode_message py_str msg = Ret bytes) :
  unpack_u32 (firstn 4 bytes) = Ret (N.of_nat (length (skipn 4 bytes))) /\
  decode_message json_loads (skipn 4 bytes) = Ret msg.
Proof.
  destruct (encode_frame py_str msg bytes Henc)
    as (h1 & h2 & h3 & h4 & h5 & h & P1 & P2 & P3 & P4 & P5 & P6 & ->).
  pose proof (pack_u32_length _ _ P6) as L.
  replace 4%nat with (length h) by exact L.
  rewrite take_app_length, drop_app_length. split.
  - apply unpack_pack_u32, P6.
  - eapply decode_content; eassumption.
Qed.

Lemma decode_inverts_encode_after_header_witness :
  (data ping = Value (PDict [("model", PStr "m"); ("stream", PBool false)]) /\
   metadata ping = PDict [("client", PStr "c1")] /\
   loads (dumps false (metadata ping)) = Some (metadata ping) /\
   loads (dumps false (PDict [("model", PStr "m"); ("stream", PBool false)]))
   = Some (PDict [("model", PStr "m"); ("stream", PBool false)])) /\
  match encode_message no_str ping with
  | Ret bytes => decode_message loads (skipn 4 bytes) = Ret ping
  | Raise _ => False
  end.
Proof.
  split; [repeat split; vm_compute; reflexivity|].
  destruct (encode_message no_str ping) as [bytes|e] eqn:E.
  - apply (decode_inverts_encode_after_header loads no_str ping
             [("model", PStr "m"); ("stream", PBool false)]
             [("client", PStr "c1")] bytes);
      [reflexivity | reflexivity | vm_compute; reflexivity
      | vm_compute; reflexivity | exact E].
  - vm_compute in E. discriminate E.
Defined.

(** [decode_message] applied to everything [encode_message] returns reads
    the first byte of the length prefix, 76 for this message, as the
    message type, and raises. *)
Lemma decode_of_whole_frame_raises :
  (loads (dumps false (metadata ping)) = Some (metadata ping) /\
   option_map Byte.to_N
     (nth_error (match encode_message no_str ping with
                 | Ret bytes => bytes
                 | Raise _ => []
                 end) 0) = Some 76%N) /\
  res_bind (encode_message no_str ping) (decode_message loads)
  = Raise (builtin_exn ValueError "76 is not a valid MessageType").
Proof. split; [split|]; vm_compute; reflexivity. Qed.

(** ** Payloads of any kind, and bytes after the content *)

Section wire.
Variable json_loads : string -> option pyval.
Variable py_str : pyval -> string.

(** The message [decode_message] returns for the content of [msg]: the
    payload is what [json.loads] makes of its bytes, and the bytes
    themselves when they are not UTF-8 or not JSON. *)
Definition received (msg : Message) : Message :=
  let data_bytes := data_bytes_of py_str (data msg) in
  mk_message (msg_type msg) (id msg) (service msg) (method msg)
    (match utf8_decode data_bytes with
     | Some text =>
         match json_loads text with
         | Some v => Value v
         | None => Bytes data_bytes
         end
     | None => Bytes data_bytes
     end)
    (metadata msg).

Lemma decode_content_then_more msg md h_id h_service h_method h_metadata h_data more :
  metadata msg = PDict md ->
  json_loads (dumps false (metadata msg)) = Some (metadata msg) ->
  pack_u32 (length (utf8_encode (id msg))) = Ret h_id ->
  pack_u32 (length (utf8_encode (service msg))) = Ret h_service ->
  pack_u32 (length (utf8_encode (method msg))) = Ret h_method ->
  pack_u32 (length (utf8_encode (dumps false (metadata msg)))) = Ret h_metadata ->
  pack_u32 (length (data_bytes_of py_str (data msg))) = Ret h_data ->
  decode_message json_loads
    (content_of py_str msg h_id h_service h_method h_metadata h_data ++ more)
  = Ret (received msg).
Proof.
  intros Hmeta Hlm P1 P2 P3 P4 P5.
  pose proof (pack_u32_length _ _ P1) as L1.
  pose proof (pack_u32_length _ _ P2) as L2.
  pose proof (pack_u32_length _ _ P3) as L3.
  pose proof (pack_u32_length _ _ P4) as L4.
  unfold decode_message, content_of, received.
  pose proof (utf8_roundtrip (id msg)) as Eid.
  pose proof (utf8_roundtrip (service msg)) as Esv.
  pose proof (utf8_roundtrip (method msg)) as Emt.
  pose proof (utf8_roundtrip (dumps false (metadata msg))) as Emd.
  set (idb := utf8_encode (id msg)) in *.
  set (svb := utf8_encode (service msg)) in *.
  set (mtb := utf8_encode (method msg)) in *.
  set (mdb := utf8_encode (dumps false (metadata msg))) in *.
  set (dtb := data_bytes_of py_str (data msg)) in *.
  rewrite <- !app_assoc. cbn [app nth_error res_bind].
  rewrite to_N_byte_of_N by (destruct (msg_type msg); reflexivity).
  rewrite MessageType_of_value. cbn [res_bind].
  set (t := byte_of_N (type_value (msg_type msg))).
  (* the four strings *)
  destruct (read_field [t] h_id idb
              (h_service ++ svb ++ h_method ++ mtb ++ h_metadata ++ mdb
               ++ h_data ++ dtb ++ more)
              (0 + 1) P1 eq_refl) as [E1 E2].
  cbn [app] in E1, E2. rewrite E1. cbn [res_bind]. rewrite E2.
  unfold decode_utf8 at 1. rewrite Eid. cbn [res_bind].
  destruct (read_field (t :: h_id ++ idb) h_service svb
              (h_method ++ mtb ++ h_metadata ++ mdb ++ h_data ++ dtb ++ more)
              (0 + 1 + 4 + N.to_nat (N.of_nat (length idb))) P2) as [E3 E4].
  { rewrite Nat2N.id. cbn [length]. rewrite length_app. lia. }
  cbn [app] in E3, E4. rewrite <- !app_assoc in E3, E4.
  rewrite E3. cbn [res_bind]. rewrite E4.
  unfold decode_utf8 at 1. rewrite Esv. cbn [res_bind].
  destruct (read_field (t :: h_id ++ idb ++ h_service ++ svb) h_method mtb
              (h_metadata ++ mdb ++ h_data ++ dtb ++ more)
              (0 + 1 + 4 + N.to_nat (N.of_nat (length idb)) + 4
               + N.to_nat (N.of_nat (length svb))) P3) as [E5 E6].
  { rewrite !Nat2N.id. cbn [length]. rewrite !length_app. lia. }
  cbn [app] in E5, E6. rewrite <- !app_assoc in E5, E6.
  rewrite E5. cbn [res_bind]. rewrite E6.
  unfold decode_utf8 at 1. rewrite Emt. cbn [res_bind].
  destruct (read_field (t :: h_id ++ idb ++ h_service ++ svb ++ h_method ++ mtb)
              h_metadata mdb (h_data ++ dtb ++ more)
              (0 + 1 + 4 + N.to_nat (N.of_nat (length idb)) + 4
               + N.to_nat (N.of_nat (length svb)) + 4
               + N.to_nat (N.of_nat (length mtb))) P4) as [E7 E8].
  { rewrite !Nat2N.id. cbn [length]. rewrite !length_app. lia. }
  cbn [app] in E7, E8. rewrite <- !app_assoc in E7, E8.
  rewrite E7. cbn [res_bind]. rewrite E8.
  unfold decode_utf8 at 1. rewrite Emd. cbn [res_bind].
  rewrite Hlm.
  destruct (dumps false (metadata msg)) eqn:Hdm.
  { rewrite Hmeta in Hdm. now apply dumps_dict_not_empty in Hdm. }
  cbn [res_bind].
  (* the payload *)
  destruct (read_field
              (t :: h_id ++ idb ++ h_service ++ svb ++ h_method ++ mtb
                 ++ h_metadata ++ mdb)
              h_data dtb more
              (0 + 1 + 4 + N.to_nat (N.of_nat (length idb)) + 4
               + N.to_nat (N.of_nat (length svb)) + 4
               + N.to_nat (N.of_nat (length mtb)) + 4
               + N.to_nat (N.of_nat (length mdb))) P5) as [E9 E10].
  { rewrite !Nat2N.id. cbn [length]. rewrite !length_app. lia. }
  cbn [app] in E9, E10. rewrite <- !app_assoc in E9, E10.
  rewrite E9. cbn [res_bind]. rewrite E10.
  reflexivity.
Qed.


End wire.

(** A text payload that is not JSON. *)
Definition note : Message :=
  mk_message RESPONSE "7" "ai" "chat" (Value (PStr "hello")) (PDict []).


End protocol.

(** * handlers/chat.py *)

Module chat.
Import pylib.

(** Python's truth value of a value read from the request. *)
Definition truthy (v : pyval) : bool :=
  match v with
  | PNone => false
  | PBool b => b
  | PInt z => negb (z =? 0)%Z
  | PFloat repr => negb (String.eqb repr "0.0" || String.eqb repr "-0.0")
  | PStr s => negb (String.eqb s "")
  | PList l => match l with [] => false | _ => true end
  | PDict d => match d with [] => false | _ => true end
  end.

(** [d.get(key, default)]. *)
Fixpoint dict_get (key : string) (default : pyval) (d : list (string * pyval)) : pyval :=
  match d with
  | [] => default
  | (k, v) :: d' => if String.eqb key k then v else dict_get key default d'
  end.

(** [{k: v for k, v in d.items() if k not in keys}]. *)
Definition without (keys : list string) (d : list (string * pyval))
  : list (string * pyval) :=
  List.filter (fun kv => negb (existsb (String.eqb (fst kv)) keys)) d.

(** [d[key] = v]. *)
Definition dict_put (key : string) (v : pyval) (d : list (string * pyval)) :=
  dict_set key v d.

(** The dict a call of [handle_chat] returns, by its shape:
    [{"status": "error", "error": ...}],
    [{"status": "success", "data": ..., "cached": True}],
    [{"status": "streaming", "adapter": ..., "adapter_name": ..., "params": ...}],
    [{"status": "success", "data": ..., "adapter_name": ...}] and
    [{"status": "success", "data": ..., "adapter_name": ...,
      "fallback_used": True, "original_model": ...}]. *)
Inductive Response :=
| Error (error : string)
| Cached (data : pyval)
| Streaming (adapter_name : option string) (params : list (string * pyval))
| Success (data : pyval) (adapter_name : option string)
| FallbackSuccess (data : pyval) (adapter_name : string) (original_model : string).

(** One call of an adapter's [chat]: the adapter, the messages and the
    keyword arguments. *)
Record Call := mk_call {
  call_adapter : string;
  call_messages : pyval;
  call_params : list (string * pyval)
}.

Section handler.

(** The model router, by the four methods the handler calls.  The request
    field [model] is a string when present. *)
Variable Router : Type.
Variable select_model :
  pyval -> option string -> list (string * string) -> M Router (string * option string).
Variable router_record_success : string -> Q -> M Router unit.
Variable router_record_failure : string -> M Router unit.
Variable get_fallback_model : string -> M Router (option (string * string)).

(** The adapters: [adapters] lists the names the handler was given, in the
    order of the dict, and [adapter_chat name messages params k] is what
    [chat] of that adapter does when it is the [k]-th call of an adapter. *)
Variable adapters : list string.
Variable adapter_chat : string -> pyval -> list (string * pyval) -> nat -> Res pyval.

(** What the cache's files make of a value. *)
Variable reload : pyval -> option pyval.

Record ChatHandler := mk_handler {
  cache_manager : option (cache_manager.CacheManager pyval);
  model_router : option Router;
  calls : list Call
}.

(** [self.adapters.get(name)]: an adapter is named by its key. *)
Definition adapters_get (name : option string) : option string :=
  match name with
  | Some n => if existsb (String.eqb n) adapters then Some n else None
  | None => None
  end.

(** A method call on the attached cache manager or router. *)
Definition on_cache {A} (m : M (cache_manager.CacheManager pyval) A) (dflt : A)
  : M ChatHandler A :=
  fun h c =>
    match cache_manager h with
    | Some cm =>
        let o := m cm c in
        (res_of o, mk_handler (Some (st_of o)) (model_router h) (calls h), clk_of o)
    | None => (Ret dflt, h, c)
    end.

Definition on_router {A} (m : M Router A) (dflt : A) : M ChatHandler A :=
  fun h c =>
    match model_router h with
    | Some r =>
        let o := m r c in
        (res_of o, mk_handler (cache_manager h) (Some (st_of o)) (calls h), clk_of o)
    | None => (Ret dflt, h, c)
    end.

(** [await adapter.chat(messages, **adapter_params)]. *)
Definition chat_call (adapter : string) (messages : pyval)
  (adapter_params : list (string * pyval)) : M ChatHandler pyval :=
  fun h c =>
    (adapter_chat adapter messages adapter_params (length (calls h)),
     mk_handler (cache_manager h) (model_router h)
                (calls h ++ [mk_call adapter messages adapter_params])%list,
     c).

Definition contains (c : ascii) (s : string) : bool :=
  existsb (Ascii.eqb c) (list_ascii_of_string s).

(** [ChatHandler._select_adapter]. *)
Definition _select_adapter (model : string) : option string :=
  if contains "/" model then adapters_get (Some "openrouter")
  else if contains ":" model
          || existsb (String.eqb model)
               ["llama2"; "codellama"; "mistral"; "mixtral"; "gemma"; "qwen"]
       then adapters_get (Some "ollama")
  else if String.prefix "gpt" model || String.prefix "dall-e" model
          || String.eqb model "whisper-1"
       then adapters_get (Some "openai")
  else if String.prefix "claude" model then adapters_get (Some "anthropic")
  else if String.prefix "gemini" model then adapters_get (Some "google")
  else if existsb (String.eqb "ollama") adapters then adapters_get (Some "ollama")
  else adapters_get (Some "openai").

(** [ChatHandler._generate_cache_key]. *)
Definition _generate_cache_key (messages : pyval) (model : option string)
  (params : list (string * pyval)) : string :=
  let cache_data :=
    PDict [("messages", messages);
           ("model", match model with Some m => PStr m | None => PNone end);
           ("params", PDict (without ["messages"; "model"; "stream"] params))] in
  sha256_hexdigest (utf8_encode (dumps true cache_data)).

(** The request field [model], for a request whose [model] is absent,
    None or a string.  (Any other value is passed on by the source and
    makes the choice of the adapter raise, which ends the request with
    an error dict; such requests are outside this model.) *)
Definition requested_model_of (params : list (string * pyval)) : option string :=
  match dict_get "model" PNone params with
  | PStr s => Some s
  | _ => None
  end.

(** The [except Exception as adapter_error] block of [handle_chat]; it
    ends by raising [adapter_error] unless the fallback succeeds. *)
Definition on_adapter_error (adapter_error : exn) (model : string)
  (messages : pyval) (adapter_params : list (string * pyval))
  : M ChatHandler Response :=
  (h <- get_state ;;
   match model_router h with
   | Some _ =>
       on_router (router_record_failure model) tt ;;
       fallback_info <- on_router (get_fallback_model model) None ;;
       match fallback_info with
       | Some (fallback_model, fallback_adapter_name) =>
           match adapters_get (Some fallback_adapter_name) with
           | Some fallback_adapter =>
               let adapter_params := dict_put "model" (PStr fallback_model) adapter_params in
               error_handler.catch
                 (result <- chat_call fallback_adapter messages adapter_params ;;
                  ret (FallbackSuccess result fallback_adapter_name model))
                 (fun fallback_error => raise adapter_error)
           | None => raise adapter_error
           end
       | None => raise adapter_error
       end
   | None => raise adapter_error
   end)%py.

(** The cache lookup of [handle_chat]: the key, when the request is
    cached at all, and what the cache holds for it. *)
Definition lookup_cache (messages : pyval) (requested_model : option string)
  (stream : pyval) (params : list (string * pyval))
  : M ChatHandler (option string * option pyval) :=
  (h <- get_state ;;
   match cache_manager h with
   | Some _ =>
       if negb (truthy stream) then
         let cache_key := _generate_cache_key messages requested_model params in
         cached_result <- on_cache (cache_manager.get cache_key) None ;;
         ret (Some cache_key, cached_result)
       else ret (None, None)
   | None => ret (None, None)
   end)%py.

(** [if cached_result:] *)
Definition cache_hit (cached_result : option pyval) : option pyval :=
  match cached_result with
  | Some v => if truthy v then Some v else None
  | None => None
  end.

(** The choice of the model and the adapter. *)
Definition select (messages : pyval) (requested_model : option string)
  (metadata : list (string * string))
  : M ChatHandler (string * option string * option string) :=
  (h <- get_state ;;
   match model_router h with
   | Some _ =>
       sel <- on_router (select_model messages requested_model metadata)
                        (EmptyString, None) ;;
       ret (fst sel, adapters_get (snd sel), snd sel)
   | None =>
       let model := match requested_model with
                    | Some m => if String.eqb m "" then "gpt-3.5-turbo" else m
                    | None => "gpt-3.5-turbo"
                    end in
       let adapter := _select_adapter model in
       ret (model, adapter, adapter)
   end)%py.

(** The inner [try] block: the call of the adapter and what follows its
    success. *)
Definition call_adapter_block (start_time : Q) (cache_key : option string)
  (model adapter : string) (adapter_name : option string) (messages : pyval)
  (adapter_params : list (string * pyval)) : M ChatHandler Response :=
  (result <- chat_call adapter messages adapter_params ;;
   t <- now ;;
   let response_time := t - start_time in
   on_router (router_record_success model response_time) tt ;;
   match cache_key with
   | Some key => on_cache (cache_manager.set reload key result None) tt
   | None => ret tt
   end ;;
   ret (Success result adapter_name))%py.

(** The body of the outer [try] of [handle_chat]. *)
Definition handle_chat_body (params : list (string * pyval))
  (metadata : list (string * string)) : M ChatHandler Response :=
  (start_time <- now ;;
   let messages := dict_get "messages" (PList []) params in
   let requested_model := requested_model_of params in
   let stream := dict_get "stream" (PBool false) params in
   if negb (truthy messages) then ret (Error "No messages provided") else
   looked <- lookup_cache messages requested_model stream params ;;
   let cache_key := fst looked in
   match cache_hit (snd looked) with
   | Some cached_result => ret (Cached cached_result)
   | None =>
       selected <- select messages requested_model metadata ;;
       let model := fst (fst selected) in
       let adapter_name := snd selected in
       match snd (fst selected) with
       | None => ret (Error ("No adapter available for model: " ++ model))
       | Some adapter =>
           let adapter_params :=
             dict_put "model" (PStr model) (without ["messages"; "stream"] params) in
           if truthy stream then ret (Streaming adapter_name adapter_params)
           else
             error_handler.catch
               (call_adapter_block start_time cache_key model adapter adapter_name
                                   messages adapter_params)
               (fun adapter_error =>
                  on_adapter_error adapter_error model messages adapter_params)
       end
   end)%py.

(** [ChatHandler.handle_chat]: whatever the body raises is reported. *)
Definition handle_chat (params : list (string * pyval))
  (metadata : list (string * string)) : M ChatHandler Response :=
  error_handler.catch (handle_chat_body params metadata)
                      (fun e => ret (Error (exn_str e))).

(** The cache lookup touches neither the router nor the adapters. *)
Lemma lookup_cache_frame messages requested_model stream params h c :
  let o := lookup_cache messages requested_model stream params h c in
  model_router (st_of o) = model_router h /\ calls (st_of o) = calls h.
Proof.
  unfold lookup_cache, bind, get_state, on_cache, ret.
  destruct (cache_manager h) eqn:Ecm; [|now cbn].
  destruct (negb (truthy stream)); [|now cbn].
  rewrite Ecm.
  destruct (res_of _); now cbn.
Qed.

(** The [except] block when a router is attached and its two methods
    return. *)
Lemma on_adapter_error_run adapter_error model messages adapter_params
  h r c r2 c2 fallback_info r3 c3 :
  model_router h = Some r ->
  router_record_failure model r c = (Ret tt, r2, c2) ->
  get_fallback_model model r2 c2 = (Ret fallback_info, r3, c3) ->
  let h3 := mk_handler (cache_manager h) (Some r3) (calls h) in
  on_adapter_error adapter_error model messages adapter_params h c =
  match fallback_info with
  | Some (fallback_model, fallback_adapter_name) =>
      match adapters_get (Some fallback_adapter_name) with
      | Some fallback_adapter =>
          let adapter_params := dict_put "model" (PStr fallback_model) adapter_params in
          error_handler.catch
            (result <- chat_call fallback_adapter messages adapter_params ;;
             ret (FallbackSuccess result fallback_adapter_name model))%py
            (fun _ => raise adapter_error) h3 c3
      | None => (Raise adapter_error, h3, c3)
      end
  | None => (Raise adapter_error, h3, c3)
  end.
Proof.
  intros Hr Hfail Hfb h3.
  unfold on_adapter_error, bind at 1, get_state. rewrite Hr.
  unfold bind at 1, on_router at 1. rewrite Hr, Hfail. cbn [res_of st_of clk_of fst snd].
  unfold bind at 1, on_router at 1. cbn [model_router cache_manager calls].
  rewrite Hfb. cbn [res_of st_of clk_of fst snd].
  destruct fallback_info as [[fallback_model fallback_adapter_name]|]; [|reflexivity].
  destruct (adapters_get (Some fallback_adapter_name)); reflexivity.
Qed.

(** C8.  A non-streaming request with messages, not answered from the
    cache, on a handler with a router attached: the router selects [model]
    on the configured adapter [adapter_name], and that adapter's [chat]
    raises [adapter_error].  When the router's [record_failure] and
    [get_fallback_model] return, [handle_chat] has called them once each, in
    that order, and
    - when the fallback names a configured adapter, that adapter's [chat] is
      called exactly once, with the parameter [model] replaced by the
      fallback model; the response is the fallback success (data, the
      fallback adapter's name, [fallback_used], the original model) when the
      call returns, and the error dict with the text of [adapter_error], not
      of the fallback's error, when it raises;
    - when there is no fallback, or it names no configured adapter, no
      further adapter is called and the response is the error dict with the
      text of [adapter_error]. *)
Theorem adapter_failure_falls_back_once
  (params : list (string * pyval)) (metadata : list (string * string))
  (h : ChatHandler) (clk : Clock) (r r1 r2 r3 : Router) (clk2 clk3 clk4 : Clock)
  (model adapter_name : string) (adapter_error : exn)
  (fallback_info : option (string * string))
  (cache_key : option string) (cached_result : option pyval) :
  let messages := dict_get "messages" (PList []) params in
  let requested_model := requested_model_of params in
  let stream := dict_get "stream" (PBool false) params in
  let adapter_params :=
    dict_put "model" (PStr model) (without ["messages"; "stream"] params) in
  let looked := lookup_cache messages requested_model stream params h (tick clk) in
  let primary := mk_call adapter_name messages adapter_params in
  let out := handle_chat params metadata h clk in
  let after := fun made =>
    mk_handler (cache_manager (st_of looked)) (Some r3) (calls h ++ made)%list in
  let original_error := Ret (Error (exn_str adapter_error)) in
  truthy messages = true ->
  truthy stream = false ->
  res_of looked = Ret (cache_key, cached_result) ->
  cache_hit cached_result = None ->
  model_router h = Some r ->
  select_model messages requested_model metadata r (clk_of looked)
    = (Ret (model, Some adapter_name), r1, clk2) ->
  adapters_get (Some adapter_name) = Some adapter_name ->
  adapter_chat adapter_name messages adapter_params (length (calls h))
    = Raise adapter_error ->
  router_record_failure model r1 clk2 = (Ret tt, r2, clk3) ->
  get_fallback_model model r2 clk3 = (Ret fallback_info, r3, clk4) ->
  clk_of out = clk4 /\
  match fallback_info with
  | Some (fallback_model, fallback_adapter_name) =>
      match adapters_get (Some fallback_adapter_name) with
      | Some fallback_adapter =>
          let fallback_params := dict_put "model" (PStr fallback_model) adapter_params in
          st_of out = after [primary; mk_call fallback_adapter messages fallback_params] /\
          match adapter_chat fallback_adapter messages fallback_params
                             (S (length (calls h))) with
          | Ret result =>
              res_of out = Ret (FallbackSuccess result fallback_adapter_name model)
          | Raise fallback_error => res_of out = original_error
          end
      | None => st_of out = after [primary] /\ res_of out = original_error
      end
  | None => st_of out = after [primary] /\ res_of out = original_error
  end.
Proof.
  intros messages requested_model stream adapter_params looked primary out after
         original_error Hmsg Hstream Hlook Hmiss Hr Hsel Hadapter Hchat Hfail Hfb.
  destruct (lookup_cache_frame messages requested_model stream params h (tick clk))
    as [Frouter Fcalls].
  fold looked in Frouter, Fcalls.
  set (h2 := mk_handler (cache_manager (st_of looked)) (Some r1) (calls h ++ [primary])%list).
  assert (Ebody : handle_chat_body params metadata h clk
                  = on_adapter_error adapter_error model messages adapter_params h2 clk2).
  { unfold handle_chat_body.
    unfold bind at 1, now, time_time.
    change (mk_clock (readings clk) (S (reads clk))) with (tick clk).
    fold messages requested_model stream. rewrite Hmsg. cbn [negb].
    unfold bind at 1. fold looked.
    destruct looked as [[looked_result h1] clk1] eqn:Elooked.
    cbn [res_of st_of clk_of fst snd] in *. subst looked_result.
    cbn [fst snd]. rewrite Hmiss.
    unfold bind at 1, select at 1, bind at 1, get_state. rewrite Frouter, Hr.
    unfold bind at 1, on_router at 1. rewrite Frouter, Hr, Hsel.
    cbn [res_of st_of clk_of fst snd ret]. rewrite Hadapter, Hstream.
    fold adapter_params.
    unfold error_handler.catch at 1, call_adapter_block, bind at 1, chat_call at 1.
    cbn [calls cache_manager model_router]. rewrite Fcalls, Hchat.
    reflexivity. }
  pose proof (on_adapter_error_run adapter_error model messages adapter_params
                h2 r1 clk2 r2 clk3 fallback_info r3 clk4 eq_refl Hfail Hfb) as Erun.
  cbn zeta in Erun. cbn [calls cache_manager model_router h2] in Erun.
  assert (Eout : out = error_handler.catch
                         (on_adapter_error adapter_error model messages adapter_params)
                         (fun e => ret (Error (exn_str e))) h2 clk2).
  { subst out. unfold handle_chat, error_handler.catch. now rewrite Ebody. }
  unfold error_handler.catch at 1 in Eout. rewrite Erun in Eout.
  clearbody out. clear Erun Ebody. subst after original_error.
  destruct fallback_info as [[fallback_model fallback_adapter_name]|];
    [|subst out; now cbn [clk_of st_of res_of fst snd ret]].
  destruct (adapters_get (Some fallback_adapter_name)) as [fallback_adapter|];
    [|subst out; now cbn [clk_of st_of res_of fst snd ret]].
  unfold error_handler.catch, bind, chat_call, raise, ret in Eout.
  cbn [calls cache_manager model_router] in Eout.
  rewrite length_app in Eout. cbn [length] in Eout.
  rewrite Nat.add_1_r, <- app_assoc in Eout. cbn [app] in Eout.
  cbn zeta.
  destruct (adapter_chat fallback_adapter _ _ _); subst out;
    now cbn [clk_of st_of res_of fst snd].
Qed.

End handler.

Arguments mk_handler {Router}.
Arguments cache_manager {Router}.
Arguments model_router {Router}.
Arguments calls {Router}.

(** A router that answers from a script and logs the calls made on it:
    it selects model ["M1"] on adapter ["primary"] and falls back to
    ["M2"] on adapter ["backup"]. *)
Definition ScriptedRouter := list string.

Definition logged {A} (method : string) (a : A) : M ScriptedRouter A :=
  (modify (fun log => log ++ [method])%list ;; ret a)%py.

Definition scripted_select_model (_ : pyval) (_ : option string)
  (_ : list (string * string)) : M ScriptedRouter (string * option string) :=
  logged "select_model" ("M1", Some "primary").

Definition scripted_record_success (_ : string) (_ : Q) : M ScriptedRouter unit :=
  logged "record_success" tt.

Definition scripted_record_failure (_ : string) : M ScriptedRouter unit :=
  logged "record_failure" tt.

Definition scripted_get_fallback_model (_ : string)
  : M ScriptedRouter (option (string * string)) :=
  logged "get_fallback_model" (Some ("M2", "backup")).

(** The adapter ["primary"] always raises, every other one answers. *)
Definition primary_down (name : string) (_ : pyval) (_ : list (string * pyval))
  (_ : nat) : Res pyval :=
  if String.eqb name "primary"
  then Raise (mk_exn (Foreign "ConnectionError") "primary is down" None)
  else Ret (PStr "hello").

Definition hi_request : list (string * pyval) :=
  [("messages", PList [PDict [("role", PStr "user"); ("content", PStr "hi")]]);
   ("model", PStr "M1")].

(** A handler with an empty memory cache and the scripted router. *)
Definition scripted_handler : ChatHandler ScriptedRouter :=
  mk_handler (Some (cache_manager.new_manager (cache_manager.memory_config 10) ∅))
             (Some []) [].

Definition scripted_handle_chat :=
  handle_chat ScriptedRouter scripted_select_model scripted_record_success
    scripted_record_failure scripted_get_fallback_model ["primary"; "backup"]
    primary_down Some.

(** What the scripted handler makes of the request. *)
Definition scripted_out : Res Response * ChatHandler ScriptedRouter * Clock :=
  scripted_handle_chat hi_request [] scripted_handler (clock_of_list [] 0).

Lemma adapter_failure_falls_back_once_witness :
  res_of scripted_out = Ret (FallbackSuccess (PStr "hello") "backup" "M1") /\
  model_router (st_of scripted_out)
  = Some ["select_model"; "record_failure"; "get_fallback_model"] /\
  calls (st_of scripted_out)
  = [mk_call "primary" (dict_get "messages" PNone hi_request) [("model", PStr "M1")];
     mk_call "backup" (dict_get "messages" PNone hi_request) [("model", PStr "M2")]].
Proof.
  edestruct (adapter_failure_falls_back_once
               ScriptedRouter scripted_select_model scripted_record_success
               scripted_record_failure scripted_get_fallback_model
               ["primary"; "backup"] primary_down Some
               hi_request [] scripted_handler (clock_of_list [] 0)
               [] ["select_model"] ["select_model"; "record_failure"]
               ["select_model"; "record_failure"; "get_fallback_model"]
               (tick (clock_of_list [] 0)) (tick (clock_of_list [] 0))
               (tick (clock_of_list [] 0))
               "M1" "primary"
               (mk_exn (Foreign "ConnectionError") "primary is down" None)
               (Some ("M2", "backup")))
    as (_ & Hst & Hres);
    [reflexivity | reflexivity | vm_compute; reflexivity | reflexivity | reflexivity
    | vm_compute; reflexivity | reflexivity | reflexivity | reflexivity | reflexivity |].
  split; [exact Hres|].
  unfold scripted_out, scripted_handle_chat. rewrite Hst. split; reflexivity.
Defined.

(** ** Every path through the handler *)

Section paths.
Variable Router : Type.
Variable select_model :
  pyval -> option string -> list (string * string) -> M Router (string * option string).
Variable router_record_success : string -> Q -> M Router unit.
Variable router_record_failure : string -> M Router unit.
Variable get_fallback_model : string -> M Router (option (string * string)).
Variable adapters : list string.
Variable adapter_chat : string -> pyval -> list (string * pyval) -> nat -> Res pyval.
Variable reload : pyval -> option pyval.

Local Notation "'Handler'" := (ChatHandler Router).
Local Notation "'handle_chat_'" :=
  (handle_chat Router select_model router_record_success router_record_failure
     get_fallback_model adapters adapter_chat reload).
Local Notation "'select_'" := (select Router select_model adapters).
Local Notation "'call_adapter_block_'" :=
  (call_adapter_block Router router_record_success adapter_chat reload).
Local Notation "'on_adapter_error_'" :=
  (on_adapter_error Router router_record_failure get_fallback_model adapters
     adapter_chat).
Local Notation "'lookup_cache_'" := (lookup_cache Router).

(** [handle_chat], step by step. *)
Lemma handle_chat_run params metadata (h : Handler) clk :
  let messages := dict_get "messages" (PList []) params in
  let requested_model := requested_model_of params in
  let stream := dict_get "stream" (PBool false) params in
  handle_chat_ params metadata h clk
  = if negb (truthy messages) then (Ret (Error "No messages provided"), h, tick clk)
    else
      match lookup_cache_ messages requested_model stream params h (tick clk) with
      | (Raise e, h1, c1) => (Ret (Error (exn_str e)), h1, c1)
      | (Ret looked, h1, c1) =>
          match cache_hit (snd looked) with
          | Some cached_result => (Ret (Cached cached_result), h1, c1)
          | None =>
              match select_ messages requested_model metadata h1 c1 with
              | (Raise e, h2, c2) => (Ret (Error (exn_str e)), h2, c2)
              | (Ret selected, h2, c2) =>
                  let model := fst (fst selected) in
                  match snd (fst selected) with
                  | None =>
                      (Ret (Error ("No adapter available for model: " ++ model)), h2, c2)
                  | Some adapter =>
                      let adapter_params :=
                        dict_put "model" (PStr model)
                          (without ["messages"; "stream"] params) in
                      if truthy stream
                      then (Ret (Streaming (snd selected) adapter_params), h2, c2)
                      else
                        match call_adapter_block_ (readings clk (reads clk)) (fst looked)
                                model adapter (snd selected) messages adapter_params
                                h2 c2 with
                        | (Ret response, h3, c3) => (Ret response, h3, c3)
                        | (Raise adapter_error, h3, c3) =>
                            match on_adapter_error_ adapter_error model messages
                                    adapter_params h3 c3 with
                            | (Ret response, h4, c4) => (Ret response, h4, c4)
                            | (Raise e, h4, c4) => (Ret (Error (exn_str e)), h4, c4)
                            end
                        end
                  end
              end
          end
      end.
Proof.
  cbn zeta. unfold handle_chat, handle_chat_body, error_handler.catch.
  unfold bind at 1, now, time_time. 
  destruct (negb (truthy (dict_get "messages" (PList []) params))); [reflexivity|].
  unfold bind at 1.
  destruct (lookup_cache_ _ _ _ params h _) as [[[looked|e] h1] c1]; [|reflexivity].
  destruct (cache_hit (snd looked)); [reflexivity|].
  unfold bind at 1.
  destruct (select_ _ _ metadata h1 c1) as [[[selected|e] h2] c2]; [|reflexivity].
  destruct (snd (fst selected)); [|reflexivity].
  destruct (truthy (dict_get "stream" (PBool false) params)); [reflexivity|].
  destruct (call_adapter_block_ _ _ _ _ _ _ _ h2 c2) as [[[response|e] h3] c3];
    [reflexivity|].
  destruct (on_adapter_error_ _ _ _ _ h3 c3) as [[[response|e'] h4] c4]; reflexivity.
Qed.

(** A call on the router makes no call of an adapter. *)
Lemma on_router_calls {A} (m : M Router A) dflt (h : Handler) c :
  calls (st_of (on_router Router m dflt h c)) = calls h.
Proof. unfold on_router. destruct (model_router h); reflexivity. Qed.

Lemma select_frame_calls messages requested_model metadata (h : Handler) c :
  calls (st_of (select_ messages requested_model metadata h c)) = calls h.
Proof.
  unfold select, bind, get_state, on_router, ret.
  destruct (model_router h) as [r|] eqn:Er; [|reflexivity].
  rewrite Er. destruct (res_of _); reflexivity.
Qed.

(** The adapter's block makes exactly one call, whatever comes of it,
    and what it returns is the plain success dict. *)
Lemma call_adapter_block_calls start_time cache_key model adapter adapter_name
  messages adapter_params (h : Handler) c :
  exists r h' c',
    call_adapter_block_ start_time cache_key model adapter adapter_name
      messages adapter_params h c = (r, h', c') /\
    calls h' = (calls h ++ [mk_call adapter messages adapter_params])%list /\
    forall response, r = Ret response ->
      exists result, response = Success result adapter_name.
Proof.
  unfold call_adapter_block, bind at 1, chat_call.
  destruct (adapter_chat adapter messages adapter_params (length (calls h)))
    as [result|e].
  2:{ do 3 eexists. split; [reflexivity|]. split; [reflexivity | discriminate]. }
  unfold bind at 1, now, time_time.
  unfold bind at 1, on_router at 1. cbn [model_router cache_manager calls].
  assert (Hrest : forall (h1 : Handler) c1,
            calls h1 = (calls h ++ [mk_call adapter messages adapter_params])%list ->
            exists r h' c',
              bind (match cache_key with
                    | Some key =>
                        on_cache Router (cache_manager.set reload key result None) tt
                    | None => ret tt
                    end)
                   (fun _ => ret (Success result adapter_name)) h1 c1 = (r, h', c') /\
              calls h' = (calls h ++ [mk_call adapter messages adapter_params])%list /\
              forall response, r = Ret response ->
                exists result0, response = Success result0 adapter_name).
  { intros h1 c1 Hc. unfold bind, ret.
    destruct cache_key as [key|].
    - unfold on_cache. destruct (cache_manager h1) as [cm|].
      + destruct (cache_manager.set reload key result None cm c1) as [[[u|e] cm'] c''];
          cbn; do 3 eexists; (split; [reflexivity|]); (split; [exact Hc|]).
        * intros response [= <-]. eauto.
        * discriminate.
      + do 3 eexists. split; [reflexivity|]. split; [exact Hc|].
        intros response [= <-]. eauto.
    - do 3 eexists. split; [reflexivity|]. split; [exact Hc|].
      intros response [= <-]. eauto. }
  destruct (model_router h) as [r|].
  - destruct (router_record_success model _ r _) as [[[u|e] r'] c'];
      cbn [res_of st_of clk_of fst snd].
    + apply Hrest. reflexivity.
    + do 3 eexists. split; [reflexivity|]. split; [reflexivity | discriminate].
  - apply Hrest. reflexivity.
Qed.

(** The [except] block makes at most one call, and exactly one when it
    returns; what it returns is the fallback's success dict. *)
Lemma on_adapter_error_calls adapter_error model messages adapter_params
  (h : Handler) c :
  exists r h' c' made,
    on_adapter_error_ adapter_error model messages adapter_params h c = (r, h', c') /\
    calls h' = (calls h ++ made)%list /\ (length made <= 1)%nat /\
    forall response, r = Ret response ->
      length made = 1%nat /\
      exists data name, response = FallbackSuccess data name model.
Proof.
  unfold on_adapter_error, bind at 1, get_state.
  assert (Hnone : forall (h1 : Handler) c1 (e : exn),
            calls h1 = calls h ->
            exists r h' c' made,
              (raise e h1 c1 : Res Response * Handler * Clock) = (r, h', c') /\
              calls h' = (calls h ++ made)%list /\ (length made <= 1)%nat /\
              forall response, r = Ret response ->
                length made = 1%nat /\
                exists data name, response = FallbackSuccess data name model).
  { intros h1 c1 e Hc. exists (Raise e), h1, c1, []. rewrite app_nil_r.
    split; [reflexivity|]. split; [exact Hc|]. split; [cbn; lia | discriminate]. }
  destruct (model_router h) as [r|] eqn:Er; [|apply Hnone; reflexivity].
  unfold bind at 1.
  pose proof (on_router_calls (router_record_failure model) tt h c) as E1.
  destruct (on_router Router (router_record_failure model) tt h c)
    as [[[u|e] h1] c1]; cbn [st_of fst snd] in E1.
  2:{ exists (Raise e), h1, c1, []. rewrite app_nil_r.
      split; [reflexivity|]. split; [exact E1|]. split; [cbn; lia | discriminate]. }
  unfold bind at 1.
  pose proof (on_router_calls (get_fallback_model model) None h1 c1) as E2.
  destruct (on_router Router (get_fallback_model model) None h1 c1)
    as [[[fallback_info|e] h2] c2]; cbn [st_of fst snd] in E2;
    assert (Hc2 : calls h2 = calls h) by congruence.
  2:{ exists (Raise e), h2, c2, []. rewrite app_nil_r.
      split; [reflexivity|]. split; [exact Hc2|]. split; [cbn; lia | discriminate]. }
  destruct fallback_info as [[fallback_model fallback_adapter_name]|];
    [|apply Hnone; exact Hc2].
  destruct (adapters_get adapters (Some fallback_adapter_name)) as [fallback_adapter|];
    [|apply Hnone; exact Hc2].
  unfold error_handler.catch, bind, chat_call, ret, raise.
  destruct (adapter_chat _ _ _ _) as [result|e];
    do 3 eexists; eexists [_]; (split; [reflexivity|]); cbn [calls];
    rewrite Hc2; (split; [reflexivity|]); (split; [cbn; lia|]).
  - intros response [= <-]. split; [reflexivity | eauto].
  - discriminate.
Qed.

(** The request's [model] is absent, None or a string: what the handler
    and the router are written for. *)
Definition model_is_text (params : list (string * pyval)) : bool :=
  match dict_get "model" PNone params with
  | PNone | PStr _ => true
  | _ => false
  end.

(** X26.  [handle_chat] calls an adapter's [chat] at most twice for a
    request, and the calls made before stay as they were.  The response
    tells how many calls were made: none when it comes from the cache or
    is the streaming dict, exactly one when it is the plain success
    dict, exactly two, the second one for the fallback, when it is the
    fallback's success dict. *)
Theorem handle_chat_calls_an_adapter_at_most_twice
  params metadata (h : Handler) clk
  (Hmodel : model_is_text params = true) :
  let o := handle_chat_ params metadata h clk in
  exists made,
    calls (st_of o) = (calls h ++ made)%list /\
    (length made <= 2)%nat /\
    match res_of o with
    | Ret (Cached _) | Ret (Streaming _ _) => made = []
    | Ret (Success _ _) => length made = 1%nat
    | Ret (FallbackSuccess _ _ _) => length made = 2%nat
    | _ => True
    end.
Proof.
  cbn zeta. rewrite handle_chat_run. cbn zeta.
  assert (Hzero : forall (h' : Handler), calls h' = calls h ->
            exists made, calls h' = (calls h ++ made)%list /\ made = []).
  { intros h' E. exists []. rewrite app_nil_r. auto. }
  destruct (negb (truthy (dict_get "messages" (PList []) params))).
  { exists []. rewrite app_nil_r. cbn. auto. }
  pose proof (lookup_cache_frame Router (dict_get "messages" (PList []) params)
                (requested_model_of params) (dict_get "stream" (PBool false) params)
                params h (tick clk)) as (_ & F1).
  destruct (lookup_cache_ _ _ _ params h (tick clk)) as [[[looked|e] h1] c1];
    cbn [st_of fst snd] in F1.
  2:{ exists []. rewrite app_nil_r. cbn. auto. }
  destruct (cache_hit (snd looked)).
  { exists []. rewrite app_nil_r. cbn. auto. }
  pose proof (select_frame_calls (dict_get "messages" (PList []) params)
                (requested_model_of params) metadata h1 c1) as F2.
  destruct (select_ _ _ metadata h1 c1) as [[[selected|e] h2] c2];
    cbn [st_of fst snd] in F2.
  2:{ exists []. rewrite app_nil_r. cbn. split; [congruence | auto]. }
  assert (Hc2 : calls h2 = calls h) by congruence.
  destruct (snd (fst selected)) as [adapter|].
  2:{ exists []. rewrite app_nil_r. cbn. auto. }
  destruct (truthy (dict_get "stream" (PBool false) params)).
  { exists []. rewrite app_nil_r. cbn. auto. }
  match goal with
  | |- context [call_adapter_block_ ?st ?ck ?m ?a ?an ?ms ?ap h2 c2] =>
      destruct (call_adapter_block_calls st ck m a an ms ap h2 c2)
        as (r3 & h3 & c3 & -> & B1 & B2)
  end.
  destruct r3 as [response|e].
  - destruct (B2 response eq_refl) as (result & ->).
    eexists [_]. cbn [st_of res_of fst snd]. rewrite B1, Hc2.
    split; [reflexivity|]. split; [cbn; lia | reflexivity].
  - match goal with
    | |- context [on_adapter_error_ ?e ?m ?ms ?ap h3 c3] =>
        destruct (on_adapter_error_calls e m ms ap h3 c3)
          as (r4 & h4 & c4 & made & -> & E1 & E2 & E3)
    end.
    destruct r4 as [response|e'].
    + destruct (E3 response eq_refl) as (Hlen & data & name & ->).
      eexists (_ :: made). cbn [st_of res_of fst snd].
      rewrite E1, B1, Hc2, <- app_assoc. split; [reflexivity|].
      split; cbn; lia.
    + eexists (_ :: made). cbn [st_of res_of fst snd].
      rewrite E1, B1, Hc2, <- app_assoc. split; [reflexivity|].
      split; [cbn; lia | exact I].
Qed.

(** A streaming request leaves the cache lookup out. *)
Lemma lookup_cache_streaming messages requested_model stream params (h : Handler) c :
  truthy stream = true ->
  lookup_cache_ messages requested_model stream params h c = (Ret (None, None), h, c).
Proof.
  intros Hs. unfold lookup_cache, bind, get_state.
  destruct (cache_manager h); [rewrite Hs|]; reflexivity.
Qed.

(** The choice of the model touches neither the cache nor the adapters. *)
Lemma select_frame messages requested_model metadata (h : Handler) c :
  let o := select_ messages requested_model metadata h c in
  calls (st_of o) = calls h /\ cache_manager (st_of o) = cache_manager h.
Proof.
  unfold select, bind, get_state, on_router, ret.
  destruct (model_router h) as [r|] eqn:Er; [|now cbn].
  rewrite Er. destruct (res_of _); now cbn.
Qed.

(** A request with [stream] set ends with the streaming dict, or with an
    error dict; it reads no cache and calls no adapter, and the
    parameters of the streaming dict are the request's without
    [messages] and [stream], with the model chosen. *)
Lemma streaming_request_run params metadata (h : Handler) clk :
  truthy (dict_get "stream" (PBool false) params) = true ->
  let o := handle_chat_ params metadata h clk in
  calls (st_of o) = calls h /\
  cache_manager (st_of o) = cache_manager h /\
  ((exists text, res_of o = Ret (Error text)) \/
   (exists name model,
      res_of o = Ret (Streaming name
                        (dict_put "model" (PStr model)
                           (without ["messages"; "stream"] params))))).
Proof.
  intros Hs. cbn zeta. rewrite handle_chat_run. cbn zeta.
  destruct (negb (truthy (dict_get "messages" (PList []) params))).
  { cbn. eauto. }
  rewrite lookup_cache_streaming by exact Hs. cbn [cache_hit snd fst].
  pose proof (select_frame (dict_get "messages" (PList []) params)
                (requested_model_of params) metadata h (tick clk)) as F.
  cbn zeta in F.
  destruct (select_ _ _ metadata h (tick clk)) as [[[selected|e] h2] c2];
    cbn [st_of fst snd] in F; destruct F as (F1 & F2).
  - destruct (snd (fst selected)); [rewrite Hs|]; cbn; eauto 6.
  - cbn. eauto.
Qed.

(** [get] returns, and leaves the configuration alone. *)
Lemma get_returns k (cm : cache_manager.CacheManager pyval) clk :
  exists r,
    res_of (cache_manager.get k cm clk) = Ret r /\
    cache_manager.config (st_of (cache_manager.get k cm clk)) = cache_manager.config cm.
Proof.
  cache_manager.run_cache.
  destruct (cache_manager.enabled (cache_manager.config cm)); [|cbn; eauto].
  cbn [negb].
  destruct (cache_manager.is_file (cache_manager.config cm)) eqn:F;
    destruct (cache_manager.od_get k (cache_manager.cache cm)) as [e|];
    cache_manager.simp_cache; rewrite ?F;
    try (destruct (cache_manager.files cm !! k) as [[e|]|]; cache_manager.simp_cache);
    repeat (match goal with
            | |- context [cache_manager.is_expired ?t ?e] =>
                destruct (cache_manager.is_expired t e)
            end; cache_manager.simp_cache; rewrite ?F; cache_manager.simp_cache);
    eauto.
Qed.

(** The cache lookup of a request that is not streamed. *)
Lemma lookup_cache_cached messages requested_model stream params (h : Handler) c cm :
  cache_manager h = Some cm ->
  truthy stream = false ->
  let key := _generate_cache_key messages requested_model params in
  let o := cache_manager.get key cm c in
  exists r,
    res_of o = Ret r /\
    lookup_cache_ messages requested_model stream params h c
    = (Ret (Some key, r), mk_handler (Some (st_of o)) (model_router h) (calls h),
       clk_of o).
Proof.
  intros Hcm Hs key o.
  destruct (get_returns key cm c) as (r & Hr & _). fold o in Hr.
  exists r. split; [exact Hr|].
  unfold lookup_cache, bind at 1, get_state. rewrite Hcm, Hs. cbn [negb].
  unfold bind, on_cache, ret. rewrite Hcm. fold key. fold o. cbn zeta.
  rewrite Hr. reflexivity.
Qed.

(** When the adapter's block returns, the response is the adapter's
    result, and an enabled cache holds it under the key of the request. *)
Lemma call_adapter_block_stores start_time key model adapter adapter_name messages
  adapter_params (h : Handler) c cm response h3 c3 :
  cache_manager h = Some cm ->
  cache_manager.enabled (cache_manager.config cm) = true ->
  call_adapter_block_ start_time (Some key) model adapter adapter_name messages
    adapter_params h c = (Ret response, h3, c3) ->
  exists result cm3 e,
    response = Success result adapter_name /\
    cache_manager h3 = Some cm3 /\
    cache_manager.enabled (cache_manager.config cm3) = true /\
    cache_manager.od_get key (cache_manager.cache cm3) = Some e /\
    cache_manager.value e = result.
Proof.
  intros Hcm Hen.
  unfold call_adapter_block, bind at 1, chat_call.
  destruct (adapter_chat adapter messages adapter_params (length (calls h)))
    as [result|e]; [|discriminate].
  unfold bind at 1, now, time_time.
  unfold bind at 1, on_router at 1. cbn [model_router cache_manager calls].
  set (after := fun (r : option Router) =>
         mk_handler (cache_manager h) r
           (calls h ++ [mk_call adapter messages adapter_params])%list).
  assert (Hstep : forall (h' : Handler) c',
            cache_manager h' = Some cm ->
            bind (on_cache Router (cache_manager.set reload key result None) tt)
                 (fun _ => ret (Success result adapter_name)) h' c'
            = (Ret response, h3, c3) ->
            exists result0 cm3 e,
              response = Success result0 adapter_name /\
              cache_manager h3 = Some cm3 /\
              cache_manager.enabled (cache_manager.config cm3) = true /\
              cache_manager.od_get key (cache_manager.cache cm3) = Some e /\
              cache_manager.value e = result0).
  { intros h' c' Hcm'. unfold bind, on_cache, ret. rewrite Hcm'.
    rewrite cache_manager.set_spec by exact Hen.
    cbn [res_of st_of clk_of fst snd]. intros [= <- <- <-].
    set (entry := cache_manager.mk_entry key result _ _ 0 _).
    set (base := if (_ <=? _)%Z then cache_manager.evicted cm else cm).
    destruct (cache_manager.put_entry_get reload key entry base) as (Hget & Hcfg & _).
    exists result, (cache_manager.put_entry reload key entry base), entry.
    repeat split; try assumption. rewrite Hcfg. subst base.
    destruct (_ <=? _)%Z; [|exact Hen].
    destruct (cache_manager.evicted_frame cm) as (-> & _). exact Hen. }
  destruct (model_router h) as [r|].
  - destruct (router_record_success model _ r _) as [[[u|e] r'] c'];
      cbn [res_of st_of clk_of fst snd]; [|discriminate].
    apply Hstep. exact Hcm.
  - apply Hstep. exact Hcm.
Qed.

(** The [except] block never returns the plain success dict. *)
Lemma on_adapter_error_response adapter_error model messages adapter_params
  (h : Handler) c response h' c' :
  on_adapter_error_ adapter_error model messages adapter_params h c
  = (Ret response, h', c') ->
  exists data name, response = FallbackSuccess data name model.
Proof.
  unfold on_adapter_error, bind at 1, get_state.
  destruct (model_router h) as [r|] eqn:Er; [|discriminate].
  unfold bind at 1.
  destruct (on_router Router (router_record_failure model) tt h c)
    as [[[u|e] h1] c1]; [|discriminate].
  unfold bind at 1.
  destruct (on_router Router (get_fallback_model model) None h1 c1)
    as [[[fallback_info|e] h2] c2]; [|discriminate].
  destruct fallback_info as [[fallback_model fallback_adapter_name]|]; [|discriminate].
  destruct (adapters_get adapters (Some fallback_adapter_name)); [|discriminate].
  unfold error_handler.catch, bind, chat_call, ret, raise.
  destruct (adapter_chat _ _ _ _); [|discriminate].
  intros [= <- _ _]. eauto.
Qed.

(** X27.  A request answered by an adapter is answered from the cache
    the next time: when [handle_chat], with an enabled cache attached,
    returns the plain success dict with a result that counts as true,
    the same request (whatever its metadata), made before the cached
    entry expires, gets that result back with [cached] set, and no
    adapter and no router is asked. *)
Theorem repeated_request_is_answered_from_the_cache
  params metadata metadata' (h : Handler) clk cm result name :
  let key := _generate_cache_key (dict_get "messages" (PList []) params)
               (requested_model_of params) params in
  let o1 := handle_chat_ params metadata h clk in
  let o2 := handle_chat_ params metadata' (st_of o1) (clk_of o1) in
  cache_manager h = Some cm ->
  cache_manager.enabled (cache_manager.config cm) = true ->
  res_of o1 = Ret (Success result name) ->
  truthy result = true ->
  (forall cm1 e,
     cache_manager (st_of o1) = Some cm1 ->
     cache_manager.od_get key (cache_manager.cache cm1) = Some e ->
     sample (clk_of o1) 1 - cache_manager.created_at e
     <= inject_Z (cache_manager.ttl e)) ->
  res_of o2 = Ret (Cached result) /\
  calls (st_of o2) = calls (st_of o1) /\
  model_router (st_of o2) = model_router (st_of o1).
Proof.
  intros key o1 o2 Hcm Hen Hfirst Htrue Hlive.
  assert (A : truthy (dict_get "messages" (PList []) params) = true /\
              truthy (dict_get "stream" (PBool false) params) = false /\
              exists cm1 e,
                cache_manager (st_of o1) = Some cm1 /\
                cache_manager.enabled (cache_manager.config cm1) = true /\
                cache_manager.od_get key (cache_manager.cache cm1) = Some e /\
                cache_manager.value e = result).
  { clear Hlive o2. revert Hfirst. subst o1. rewrite handle_chat_run. cbn zeta.
    destruct (truthy (dict_get "messages" (PList []) params)); [|discriminate].
    cbn [negb].
    destruct (truthy (dict_get "stream" (PBool false) params)) eqn:Hs.
    { rewrite lookup_cache_streaming by exact Hs. cbn [cache_hit snd fst].
      destruct (select_ _ _ metadata h (tick clk)) as [[[selected|e] h2] c2];
        [|discriminate].
      destruct (snd (fst selected)); discriminate. }
    destruct (lookup_cache_cached (dict_get "messages" (PList []) params)
                (requested_model_of params) (dict_get "stream" (PBool false) params)
                params h (tick clk) cm Hcm Hs) as (r & Hr & ->).
    fold key. cbn [fst snd].
    destruct (get_returns key cm (tick clk)) as (r' & _ & Hcfg).
    set (g := cache_manager.get key cm (tick clk)) in *.
    destruct (cache_hit r); [discriminate|].
    pose proof (select_frame (dict_get "messages" (PList []) params)
                  (requested_model_of params) metadata
                  (mk_handler (Some (st_of g)) (model_router h) (calls h)) (clk_of g)) as F.
    cbn zeta in F.
    destruct (select_ _ _ metadata _ (clk_of g)) as [[[selected|e] h2] c2];
      [|discriminate].
    cbn [st_of fst snd cache_manager] in F. destruct F as (_ & F).
    destruct (snd (fst selected)) as [adapter|]; [|discriminate].
    destruct (call_adapter_block_ _ _ _ _ _ _ _ h2 c2) as [[[response|e] h3] c3] eqn:B.
    - cbn [res_of st_of fst snd]. intros [= ->].
      assert (Hen' : cache_manager.enabled (cache_manager.config (st_of g)) = true)
        by (rewrite Hcfg; exact Hen).
      destruct (call_adapter_block_stores _ _ _ _ _ _ _ _ _ _ _ _ _ F Hen' B)
        as (result0 & cm3 & e & Hresp & H3 & Hen3 & Hget & Hval).
      injection Hresp as <- _. split; [reflexivity|]. split; [reflexivity|]. eauto 6.
    - destruct (on_adapter_error_ _ _ _ _ h3 c3) as [[[response|e'] h4] c4] eqn:E.
      + cbn [res_of fst]. intros [= ->].
        apply on_adapter_error_response in E. destruct E as (? & ? & E). discriminate E.
      + discriminate. }
  destruct A as (Hm & Hs & cm1 & e & Hcm1 & Hen1 & Hget & Hval).
  specialize (Hlive cm1 e Hcm1 Hget).
  subst o2. clearbody o1. rewrite handle_chat_run. cbn zeta. rewrite Hm. cbn [negb].
  destruct (lookup_cache_cached (dict_get "messages" (PList []) params)
              (requested_model_of params) (dict_get "stream" (PBool false) params)
              params (st_of o1) (tick (clk_of o1)) cm1 Hcm1 Hs) as (r & Hr & ->).
  fold key in Hr |- *.
  rewrite (cache_manager.get_hit cm1 (tick (clk_of o1)) key e Hen1 Hget Hlive) in Hr |- *.
  cbn [res_of fst] in Hr. injection Hr as <-.
  cbn [snd fst cache_hit]. rewrite Hval, Htrue.
  cbn. auto.
Qed.

End paths.

Lemma handle_chat_calls_an_adapter_at_most_twice_witness :
  model_is_text hi_request = true /\
  exists made,
    calls (st_of scripted_out) = made /\ length made = 2%nat.
Proof.
  split; [reflexivity|].
  destruct (handle_chat_calls_an_adapter_at_most_twice
              ScriptedRouter scripted_select_model scripted_record_success
              scripted_record_failure scripted_get_fallback_model
              ["primary"; "backup"] primary_down Some
              hi_request [] scripted_handler (clock_of_list [] 0) eq_refl)
    as (made & Hcalls & _ & Hshape).
  exists made. split; [exact Hcalls|].
  change (handle_chat ScriptedRouter scripted_select_model scripted_record_success
            scripted_record_failure scripted_get_fallback_model
            ["primary"; "backup"] primary_down Some hi_request [] scripted_handler
            (clock_of_list [] 0)) with scripted_out in Hshape.
  replace (res_of scripted_out)
    with (Ret (FallbackSuccess (PStr "hello") "backup" "M1") : Res Response) in Hshape
    by (vm_compute; reflexivity).
  exact Hshape.
Defined.

(** Adapters that always answer. *)
Definition always_answers (name : string) (_ : pyval) (_ : list (string * pyval))
  (_ : nat) : Res pyval :=
  Ret (PStr "hello").

Definition answering_handle_chat :=
  handle_chat ScriptedRouter scripted_select_model scripted_record_success
    scripted_record_failure scripted_get_fallback_model ["primary"; "backup"]
    always_answers Some.

Lemma repeated_request_is_answered_from_the_cache_witness :
  let o1 := answering_handle_chat hi_request [] scripted_handler (clock_of_list [] 0) in
  let o2 := answering_handle_chat hi_request [("client", "c2")] (st_of o1) (clk_of o1) in
  res_of o1 = Ret (Success (PStr "hello") (Some "primary")) /\
  res_of o2 = Ret (Cached (PStr "hello")) /\
  calls (st_of o2) = calls (st_of o1).
Proof.
  cbn zeta.
  assert (Hfirst : res_of (answering_handle_chat hi_request [] scripted_handler
                             (clock_of_list [] 0))
                   = Ret (Success (PStr "hello") (Some "primary")))
    by (vm_compute; reflexivity).
  split; [exact Hfirst|].
  destruct (repeated_request_is_answered_from_the_cache
              ScriptedRouter scripted_select_model scripted_record_success
              scripted_record_failure scripted_get_fallback_model
              ["primary"; "backup"] always_answers Some
              hi_request [] [("client", "c2")] scripted_handler (clock_of_list [] 0)
              (cache_manager.new_manager (cache_manager.memory_config 10) ∅)
              (PStr "hello") (Some "primary") eq_refl eq_refl Hfirst eq_refl)
    as (H2 & H3 & _).
  - intros cm1 e Hc Hg. vm_compute in Hc. injection Hc as <-.
    vm_compute in Hg. injection Hg as <-.
    apply Qle_bool_iff. vm_compute. reflexivity.
  - split; [exact H2 | exact H3].
Defined.

End chat.

(** * errors/error_handler.py: the error responses

    [handle_error] and [_format_error_response] build dicts of Python
    values. *)

Module error_responses.
Import pylib.
Import error_handler.

(** [isinstance(error, AIServiceError)]: the base class and its four
    subclasses in [errors/exceptions.py]. *)
Definition is_ai_service_error (e : exn) : bool :=
  match exn_class_of e with
  | AIServiceError | ModelNotFoundError | RateLimitError | AdapterError
  | ValidationError => true
  | _ => false
  end.

(** [d.get(key)]. *)
Fixpoint dict_lookup (key : string) (d : list (string * pyval)) : option pyval :=
  match d with
  | [] => None
  | (k, v) :: d' => if String.eqb key k then Some v else dict_lookup key d'
  end.

(** [d.update(other)]. *)
Definition dict_update (d other : list (string * pyval)) : list (string * pyval) :=
  fold_left (fun acc kv => dict_set (fst kv) (snd kv) acc) other d.

Section responses.

(** The attribute [details] of an [AIServiceError]. *)
Variable details_of : exn -> list (string * pyval).

(** [ErrorHandler._format_error_response]. *)
Definition _format_error_response (cfg : ErrorConfig) (error : exn)
  (context : option (list (string * pyval))) : list (string * pyval) :=
  let response := [("status", PStr "error"); ("error", PStr (exn_str error))] in
  let response :=
    match exn_error_code error with
    | Some code =>
        if is_ai_service_error error && negb (String.eqb code "")
        then dict_set "error_code" (PStr code) response
        else response
    | None => response
    end in
  if include_details cfg then
    let details :=
      if is_ai_service_error error
      then match details_of error with
           | [] => []
           | d => dict_update [] d
           end
      else [] in
    let details :=
      match context with
      | Some (_ :: _ as c) => dict_set "context" (PDict c) details
      | _ => details
      end in
    let response := dict_set "details" (PDict details) response in
    match exn_class_of error, dict_lookup "wait_time" (details_of error) with
    | RateLimitError, Some wait_time =>
        if chat.truthy wait_time then dict_set "retry_after" wait_time response
        else response
    | _, _ => response
    end
  else response.

(** [ErrorHandler.handle_error]; [fallback_func] is what awaiting the
    fallback does, when one is given.  The log lines are not modelled. *)
Definition handle_error (error : exn) (context : option (list (string * pyval)))
  (fallback_func : option (M World pyval)) : M World pyval :=
  (_record_error error ;;
   w <- get_state ;;
   let respond (e : exn) : M World pyval :=
     (w <- get_state ;;
      ret (PDict (_format_error_response (config (handler w)) e context)))%py in
   match fallback_func with
   | Some fallback =>
       if enable_fallback (config (handler w)) then
         catch
           (modify (fun w =>
              let st := error_stats (handler w) in
              set_stats (mk_stats (total_errors st) (retries st) (fallbacks st + 1)
                           (circuit_breaker_trips st) (error_types st)) w) ;;
            fallback)
           respond
       else respond error
   | None => respond error
   end)%py.

(** The world in which the fallback starts: the error recorded and the
    fallback counted. *)
Definition before_fallback (error : exn) (w : World) : World :=
  let w1 := st_of (_record_error error w (clock_of_list [] 0)) in
  let st := error_stats (handler w1) in
  set_stats (mk_stats (total_errors st) (retries st) (fallbacks st + 1)
               (circuit_breaker_trips st) (error_types st)) w1.

Lemma dict_lookup_set_other key k v d :
  key <> k -> dict_lookup key (dict_set k v d) = dict_lookup key d.
Proof.
  intros H. induction d as [|[k' v'] d IH]; cbn.
  - destruct (String.eqb_spec key k); [contradiction | reflexivity].
  - destruct (String.eqb_spec k k') as [->|Hk]; cbn.
    + destruct (String.eqb_spec key k'); [contradiction | reflexivity].
    + destruct (String.eqb_spec key k'); [reflexivity | exact IH].
Qed.

Lemma response_status_and_error cfg error context :
  dict_lookup "status" (_format_error_response cfg error context) = Some (PStr "error") /\
  dict_lookup "error" (_format_error_response cfg error context)
  = Some (PStr (exn_str error)).
Proof.
  unfold _format_error_response.
  repeat match goal with
  | |- context [match ?x with _ => _ end] => destruct x
  end; rewrite ?dict_lookup_set_other by discriminate; split; reflexivity.
Qed.

(** X12.  [handle_error] counts the error it is given and, when no fallback
    runs, describes that error; when a fallback is given and enabled it
    is counted and run once, its result is returned as it is, and when it
    raises, the response describes the fallback's error, not the error
    that was to be handled, and the fallback's error is not counted.  The
    response always carries [status = "error"] and the text of the error
    it describes. *)
Theorem handle_error_reports_the_failed_fallback
  (error : exn) (context : option (list (string * pyval)))
  (fallback : M World pyval) (w : World) (clk : Clock) :
  let recorded := st_of (_record_error error w clk) in
  let cfg := config (handler w) in
  handle_error error context None w clk
  = (Ret (PDict (_format_error_response cfg error context)), recorded, clk) /\
  (enable_fallback cfg = false ->
   handle_error error context (Some fallback) w clk
   = (Ret (PDict (_format_error_response cfg error context)), recorded, clk)) /\
  (enable_fallback cfg = true ->
   match fallback (before_fallback error w) clk with
   | (Ret result, w', clk') =>
       handle_error error context (Some fallback) w clk = (Ret result, w', clk')
   | (Raise fallback_error, w', clk') =>
       exists response,
         handle_error error context (Some fallback) w clk
         = (Ret (PDict response), w', clk') /\
         response = _format_error_response (config (handler w')) fallback_error context /\
         dict_lookup "status" response = Some (PStr "error") /\
         dict_lookup "error" response = Some (PStr (exn_str fallback_error))
   end) /\
  total_errors (error_stats (handler (before_fallback error w)))
  = (total_errors (error_stats (handler w)) + 1)%Z /\
  fallbacks (error_stats (handler (before_fallback error w)))
  = (fallbacks (error_stats (handler w)) + 1)%Z.
Proof.
  intros recorded cfg. subst recorded cfg.
  split; [reflexivity|]. split; [|split; [|split; reflexivity]].
  - intros Hoff. unfold handle_error. cbv [bind _record_error modify get_state].
    cbn [handler config set_stats set_handler]. rewrite Hoff. reflexivity.
  - intros Hon. unfold handle_error. cbv [bind _record_error modify get_state catch].
    cbn [handler config set_stats set_handler]. rewrite Hon.
    change (fallback _ clk) with (fallback (before_fallback error w) clk).
    destruct (fallback (before_fallback error w) clk) as [[[result|fallback_error] w'] clk'];
      [reflexivity|].
    eexists. split; [reflexivity|]. split; [reflexivity|].
    apply response_status_and_error.
Qed.

End responses.

Lemma handle_error_reports_the_failed_fallback_witness :
  let w := mk_world (new_handler default_config) 0 [] in
  let fallback : M World pyval := raise (builtin_exn ValueError "no backup") in
  enable_fallback (config (handler w)) = true /\
  res_of (handle_error (fun _ => [])
            (builtin_exn (Foreign "TimeoutError") "timed out") None
            (Some fallback) w (clock_of_list [] 0))
  = Ret (PDict [("status", PStr "error"); ("error", PStr "no backup")]).
Proof.
  cbv zeta. split; [reflexivity|].
  destruct (handle_error_reports_the_failed_fallback (fun _ => [])
              (builtin_exn (Foreign "TimeoutError") "timed out") None
              (raise (builtin_exn ValueError "no backup"))
              (mk_world (new_handler default_config) 0 []) (clock_of_list [] 0))
    as (_ & _ & H & _).
  specialize (H eq_refl). cbv [raise] in H |- *.
  destruct H as (response & E & -> & _).
  rewrite E. reflexivity.
Defined.

End error_responses.

(** * ipc/client.py *)

Module client.
Import pylib.
Import protocol.

Section ipc.
Variable json_loads : string -> option pyval.
Variable py_str : pyval -> string.

(** What the registered handlers work on (adapters, caches), outside
    the client. *)
Variable World : Type.

(** A handler: called with the request data and the metadata, it returns
    the payload of the response or raises. *)
Definition Handler : Type := pyval -> pyval -> World -> Res Payload * World.

(** [NeoIPCClient].  The reader holds the bytes still to arrive before
    the stream ends, the writer the bytes written so far; both are None
    before [connect].  [service_name] is the name given to
    [register_service]: [run], the only caller of [_handle_request],
    refuses to start without it. *)
Record NeoIPCClient := mk_client {
  reader : option (list byte);
  writer : option (list byte);
  handlers : gmap string Handler;
  service_name : string
}.

Definition State : Type := NeoIPCClient * World.

Definition set_reader (r : list byte) (st : State) : State :=
  (mk_client (Some r) (writer (fst st)) (handlers (fst st)) (service_name (fst st)),
   snd st).

Definition set_writer (w : list byte) (st : State) : State :=
  (mk_client (reader (fst st)) (Some w) (handlers (fst st)) (service_name (fst st)),
   snd st).

Definition RuntimeError : exn_class := Foreign "RuntimeError".
Definition IncompleteReadError : exn_class := Foreign "IncompleteReadError".

(** [self.writer.write(data)]. *)
Definition write (data : list byte) : M State unit :=
  modify (fun st => set_writer (default [] (writer (fst st)) ++ data) st).

(** [NeoIPCClient._send_message]: what [encode_message] raises is
    logged and raised again. *)
Definition _send_message (msg : Message) : M State unit :=
  (st <- get_state ;;
   match writer (fst st) with
   | None => raise (builtin_exn RuntimeError "Not connected to Neo Framework")
   | Some _ =>
       data <- lift_res (encode_message py_str msg) ;;
       write data
   end)%py.

(** [await reader.readexactly(n)]: the stream ending before [n] bytes
    have arrived raises [IncompleteReadError]. *)
Definition readexactly (n : nat) : M State (list byte) :=
  (st <- get_state ;;
   let buffer := default [] (reader (fst st)) in
   if (n <=? length buffer)%nat
   then modify (set_reader (skipn n buffer)) ;; ret (firstn n buffer)
   else modify (set_reader []) ;;
        raise (builtin_exn IncompleteReadError "incomplete read"))%py.

(** [try: body except asyncio.IncompleteReadError: return None]; any
    other exception is raised again. *)
Definition or_none {A} (body : M State (option A)) : M State (option A) :=
  fun st clk =>
    match body st clk with
    | (Raise e, st', clk') =>
        match exn_class_of e with
        | Foreign "IncompleteReadError" => (Ret None, st', clk')
        | _ => (Raise e, st', clk')
        end
    | o => o
    end.

(** [NeoIPCClient._read_message]. *)
Definition _read_message : M State (option Message) :=
  (st <- get_state ;;
   match reader (fst st) with
   | None => ret None
   | Some _ =>
       or_none
         (len_bytes <- readexactly 4 ;;
          msg_len <- lift_res (unpack_u32 len_bytes) ;;
          msg_bytes <- readexactly (N.to_nat msg_len) ;;
          msg <- lift_res (decode_message json_loads msg_bytes) ;;
          ret (Some msg))
   end)%py.

(** [result = await handler(request_data, msg.metadata)]. *)
Definition call_handler (handler : Handler) (request_data meta : pyval)
  : M State Payload :=
  fun st clk =>
    let (r, w) := handler request_data meta (snd st) in
    (r, (fst st, w), clk).

(** [try: body except Exception as e: recover e]. *)
Definition try_except {A} (body : M State A) (recover : exn -> M State A) : M State A :=
  fun st clk =>
    match body st clk with
    | (Raise e, st', clk') => recover e st' clk'
    | o => o
    end.

Definition method_not_found (msg : Message) (name : string) : Message :=
  mk_message ERROR (id msg) name (method msg)
    (Value (PDict [("error", PStr ("Method '" ++ method msg ++ "' not found"))]))
    (PDict [("error", PStr "true")]).

Definition response_to (msg : Message) (name : string) (result : Payload) : Message :=
  mk_message RESPONSE (id msg) name (method msg) result (PDict []).

Definition error_reply (msg : Message) (name : string) (e : exn) : Message :=
  mk_message ERROR (id msg) name (method msg)
    (Value (PDict [("error", PStr (exn_str e));
                   ("type", PStr (error_handler.class_name (exn_class_of e)))]))
    (PDict [("error", PStr "true")]).

(** [NeoIPCClient._handle_request]. *)
Definition _handle_request (msg : Message) : M State unit :=
  (st <- get_state ;;
   match handlers (fst st) !! method msg with
   | None => _send_message (method_not_found msg (service_name (fst st)))
   | Some handler =>
       try_except
         (let request_data :=
            match data msg with
            | Value (PDict d) => PDict d
            | _ => PDict []
            end in
          result <- call_handler handler request_data (metadata msg) ;;
          _send_message (response_to msg (service_name (fst st)) result))
         (fun e => _send_message (error_reply msg (service_name (fst st)) e))
   end)%py.

Lemma send_message_run msg bytes out (st : State) clk :
  writer (fst st) = Some out ->
  encode_message py_str msg = Ret bytes ->
  _send_message msg st clk = (Ret tt, set_writer (out ++ bytes) st, clk).
Proof.
  intros Hw He. unfold _send_message, bind, get_state, lift_res, write, modify.
  rewrite Hw, He. cbn. rewrite Hw. reflexivity.
Qed.

Lemma send_message_fails msg e out (st : State) clk :
  writer (fst st) = Some out ->
  encode_message py_str msg = Raise e ->
  _send_message msg st clk = (Raise e, st, clk).
Proof.
  intros Hw He. unfold _send_message, bind, get_state, lift_res.
  rewrite Hw, He. reflexivity.
Qed.

Lemma readexactly_enough n (a rest : list byte) (st : State) clk :
  n = length a ->
  reader (fst st) = Some (a ++ rest)%list ->
  readexactly n st clk = (Ret a, set_reader rest st, clk).
Proof.
  intros -> Hr. unfold readexactly, bind, get_state, modify, ret.
  rewrite Hr. cbn [default from_option id]. unfold Datatypes.id.
  replace (length a <=? length (a ++ rest))%nat with true
    by (symmetry; apply Nat.leb_le; rewrite length_app; lia).
  rewrite drop_app_length, take_app_length. reflexivity.
Qed.

Lemma readexactly_short n (b : list byte) (st : State) clk :
  reader (fst st) = Some b -> (length b < n)%nat ->
  exists e,
    exn_class_of e = IncompleteReadError /\
    readexactly n st clk = (Raise e, set_reader [] st, clk).
Proof.
  intros Hr Hn. unfold readexactly, bind, get_state, modify, raise.
  rewrite Hr. cbn [default from_option id]. unfold Datatypes.id.
  replace (n <=? length b)%nat with false by (symmetry; apply Nat.leb_gt; exact Hn).
  eexists. split; [|reflexivity]. reflexivity.
Qed.

Lemma set_reader_reader r (st : State) : reader (fst (set_reader r st)) = Some r.
Proof. reflexivity. Qed.


Lemma handle_request_run msg (st : State) clk :
  _handle_request msg st clk
  = match handlers (fst st) !! method msg with
    | None => _send_message (method_not_found msg (service_name (fst st))) st clk
    | Some handler =>
        let request_data :=
          match data msg with
          | Value (PDict d) => PDict d
          | _ => PDict []
          end in
        match handler request_data (metadata msg) (snd st) with
        | (Ret result, w) =>
            match _send_message (response_to msg (service_name (fst st)) result)
                    (fst st, w) clk with
            | (Raise e, st', clk') =>
                _send_message (error_reply msg (service_name (fst st)) e) st' clk'
            | o => o
            end
        | (Raise e, w) =>
            _send_message (error_reply msg (service_name (fst st)) e) (fst st, w) clk
        end
    end.
Proof.
  unfold _handle_request, bind at 1, get_state at 1.
  destruct (handlers (fst st) !! method msg) as [handler|]; [|reflexivity].
  cbn zeta. unfold try_except, bind at 1, call_handler.
  destruct (handler _ (metadata msg) (snd st)) as [[result|e] w]; reflexivity.
Qed.

(** X25.  On a connected client [_handle_request] answers a request with
    one message that carries the id and the method of the request and the
    name of the service, and writes nothing else: an ERROR message when
    no handler is registered for the method or when the handler (or the
    sending of its result) raises, a RESPONSE with the handler's result
    otherwise.  When the answer cannot be encoded the exception is raised
    and nothing is written.  Reader, handlers and service name are left
    as they were. *)
Theorem handle_request_answers_once
  (msg : Message) (out : list byte) (st : State) clk
  (Hconnected : writer (fst st) = Some out) :
  let name := service_name (fst st) in
  let o := _handle_request msg st clk in
  exists answer,
    id answer = id msg /\ method answer = method msg /\ service answer = name /\
    match handlers (fst st) !! method msg with
    | None => answer = method_not_found msg name
    | Some handler =>
        let request_data :=
          match data msg with
          | Value (PDict d) => PDict d
          | _ => PDict []
          end in
        snd (st_of o) = snd (handler request_data (metadata msg) (snd st)) /\
        match fst (handler request_data (metadata msg) (snd st)) with
        | Ret result =>
            match encode_message py_str (response_to msg name result) with
            | Ret _ => answer = response_to msg name result
            | Raise e => answer = error_reply msg name e
            end
        | Raise e => answer = error_reply msg name e
        end
    end /\
    reader (fst (st_of o)) = reader (fst st) /\
    handlers (fst (st_of o)) = handlers (fst st) /\
    service_name (fst (st_of o)) = name /\
    match encode_message py_str answer with
    | Ret frame =>
        res_of o = Ret tt /\ writer (fst (st_of o)) = Some (out ++ frame)%list
    | Raise e =>
        res_of o = Raise e /\ writer (fst (st_of o)) = Some out
    end.
Proof.
  cbn zeta. rewrite handle_request_run.
  destruct (handlers (fst st) !! method msg) as [handler|] eqn:Hh.
  - cbn zeta.
    set (request_data := match data msg with
                         | Value (PDict d) => PDict d
                         | _ => PDict []
                         end).
    destruct (handler request_data (metadata msg) (snd st)) as [[result|e] w] eqn:Hcall;
      cbn [fst snd].
    + destruct (encode_message py_str (response_to msg (service_name (fst st)) result))
        as [frame|e] eqn:He.
      * exists (response_to msg (service_name (fst st)) result).
        rewrite (send_message_run _ frame out (fst st, w) clk Hconnected He).
        rewrite He. cbn. repeat split; reflexivity.
      * exists (error_reply msg (service_name (fst st)) e).
        rewrite (send_message_fails _ e out (fst st, w) clk Hconnected He).
        destruct (encode_message py_str (error_reply msg (service_name (fst st)) e))
          as [frame|e'] eqn:He'.
        -- rewrite (send_message_run _ frame out (fst st, w) clk Hconnected He').
           cbn. repeat split; reflexivity.
        -- rewrite (send_message_fails _ e' out (fst st, w) clk Hconnected He').
           cbn. repeat split; try reflexivity. exact Hconnected.
    + exists (error_reply msg (service_name (fst st)) e).
      destruct (encode_message py_str (error_reply msg (service_name (fst st)) e))
        as [frame|e'] eqn:He'.
      * rewrite (send_message_run _ frame out (fst st, w) clk Hconnected He').
        cbn. repeat split; reflexivity.
      * rewrite (send_message_fails _ e' out (fst st, w) clk Hconnected He').
        cbn. repeat split; try reflexivity. exact Hconnected.
  - exists (method_not_found msg (service_name (fst st))).
    destruct (encode_message py_str (method_not_found msg (service_name (fst st))))
      as [frame|e'] eqn:He'.
    + rewrite (send_message_run _ frame out st clk Hconnected He').
      cbn. repeat split; reflexivity.
    + rewrite (send_message_fails _ e' out st clk Hconnected He').
      cbn. repeat split; try reflexivity. exact Hconnected.
Qed.

End ipc.

Arguments mk_client {World}.
Arguments reader {World}.
Arguments writer {World}.
Arguments handlers {World}.
Arguments service_name {World}.
Arguments set_reader {World}.
Arguments set_writer {World}.

(** A connected client of the service ["ai"] with a [health] handler;
    the world of the handlers counts their calls. *)
Definition health (request_data meta : pyval) (calls : nat) : Res Payload * nat :=
  (Ret (Value (PDict [("status", PStr "success")])), S calls).

Definition connected : State nat :=
  (mk_client (Some []) (Some []) {["health" := health]} "ai", 0%nat).

Definition health_request : Message :=
  mk_message REQUEST "42" "ai" "health" (Value (PDict [])) (PDict []).

(** The frame of the message [ping]. *)
Definition ping_frame : list byte :=
  match encode_message no_str ping with
  | Ret bytes => bytes
  | Raise _ => []
  end.


Lemma handle_request_answers_once_witness :
  let o := _handle_request no_str nat health_request connected (clock_of_list [] 0) in
  res_of o = Ret tt /\
  snd (st_of o) = 1%nat /\
  exists frame,
    writer (fst (st_of o)) = Some frame /\
    decode_message loads (skipn 4 frame)
    = Ret (response_to health_request "ai"
             (Value (PDict [("status", PStr "success")]))).
Proof.
  cbn zeta.
  destruct (handle_request_answers_once no_str nat health_request [] connected
              (clock_of_list [] 0) eq_refl)
    as (answer & _ & _ & _ & Hcase & _ & _ & _ & Hsend).
  vm_compute in Hcase. destruct Hcase as (Hworld & ->).
  vm_compute in Hsend. destruct Hsend as (Hres & Hw).
  split; [exact Hres|]. split; [exact Hworld|].
  eexists. split; [exact Hw|]. vm_compute. reflexivity.
Defined.

End client.

(** * main.py *)

Module main.
Import pylib.
Import chat.

(** [d[key]] on a dict; [None] stands for the [KeyError]. *)
Fixpoint dict_item (key : string) (d : list (string * pyval)) : option pyval :=
  match d with
  | [] => None
  | (k, v) :: d' => if String.eqb key k then Some v else dict_item key d'
  end.

Definition KeyError (key : string) : exn :=
  builtin_exn (Foreign "KeyError") ("'" ++ key ++ "'").

Section service.
Variable Router : Type.
Variable select_model :
  pyval -> option string -> list (string * string) -> M Router (string * option string).
Variable router_record_success : string -> Q -> M Router unit.
Variable router_record_failure : string -> M Router unit.
Variable get_fallback_model : string -> M Router (option (string * string)).
Variable adapters : list string.
Variable adapter_chat : string -> pyval -> list (string * pyval) -> nat -> Res pyval.
Variable reload : pyval -> option pyval.

(** The handler [AIService._register_ipc_handlers] registers for the
    method ["chat"].  A streaming dict always has its [adapter];
    [adapter.chat(messages, **result['params'])] passes [messages] twice
    when the parameters hold that key, which every adapter's [chat]
    refuses with a [TypeError] (its message starts with the name of the
    adapter's class, left out here).  So the dict with the converted
    response is never returned. *)
Definition handle_chat (params : list (string * pyval))
  (metadata : list (string * string)) : M (ChatHandler Router) Response :=
  (result <- chat.handle_chat Router select_model router_record_success
               router_record_failure get_fallback_model adapters adapter_chat reload
               params metadata ;;
   match result with
   | Streaming adapter_name adapter_params =>
       match dict_item "messages" adapter_params with
       | None => raise (KeyError "messages")
       | Some messages =>
           raise (builtin_exn TypeError
                    "chat() got multiple values for argument 'messages'")
       end
   | _ => ret result
   end)%py.

Lemma dict_item_set_other key k v d :
  key <> k -> dict_item key (dict_set k v d) = dict_item key d.
Proof.
  intros Hne. induction d as [|[k' v'] d IH]; cbn.
  - destruct (String.eqb_spec key k); [contradiction | reflexivity].
  - destruct (String.eqb_spec k k') as [<-|Hk]; cbn.
    + destruct (String.eqb_spec key k); [contradiction | reflexivity].
    + destruct (String.eqb key k'); [reflexivity | exact IH].
Qed.

Lemma dict_item_without key keys d :
  In key keys -> dict_item key (without keys d) = None.
Proof.
  intros Hin. induction d as [|[k v] d IH]; cbn; [reflexivity|].
  destruct (existsb (String.eqb k) keys) eqn:E; cbn; [exact IH|].
  destruct (String.eqb_spec key k) as [->|Hk]; [|exact IH].
  exfalso. assert (existsb (String.eqb k) keys = true); [|congruence].
  apply existsb_exists. exists k. split; [exact Hin | apply String.eqb_refl].
Qed.

(** X28.  A chat request with [stream] set is never answered with a
    completion.  The handler registered in [main.py] reads [messages]
    from the parameters of the streaming dict, which [ChatHandler] has
    just built without that key, so it ends in [KeyError('messages')]
    unless the request was refused with an error dict before (no
    messages, no adapter, a failing router).  No adapter is called and
    the cache is neither read nor written. *)
Theorem streaming_request_is_never_completed
  params metadata (h : ChatHandler Router) clk
  (Hstream : truthy (dict_get "stream" (PBool false) params) = true) :
  let o := handle_chat params metadata h clk in
  calls (st_of o) = calls h /\
  cache_manager (st_of o) = cache_manager h /\
  ((exists text, res_of o = Ret (Error text)) \/
   res_of o = Raise (KeyError "messages")).
Proof.
  cbn zeta.
  pose proof (streaming_request_run Router select_model router_record_success
                router_record_failure get_fallback_model adapters adapter_chat reload
                params metadata h clk Hstream) as R.
  cbn zeta in R. unfold handle_chat, bind.
  destruct (chat.handle_chat _ _ _ _ _ _ _ _ params metadata h clk) as [[r h1] c1].
  cbn [res_of st_of fst snd] in R.
  destruct R as (Hc & Hm & [(text & ->) | (name & model & ->)]).
  - cbn. eauto.
  - unfold dict_put. rewrite dict_item_set_other by discriminate.
    rewrite dict_item_without by (left; reflexivity).
    cbn. auto.
Qed.

End service.

(** The scripted request, with [stream] set. *)
Definition streamed_request : list (string * pyval) :=
  (hi_request ++ [("stream", PBool true)])%list.

Lemma streaming_request_is_never_completed_witness :
  let o := handle_chat ScriptedRouter scripted_select_model scripted_record_success
             scripted_record_failure scripted_get_fallback_model
             ["primary"; "backup"] primary_down Some
             streamed_request [] scripted_handler (clock_of_list [] 0) in
  res_of o = Raise (KeyError "messages") /\ calls (st_of o) = [].
Proof.
  cbn zeta.
  destruct (streaming_request_is_never_completed
              ScriptedRouter scripted_select_model scripted_record_success
              scripted_record_failure scripted_get_fallback_model
              ["primary"; "backup"] primary_down Some
              streamed_request [] scripted_handler (clock_of_list [] 0) eq_refl)
    as (Hc & _ & [(text & Ht) | Hk]).
  - vm_compute in Ht. discriminate Ht.
  - split; [exact Hk | exact Hc].
Defined.

End main.

(** * router/model_selector.py *)

Module model_selector.

Inductive TaskType :=
| CHAT | CODE | TRANSLATION | SUMMARIZATION | CREATIVE | ANALYSIS | MATH | GENERAL.

Definition TaskType_eqb (a b : TaskType) : bool :=
  match a, b with
  | CHAT, CHAT | CODE, CODE | TRANSLATION, TRANSLATION
  | SUMMARIZATION, SUMMARIZATION | CREATIVE, CREATIVE | ANALYSIS, ANALYSIS
  | MATH, MATH | GENERAL, GENERAL => true
  | _, _ => false
  end.

Record ModelCapabilities := mk_capabilities {
  name : string;
  provider : string;
  task_types : list TaskType;
  max_tokens : Z;
  cost_per_1k_tokens : Q;
  speed_score : Q;
  quality_score : Q;
  supports_streaming : bool;
  supports_functions : bool;
  context_window : Z
}.

(** [ModelSelector.MODEL_CAPABILITIES], in the order of the dict. *)
Definition MODEL_CAPABILITIES : list (string * ModelCapabilities) :=
  [("gemma3:12b",
    mk_capabilities "gemma3:12b" "ollama" [CHAT; GENERAL; CREATIVE]
      4096 0 8 7 true false 8192);
   ("llama3:8b",
    mk_capabilities "llama3:8b" "ollama" [CHAT; GENERAL]
      4096 0 9 (65 # 10) true false 4096);
   ("codellama:13b",
    mk_capabilities "codellama:13b" "ollama" [CODE; ANALYSIS]
      4096 0 7 8 true false 4096);
   ("openai/gpt-3.5-turbo",
    mk_capabilities "openai/gpt-3.5-turbo" "openrouter"
      [CHAT; GENERAL; CREATIVE; ANALYSIS]
      4096 (2 # 1000) 8 8 true true 4096);
   ("openai/gpt-4",
    mk_capabilities "openai/gpt-4" "openrouter"
      [CHAT; CODE; ANALYSIS; MATH; CREATIVE]
      8192 (6 # 100) 5 10 true true 8192);
   ("anthropic/claude-3-haiku",
    mk_capabilities "anthropic/claude-3-haiku" "openrouter" [CHAT; GENERAL]
      4096 (1 # 1000) 9 (75 # 10) true false 100000);
   ("cognitivecomputations/dolphin-mistral-24b-venice-edition:free",
    mk_capabilities "cognitivecomputations/dolphin-mistral-24b-venice-edition:free"
      "openrouter" [CHAT; GENERAL; CREATIVE]
      4096 0 6 7 true false 16384)].

(** [MODEL_CAPABILITIES.get(model)]. *)
Fixpoint capabilities_in (table : list (string * ModelCapabilities)) (model : string)
  : option ModelCapabilities :=
  match table with
  | [] => None
  | (k, cap) :: table' => if String.eqb model k then Some cap else capabilities_in table' model
  end.

Definition capabilities (model : string) : option ModelCapabilities :=
  capabilities_in MODEL_CAPABILITIES model.

(** [set(a)]: the members of [a], each once. *)
Fixpoint members (a : list TaskType) : list TaskType :=
  match a with
  | [] => []
  | t :: a' => if existsb (TaskType_eqb t) a' then members a' else t :: members a'
  end.

(** [len(set(a) & set(b))]. *)
Definition common_tasks (a b : list TaskType) : nat :=
  length (List.filter (fun t => existsb (TaskType_eqb t) b) (members a)).

(** The sort key of [get_fallback_models]: the quality score, 0 for a
    model that is not in the table. *)
Definition quality (model : string) : Q :=
  match capabilities model with
  | Some cap => quality_score cap
  | None => 0
  end.

(** [fallbacks.sort(key=quality, reverse=True)]: descending and stable. *)
Fixpoint insert_by_quality (m : string) (l : list string) : list string :=
  match l with
  | [] => [m]
  | x :: l' =>
      if Qle_bool (quality x) (quality m) then m :: l
      else x :: insert_by_quality m l'
  end.

Definition sort_by_quality (l : list string) : list string :=
  fold_right insert_by_quality [] l.

(** [ModelSelector.get_fallback_models]. *)
Definition get_fallback_models (primary_model : string) : list string :=
  let fallbacks :=
    match capabilities primary_model with
    | Some primary_cap =>
        map fst
          (List.filter
             (fun entry =>
                negb (String.eqb (fst entry) primary_model)
                && Qle_bool (inject_Z (Z.of_nat (length (task_types primary_cap)))
                             * (1 # 2))
                            (inject_Z (Z.of_nat
                               (common_tasks (task_types primary_cap)
                                             (task_types (snd entry))))))
             MODEL_CAPABILITIES)
    | None => []
    end in
  firstn 3 (sort_by_quality fallbacks).

Lemma insert_by_quality_in m x l : In x (insert_by_quality m l) -> x = m \/ In x l.
Proof.
  induction l as [|y l IH]; cbn.
  - intros [<-|[]]. auto.
  - destruct (Qle_bool (quality y) (quality m)); cbn.
    + intros [<-|H]; auto.
    + intros [<-|H]; auto. destruct (IH H); auto.
Qed.

Lemma sort_by_quality_in x l : In x (sort_by_quality l) -> In x l.
Proof.
  induction l as [|y l IH]; cbn; [auto|].
  intros H. apply insert_by_quality_in in H. destruct H as [->|H]; auto.
Qed.

Lemma in_firstn {A} n (l : list A) x : In x (firstn n l) -> In x l.
Proof.
  revert l. induction n as [|n IH]; intros [|y l]; cbn; try contradiction.
  intros [<-|H]; auto.
Qed.

(** The fallbacks of a model are other models of the table. *)
Lemma get_fallback_models_in primary_model fallback :
  In fallback (get_fallback_models primary_model) ->
  fallback <> primary_model /\ In fallback (map fst MODEL_CAPABILITIES).
Proof.
  unfold get_fallback_models. intros H.
  apply in_firstn, sort_by_quality_in in H.
  destruct (capabilities primary_model) as [cap|]; [|contradiction].
  apply in_map_iff in H. destruct H as (entry & <- & H).
  apply filter_In in H. destruct H as (Hin & Hb).
  apply andb_true_iff in Hb. destruct Hb as (Hne & _).
  split.
  - intros E. rewrite E, String.eqb_refl in Hne. discriminate.
  - apply in_map, Hin.
Qed.

End model_selector.

(** * router/model_router.py *)

Module model_router.
Import pylib.
Import model_selector.

(** [RouterConfig], by the fields the methods below read; the other
    fields (among them [failure_threshold] and [recovery_time]) are read
    by none of them. *)
Record RouterConfig := mk_config {
  enabled : bool;
  enable_fallback : bool;
  prefer_local : bool;
  track_model_health : bool
}.

Record ModelHealth := mk_health {
  failures : Z;
  successes : Z;
  last_failure : option Q;
  last_success : option Q;
  response_times : list Q
}.

(** [ModelHealth()]. *)
Definition new_health : ModelHealth := mk_health 0 0 None None [].

(** [x < y] on floats. *)
Definition Qlt_bool (x y : Q) : bool := negb (Qle_bool y x).

(** [ModelHealth.is_healthy]: the clock is read only for a model with
    three failures or more and a [last_failure] that counts as true. *)
Definition is_healthy {S} (mh : ModelHealth) : M S bool :=
  match last_failure mh with
  | Some t_failure =>
      if (3 <=? failures mh)%Z && negb (Qeq_bool t_failure 0) then
        (let recovery_time := 300 in
         t <- now ;;
         if Qlt_bool (t - t_failure) recovery_time then ret false else ret true)%py
      else ret true
  | None => ret true
  end.

(** What [ModelHealth.record_success] and [ModelHealth.record_failure]
    make of a record, at the reading [t] of the clock. *)
Definition succeeded (response_time t : Q) (mh : ModelHealth) : ModelHealth :=
  let times := (response_times mh ++ [response_time])%list in
  mk_health 0 (successes mh + 1) (last_failure mh) (Some t)
    (if (100 <? length times)%nat then tl times else times).

Definition failed_once (t : Q) (mh : ModelHealth) : ModelHealth :=
  mk_health (failures mh + 1) (successes mh) (Some t) (last_success mh)
    (response_times mh).

(** An entry of [routing_stats]. *)
Record Stats := mk_stats {
  routed : Z;
  fallback : Z;
  failed : Z
}.

Definition new_stats : Stats := mk_stats 0 0 0.

(** [ModelRouter]: [adapters] lists the keys of the dict of adapters. *)
Record ModelRouter := mk_router {
  config : RouterConfig;
  adapters : list string;
  model_health : gmap string ModelHealth;
  routing_stats : gmap string Stats
}.

Definition set_health (model : string) (mh : ModelHealth) (r : ModelRouter) : ModelRouter :=
  mk_router (config r) (adapters r) (<[model := mh]> (model_health r)) (routing_stats r).

Definition set_stats (model : string) (s : Stats) (r : ModelRouter) : ModelRouter :=
  mk_router (config r) (adapters r) (model_health r) (<[model := s]> (routing_stats r)).

(** [self.model_health[model]]: the [defaultdict] makes the record of a
    model on its first use. *)
Definition health_of (model : string) : M ModelRouter ModelHealth :=
  (r <- get_state ;;
   match model_health r !! model with
   | Some mh => ret mh
   | None => modify (set_health model new_health) ;; ret new_health
   end)%py.

(** [self.routing_stats[model]]. *)
Definition stats_of (model : string) : M ModelRouter Stats :=
  (r <- get_state ;;
   match routing_stats r !! model with
   | Some s => ret s
   | None => modify (set_stats model new_stats) ;; ret new_stats
   end)%py.

(** [ModelRouter.record_success]. *)
Definition record_success (model : string) (response_time : Q) : M ModelRouter unit :=
  (mh <- health_of model ;;
   t <- now ;;
   modify (set_health model (succeeded response_time t mh)))%py.

(** [ModelRouter.record_failure]. *)
Definition record_failure (model : string) : M ModelRouter unit :=
  (mh <- health_of model ;;
   t <- now ;;
   modify (set_health model (failed_once t mh)))%py.

Definition has_adapter (name : string) (adapters : list string) : bool :=
  existsb (String.eqb name) adapters.

(** [ModelRouter._get_adapter_for_model]. *)
Definition _get_adapter_for_model (adapters : list string) (model : string)
  : option string :=
  if chat.contains "/" model then
    if has_adapter "openrouter" adapters then Some "openrouter" else None
  else if chat.contains ":" model
          || existsb (String.eqb model)
               ["llama2"; "codellama"; "mistral"; "mixtral"; "gemma"; "qwen"]
  then if has_adapter "ollama" adapters then Some "ollama" else None
  else if String.prefix "gpt" model
  then Some (if has_adapter "openai" adapters then "openai" else "openrouter")
  else if String.prefix "claude" model
  then Some (if has_adapter "anthropic" adapters then "anthropic" else "openrouter")
  else None.

(** [ModelRouter._is_model_available]. *)
Definition _is_model_available (model : string) : M ModelRouter bool :=
  (r <- get_state ;;
   healthy <- (if track_model_health (config r)
               then mh <- health_of model ;; is_healthy mh
               else ret true) ;;
   if negb healthy then ret false
   else
     let adapter := _get_adapter_for_model (adapters r) model in
     ret (match adapter with Some _ => true | None => false end))%py.

(** [self.routing_stats[model]["fallback"] += 1] and
    [self.routing_stats[model]["failed"] += 1]. *)
Definition count_fallback (model : string) : M ModelRouter unit :=
  (s <- stats_of model ;;
   modify (set_stats model (mk_stats (routed s) (fallback s + 1) (failed s))))%py.

Definition count_failed (model : string) : M ModelRouter unit :=
  (s <- stats_of model ;;
   modify (set_stats model (mk_stats (routed s) (fallback s) (failed s + 1))))%py.

(** The loop of [get_fallback_model] over the fallbacks, and what follows
    it when no fallback is returned. *)
Fixpoint first_available (failed_model : string) (fallbacks : list string)
  : M ModelRouter (option (string * string)) :=
  match fallbacks with
  | [] => (count_failed failed_model ;; ret None)%py
  | fallback :: rest =>
      (available <- _is_model_available fallback ;;
       if available then
         r <- get_state ;;
         match _get_adapter_for_model (adapters r) fallback with
         | Some adapter =>
             count_fallback failed_model ;;
             ret (Some (fallback, adapter))
         | None => first_available failed_model rest
         end
       else first_available failed_model rest)%py
  end.

(** [ModelRouter.get_fallback_model]. *)
Definition get_fallback_model (failed_model : string)
  : M ModelRouter (option (string * string)) :=
  (r <- get_state ;;
   if negb (enable_fallback (config r)) then ret None
   else
     record_failure failed_model ;;
     let fallbacks := get_fallback_models failed_model in
     first_available failed_model fallbacks)%py.

(** The record of a model, made or not. *)
Definition health (r : ModelRouter) (model : string) : ModelHealth :=
  default new_health (model_health r !! model).

Definition stats (r : ModelRouter) (model : string) : Stats :=
  default new_stats (routing_stats r !! model).

(** The parts of the router the health checks leave alone: they can
    only make the record of a model that had none. *)
Definition same_but_records (r r' : ModelRouter) : Prop :=
  config r' = config r /\ adapters r' = adapters r /\
  routing_stats r' = routing_stats r /\
  forall model, health r' model = health r model.

Lemma same_but_records_refl r : same_but_records r r.
Proof. repeat split. Qed.

Lemma health_of_run model r c :
  exists r',
    health_of model r c = (Ret (health r model), r', c) /\
    same_but_records r r' /\ model_health r' !! model = Some (health r model).
Proof.
  unfold health_of, bind, get_state, modify, ret, health.
  destruct (model_health r !! model) as [mh|] eqn:E.
  - exists r. cbn. repeat split. exact E.
  - exists (set_health model new_health r). cbn. split; [reflexivity|]. split.
    + repeat split. intros m. unfold health, set_health. cbn.
      destruct (String.eqb_spec m model) as [->|Hne].
      * rewrite lookup_insert_eq, E. reflexivity.
      * rewrite lookup_insert_ne by congruence. reflexivity.
    + apply lookup_insert_eq.
Qed.

Lemma record_failure_run model r c :
  exists r',
    record_failure model r c = (Ret tt, r', tick c) /\
    config r' = config r /\ adapters r' = adapters r /\
    routing_stats r' = routing_stats r /\
    health r' model = failed_once (sample c 0) (health r model) /\
    forall other, other <> model -> health r' other = health r other.
Proof.
  destruct (health_of_run model r c) as (r1 & E & (A1 & A2 & A3 & A4) & _).
  unfold record_failure. erewrite bind_run by exact E.
  unfold bind, now, time_time, modify.
  change (readings c (reads c)) with (sample c 0).
  eexists. split; [reflexivity|]. cbn [set_health config adapters routing_stats].
  repeat split; try assumption.
  - unfold health. cbn. rewrite lookup_insert_eq. reflexivity.
  - intros other Hne. unfold health in *. cbn.
    rewrite lookup_insert_ne by congruence. apply A4.
Qed.

Lemma record_success_run model response_time r c :
  exists r',
    record_success model response_time r c = (Ret tt, r', tick c) /\
    config r' = config r /\ adapters r' = adapters r /\
    routing_stats r' = routing_stats r /\
    health r' model = succeeded response_time (sample c 0) (health r model) /\
    forall other, other <> model -> health r' other = health r other.
Proof.
  destruct (health_of_run model r c) as (r1 & E & (A1 & A2 & A3 & A4) & _).
  unfold record_success. erewrite bind_run by exact E.
  unfold bind, now, time_time, modify.
  change (readings c (reads c)) with (sample c 0).
  eexists. split; [reflexivity|]. cbn [set_health config adapters routing_stats].
  repeat split; try assumption.
  - unfold health. cbn. rewrite lookup_insert_eq. reflexivity.
  - intros other Hne. unfold health in *. cbn.
    rewrite lookup_insert_ne by congruence. apply A4.
Qed.

Lemma is_healthy_returns {S} mh (s : S) c :
  exists b c', is_healthy mh s c = (Ret b, s, c').
Proof.
  unfold is_healthy. destruct (last_failure mh) as [t|]; [|cbn; eauto].
  destruct ((3 <=? failures mh)%Z && negb (Qeq_bool t 0)); [|cbn; eauto].
  unfold bind, now, time_time, ret.
  destruct (Qlt_bool _ _); eauto.
Qed.

Lemma is_model_available_run model r c :
  exists b r' c',
    _is_model_available model r c = (Ret b, r', c') /\
    same_but_records r r' /\
    (b = true -> exists adapter,
       _get_adapter_for_model (adapters r) model = Some adapter).
Proof.
  unfold _is_model_available, bind at 1, get_state.
  destruct (track_model_health (config r)).
  - destruct (health_of_run model r c) as (r1 & E & F & _).
    unfold bind at 1. erewrite (bind_run (health_of model)) by exact E.
    destruct (is_healthy_returns (health r model) r1 c) as (b & c' & Eh).
    rewrite Eh. destruct b; cbn [negb]; unfold ret.
    + destruct (_get_adapter_for_model (adapters r) model) as [a|];
        do 3 eexists; (split; [reflexivity|]); (split; [exact F|]); eauto.
      discriminate.
    + do 3 eexists. split; [reflexivity|]. split; [exact F|]. discriminate.
  - unfold bind, ret. cbn [negb].
    destruct (_get_adapter_for_model (adapters r) model) as [a|];
      do 3 eexists; (split; [reflexivity|]); (split; [apply same_but_records_refl|]);
      eauto.
    discriminate.
Qed.

Lemma count_fallback_run model r c :
  count_fallback model r c
  = (Ret tt,
     set_stats model (mk_stats (routed (stats r model)) (fallback (stats r model) + 1)
                               (failed (stats r model))) r,
     c).
Proof.
  unfold count_fallback, stats_of, bind, get_state, modify, ret, stats.
  destruct (routing_stats r !! model) as [s|] eqn:E; cbn; [reflexivity|].
  unfold set_stats. cbn. rewrite insert_insert_eq. reflexivity.
Qed.

Lemma count_failed_run model r c :
  count_failed model r c
  = (Ret tt,
     set_stats model (mk_stats (routed (stats r model)) (fallback (stats r model))
                               (failed (stats r model) + 1)) r,
     c).
Proof.
  unfold count_failed, stats_of, bind, get_state, modify, ret, stats.
  destruct (routing_stats r !! model) as [s|] eqn:E; cbn; [reflexivity|].
  unfold set_stats. cbn. rewrite insert_insert_eq. reflexivity.
Qed.

(** What the loop over the fallbacks returns and changes. *)
Lemma first_available_run failed_model fallbacks : forall r c,
  exists answer r' c',
    first_available failed_model fallbacks r c = (Ret answer, r', c') /\
    config r' = config r /\ adapters r' = adapters r /\
    (forall model, health r' model = health r model) /\
    (forall other, other <> failed_model -> stats r' other = stats r other) /\
    match answer with
    | Some (chosen, adapter) =>
        In chosen fallbacks /\
        _get_adapter_for_model (adapters r) chosen = Some adapter /\
        stats r' failed_model
        = mk_stats (routed (stats r failed_model)) (fallback (stats r failed_model) + 1)
                   (failed (stats r failed_model))
    | None =>
        stats r' failed_model
        = mk_stats (routed (stats r failed_model)) (fallback (stats r failed_model))
                   (failed (stats r failed_model) + 1)
    end.
Proof.
  induction fallbacks as [|candidate rest IH]; intros r c.
  - cbn [first_available]. unfold bind. rewrite count_failed_run. unfold ret.
    exists None. do 2 eexists. split; [reflexivity|].
    cbn [set_stats config adapters]. repeat split.
    + intros other Hne. unfold stats. cbn. rewrite lookup_insert_ne by congruence.
      reflexivity.
    + unfold stats at 1. cbn. rewrite lookup_insert_eq. reflexivity.
  - cbn [first_available].
    destruct (is_model_available_run candidate r c)
      as (b & r1 & c1 & E & (A1 & A2 & A3 & A4) & Hb).
    erewrite bind_run by exact E.
    assert (Hstats : forall m, stats r1 m = stats r m)
      by (intros m; unfold stats; rewrite A3; reflexivity).
    assert (Hrest : exists answer r' c',
              first_available failed_model rest r1 c1 = (Ret answer, r', c') /\
              config r' = config r /\ adapters r' = adapters r /\
              (forall model, health r' model = health r model) /\
              (forall other, other <> failed_model -> stats r' other = stats r other) /\
              match answer with
              | Some (chosen, adapter) =>
                  In chosen (candidate :: rest) /\
                  _get_adapter_for_model (adapters r) chosen = Some adapter /\
                  stats r' failed_model
                  = mk_stats (routed (stats r failed_model))
                             (fallback (stats r failed_model) + 1)
                             (failed (stats r failed_model))
              | None =>
                  stats r' failed_model
                  = mk_stats (routed (stats r failed_model))
                             (fallback (stats r failed_model))
                             (failed (stats r failed_model) + 1)
              end).
    { destruct (IH r1 c1) as (answer & r' & c' & E' & B1 & B2 & B3 & B4 & B5).
      exists answer, r', c'. split; [exact E'|].
      split; [congruence|]. split; [congruence|].
      split; [intros m; rewrite B3; apply A4|].
      split; [intros o Ho; rewrite B4 by exact Ho; apply Hstats|].
      destruct answer as [[chosen adapter]|].
      - destruct B5 as (C1 & C2 & C3). rewrite A2 in C2. rewrite !Hstats in C3.
        split; [right; exact C1|]. split; assumption.
      - rewrite !Hstats in B5. exact B5. }
    destruct b; [|exact Hrest].
    unfold bind at 1, get_state. rewrite A2.
    destruct (_get_adapter_for_model (adapters r) candidate) as [adapter|] eqn:Ea;
      [|exact Hrest].
    unfold bind. rewrite count_fallback_run. unfold ret.
    exists (Some (candidate, adapter)). do 2 eexists. split; [reflexivity|].
    cbn [set_stats config adapters]. split; [exact A1|]. split; [exact A2|].
    split; [intros m; unfold health; cbn; apply A4|].
    split.
    + intros other Hne. unfold stats at 1. cbn. rewrite lookup_insert_ne by congruence.
      apply Hstats.
    + split; [left; reflexivity|]. split; [exact Ea|].
      unfold stats at 1. cbn. rewrite lookup_insert_eq, !Hstats. reflexivity.
Qed.

(** A model whose name holds a slash or a colon is served by an adapter
    of the router, or by none. *)
Lemma adapter_is_configured adapters model adapter :
  chat.contains "/" model || chat.contains ":" model = true ->
  _get_adapter_for_model adapters model = Some adapter ->
  In adapter adapters.
Proof.
  intros Hname. unfold _get_adapter_for_model, has_adapter.
  destruct (chat.contains "/" model).
  - destruct (existsb (String.eqb "openrouter") adapters) eqn:E; [|discriminate].
    intros [= <-]. apply existsb_exists in E. destruct E as (x & Hx & Ex).
    apply String.eqb_eq in Ex. subst x. exact Hx.
  - cbn in Hname. rewrite Hname. cbn [orb].
    destruct (existsb (String.eqb "ollama") adapters) eqn:E; [|discriminate].
    intros [= <-]. apply existsb_exists in E. destruct E as (x & Hx & Ex).
    apply String.eqb_eq in Ex. subst x. exact Hx.
Qed.

Lemma table_names_have_a_provider_mark model :
  In model (map fst MODEL_CAPABILITIES) ->
  chat.contains "/" model || chat.contains ":" model = true.
Proof.
  cbn. intros H.
  repeat (destruct H as [<-|H]; [vm_compute; reflexivity|]). contradiction.
Qed.

Lemma get_fallback_model_run failed_model r clk :
  get_fallback_model failed_model r clk
  = if enable_fallback (config r)
    then bind (record_failure failed_model)
              (fun _ => first_available failed_model (get_fallback_models failed_model))
              r clk
    else (Ret None, r, clk).
Proof.
  unfold get_fallback_model, bind at 1, get_state.
  destruct (enable_fallback (config r)); reflexivity.
Qed.

(** What [get_fallback_model] returns and changes when fallback is on. *)
Lemma get_fallback_model_effect failed_model r clk :
  enable_fallback (config r) = true ->
  exists answer r' c',
    get_fallback_model failed_model r clk = (Ret answer, r', c') /\
    config r' = config r /\ adapters r' = adapters r /\
    health r' failed_model = failed_once (sample clk 0) (health r failed_model) /\
    (forall other, other <> failed_model ->
       health r' other = health r other /\ stats r' other = stats r other) /\
    match answer with
    | Some (chosen, adapter) =>
        chosen <> failed_model /\
        In chosen (map fst MODEL_CAPABILITIES) /\
        _get_adapter_for_model (adapters r) chosen = Some adapter /\
        In adapter (adapters r) /\
        stats r' failed_model
        = mk_stats (routed (stats r failed_model))
                   (fallback (stats r failed_model) + 1)
                   (failed (stats r failed_model))
    | None =>
        stats r' failed_model
        = mk_stats (routed (stats r failed_model)) (fallback (stats r failed_model))
                   (failed (stats r failed_model) + 1)
    end.
Proof.
  intros Hon. rewrite get_fallback_model_run, Hon.
  destruct (record_failure_run failed_model r clk)
    as (r1 & E1 & A1 & A2 & A3 & A4 & A5).
  erewrite bind_run by exact E1.
  destruct (first_available_run failed_model (get_fallback_models failed_model)
              r1 (tick clk))
    as (answer & r2 & c2 & E2 & B1 & B2 & B3 & B4 & B5).
  assert (Hstats : forall m, stats r1 m = stats r m)
    by (intros m; unfold stats; rewrite A3; reflexivity).
  exists answer, r2, c2. split; [exact E2|].
  split; [congruence|]. split; [congruence|].
  split; [rewrite B3; exact A4|].
  split.
  { intros other Hne. split.
    - rewrite B3. apply A5, Hne.
    - rewrite B4 by exact Hne. apply Hstats. }
  destruct answer as [[chosen adapter]|].
  - destruct B5 as (C1 & C2 & C3). rewrite A2 in C2. rewrite !Hstats in C3.
    apply get_fallback_models_in in C1. destruct C1 as (Hne & Hin).
    repeat split; try assumption.
    eapply adapter_is_configured; [|exact C2].
    apply table_names_have_a_provider_mark, Hin.
  - rewrite !Hstats in B5. exact B5.
Qed.

(** X29.  [get_fallback_model] does nothing and returns None when
    fallback is switched off.  Otherwise it never raises and counts one
    more failure of the failed model, at the time of the call.  A model
    it returns is another model than the failed one, taken from the
    capability table, and comes with the adapter
    [_get_adapter_for_model] names for it, which is one of the router's
    adapters; the call is then counted under [fallback] in the failed
    model's statistics, and under [failed] when None is returned.  No
    other model's record or statistics change. *)
Theorem fallback_is_another_model_with_a_configured_adapter failed_model r clk :
  let o := get_fallback_model failed_model r clk in
  if enable_fallback (config r) then
    exists answer,
      res_of o = Ret answer /\
      config (st_of o) = config r /\ adapters (st_of o) = adapters r /\
      health (st_of o) failed_model
      = failed_once (sample clk 0) (health r failed_model) /\
      (forall other, other <> failed_model ->
         health (st_of o) other = health r other /\
         stats (st_of o) other = stats r other) /\
      match answer with
      | Some (chosen, adapter) =>
          chosen <> failed_model /\
          In chosen (map fst MODEL_CAPABILITIES) /\
          _get_adapter_for_model (adapters r) chosen = Some adapter /\
          In adapter (adapters r) /\
          stats (st_of o) failed_model
          = mk_stats (routed (stats r failed_model))
                     (fallback (stats r failed_model) + 1)
                     (failed (stats r failed_model))
      | None =>
          stats (st_of o) failed_model
          = mk_stats (routed (stats r failed_model)) (fallback (stats r failed_model))
                     (failed (stats r failed_model) + 1)
      end
  else o = (Ret None, r, clk).
Proof.
  cbn zeta. destruct (enable_fallback (config r)) eqn:Hon.
  - destruct (get_fallback_model_effect failed_model r clk Hon)
      as (answer & r' & c' & E & H).
    rewrite E. exists answer. split; [reflexivity | exact H].
  - rewrite get_fallback_model_run, Hon. reflexivity.
Qed.

(** A model with three failures or more is unavailable for 300 seconds
    after the last one. *)
Lemma unavailable_after_failures model r c t_failure :
  track_model_health (config r) = true ->
  (3 <= failures (health r model))%Z ->
  last_failure (health r model) = Some t_failure ->
  ~ t_failure == 0 ->
  sample c 0 - t_failure < 300 ->
  res_of (_is_model_available model r c) = Ret false.
Proof.
  intros Htrack Hf Hl Hnz Hrecent.
  unfold _is_model_available, bind at 1, get_state. rewrite Htrack.
  destruct (health_of_run model r c) as (r1 & E & _ & _).
  unfold bind at 1. erewrite (bind_run (health_of model)) by exact E.
  unfold is_healthy. rewrite Hl.
  replace (3 <=? failures (health r model))%Z with true
    by (symmetry; apply Z.leb_le; exact Hf).
  replace (Qeq_bool t_failure 0) with false
    by (symmetry; apply not_true_is_false; intros Q; apply Qeq_bool_iff in Q; auto).
  cbn [andb negb]. unfold bind, now, time_time, ret.
  change (readings c (reads c)) with (sample c 0).
  replace (Qlt_bool (sample c 0 - t_failure) 300) with true; [reflexivity|].
  symmetry. unfold Qlt_bool. apply negb_true_iff, not_true_is_false.
  intros Q. apply Qle_bool_iff in Q. lra.
Qed.

(** X30.  [ChatHandler.handle_chat] counts every failure of an adapter
    twice: its [except] block calls [record_failure] and then
    [get_fallback_model], which records a failure of its own.  With
    fallback on, the failed model leaves the block with two failures
    more, whether or not a fallback answered; so a model that had failed
    once is unavailable from its second failed request on, for 300
    seconds. *)
Theorem adapter_failure_counts_twice
  (handler_adapters : list string)
  (adapter_chat : string -> pyval -> list (string * pyval) -> nat -> Res pyval)
  (adapter_error : exn) (model : string) (messages : pyval)
  (adapter_params : list (string * pyval))
  (h : chat.ChatHandler ModelRouter) (r : ModelRouter) (clk : Clock)
  (Hrouter : chat.model_router h = Some r)
  (Hon : enable_fallback (config r) = true) :
  let o := chat.on_adapter_error ModelRouter record_failure get_fallback_model
             handler_adapters adapter_chat adapter_error model messages
             adapter_params h clk in
  exists r',
    chat.model_router (st_of o) = Some r' /\
    health r' model
    = failed_once (sample clk 1) (failed_once (sample clk 0) (health r model)) /\
    failures (health r' model) = (failures (health r model) + 2)%Z /\
    (track_model_health (config r) = true ->
     (1 <= failures (health r model))%Z ->
     ~ sample clk 1 == 0 ->
     forall c, sample c 0 - sample clk 1 < 300 ->
       res_of (_is_model_available model r' c) = Ret false).
Proof.
  cbn zeta.
  destruct (record_failure_run model r clk) as (r1 & E1 & A1 & A2 & A3 & A4 & A5).
  assert (Hon1 : enable_fallback (config r1) = true) by (rewrite A1; exact Hon).
  destruct (get_fallback_model_effect model r1 (tick clk) Hon1)
    as (answer & r2 & c2 & E2 & B1 & B2 & B3 & _).
  rewrite sample_tick in B3. rewrite A4 in B3.
  rewrite (chat.on_adapter_error_run ModelRouter record_failure get_fallback_model
             handler_adapters adapter_chat adapter_error model messages adapter_params
             h r clk r1 (tick clk) answer r2 c2 Hrouter E1 E2).
  cbn zeta.
  assert (G : health r2 model
              = failed_once (sample clk 1) (failed_once (sample clk 0) (health r model)) /\
              failures (health r2 model) = (failures (health r model) + 2)%Z /\
              (track_model_health (config r) = true ->
               (1 <= failures (health r model))%Z ->
               ~ sample clk 1 == 0 ->
               forall c, sample c 0 - sample clk 1 < 300 ->
                 res_of (_is_model_available model r2 c) = Ret false)).
  { split; [exact B3|]. split; [rewrite B3; cbn; lia|].
    intros Htrack Hf Hnz c Hc.
    apply (unavailable_after_failures model r2 c (sample clk 1)).
    - rewrite B1, A1. exact Htrack.
    - rewrite B3. cbn. lia.
    - rewrite B3. reflexivity.
    - exact Hnz.
    - exact Hc. }
  exists r2.
  destruct answer as [[fallback_model fallback_adapter_name]|]; [|split; [reflexivity | exact G]].
  destruct (chat.adapters_get handler_adapters (Some fallback_adapter_name));
    [|split; [reflexivity | exact G]].
  unfold error_handler.catch, bind, chat.chat_call, ret, raise.
  destruct (adapter_chat _ _ _ _); (split; [reflexivity | exact G]).
Qed.

(** A router for the adapters ["ollama"] and ["openrouter"] on which
    ["llama3:8b"] has failed once, and a handler that uses it. *)
Definition failed_before : ModelRouter :=
  mk_router (mk_config true true true true) ["ollama"; "openrouter"]
    {["llama3:8b" := mk_health 1 0 (Some 5) None []]} ∅.

Definition routed_handler : chat.ChatHandler ModelRouter :=
  chat.mk_handler None (Some failed_before) [].

Lemma adapter_failure_counts_twice_witness :
  let o := chat.on_adapter_error ModelRouter record_failure get_fallback_model
             ["ollama"; "openrouter"] chat.primary_down
             (builtin_exn (Foreign "TimeoutError") "timed out")
             "llama3:8b" (PList []) [] routed_handler (clock_of_list [] 10) in
  exists r',
    chat.model_router (st_of o) = Some r' /\
    failures (health r' "llama3:8b") = 3%Z /\
    res_of (_is_model_available "llama3:8b" r' (clock_of_list [] 20)) = Ret false.
Proof.
  cbn zeta.
  destruct (adapter_failure_counts_twice ["ollama"; "openrouter"] chat.primary_down
              (builtin_exn (Foreign "TimeoutError") "timed out")
              "llama3:8b" (PList []) [] routed_handler failed_before
              (clock_of_list [] 10) eq_refl eq_refl)
    as (r' & Hr & _ & Hf & Hu).
  exists r'. split; [exact Hr|]. split; [rewrite Hf; reflexivity|].
  apply Hu.
  - reflexivity.
  - vm_compute. discriminate.
  - vm_compute. discriminate.
  - vm_compute. reflexivity.
Defined.

End model_router.
